(** * Signaling and peer-session coordination layer of the space-shooter game

    A shallow embedding of the relay's room registry ([RoomManager]), the relay
    protocol handler ([SignalingServer]), the control-plane client
    ([SignalingClient]) and the peer session ([WebRTCConnection]), with the
    properties of the specification stated over them. *)

From Stdlib Require Import ZArith NArith String Ascii Lia.
From stdpp Require Import base strings gmap fin_maps numbers list.

(** ** JavaScript [Map] with string keys

    A JS [Map] iterates in insertion order, and the relay searches its maps
    with [Array.from(m.values()).find(...)] and [for ... of m.entries()], so
    the entries are kept as an association list in insertion order. *)
Module JsMap.

Definition t (V : Type) : Type := list (string * V).

Definition empty {V} : t V := [].

(** [m.get(k)] *)
Fixpoint get {V} (k : string) (m : t V) : option V :=
  match m with
  | [] => None
  | (k', v) :: m' => if decide (k' = k) then Some v else get k m'
  end.

(** [m.set(k, v)]: an existing key keeps its position, a new one goes last. *)
Fixpoint set {V} (k : string) (v : V) (m : t V) : t V :=
  match m with
  | [] => [(k, v)]
  | (k', v') :: m' =>
      if decide (k' = k) then (k, v) :: m' else (k', v') :: set k v m'
  end.

(** [m.delete(k)] *)
Fixpoint remove {V} (k : string) (m : t V) : t V :=
  match m with
  | [] => []
  | (k', v) :: m' =>
      if decide (k' = k) then remove k m' else (k', v) :: remove k m'
  end.

(** [m.size] *)
Definition size {V} (m : t V) : nat := length m.

(** [Array.from(m.values())] *)
Definition values {V} (m : t V) : list V := m.*2.

(** [Array.from(m.keys())] *)
Definition keys {V} (m : t V) : list string := m.*1.

End JsMap.

(** ** Strings of the JavaScript runtime *)

(** A string in a condition: the empty string is falsy. *)
Definition truthy (s : string) : bool := negb (String.eqb s "").

(** [String.prototype.toUpperCase] on the characters that occur here. *)
Definition ascii_toUpperCase (c : ascii) : ascii :=
  let n := nat_of_ascii c in
  if (97 <=? n)%nat && (n <=? 122)%nat then ascii_of_nat (n - 32) else c.

Fixpoint toUpperCase (s : string) : string :=
  match s with
  | EmptyString => EmptyString
  | String c s' => String (ascii_toUpperCase c) (toUpperCase s')
  end.

(** [s.substring(start, end)] for [start <= end]: indices are clamped to the
    length of [s]. *)
Definition js_substring (start end_ : nat) (s : string) : string :=
  String.substring start (end_ - start) s.

(** The digit alphabet of [Number.prototype.toString(radix)]. *)
Definition radix_digits : string := "0123456789abcdefghijklmnopqrstuvwxyz".

Definition digit_char (d : N) : ascii :=
  match String.get (N.to_nat d) radix_digits with
  | Some c => c
  | None => "?"%char
  end.

(** A value of [Math.random()]: the double [m / 2^53] with [m < 2^53],
    given by its numerator. *)
Definition two53 : N := 2 ^ 53.

Fixpoint string_of_digits (ds : list N) : string :=
  match ds with
  | [] => EmptyString
  | d :: ds' => String (digit_char d) (string_of_digits ds')
  end.

(** *** [Number.prototype.toString(36)]

    The relay runs on Node.js, whose engine renders a fraction in another
    radix with doubles ([DoubleToRadixCString]): it writes digits until what
    is left of the fraction is below [delta], half the distance to the next
    double, and rounds the last digit.  A double [x] with [0 <= x < 64] is
    given here by the number [x * 2^160], which is a whole number for every
    double that occurs; a product or a sum of doubles is the exact one rounded
    to 53 significant bits, to the nearest and to even on a tie. *)
Definition double_one : N := 2 ^ 160.

Definition round53 (x : N) : N :=
  let sh := (N.size x - 53)%N in
  let q := (x / 2 ^ sh)%N in
  let r := (x mod 2 ^ sh)%N in
  if (2 ^ sh <? 2 * r)%N || ((2 * r =? 2 ^ sh)%N && N.odd q)
  then ((q + 1) * 2 ^ sh)%N else (q * 2 ^ sh)%N.

(** The carry of a last digit that is rounded up, back over the digits
    written, last one first: a digit that can grow ends it, the digits after
    it are dropped; [None] when the carry reaches the integer part. *)
Fixpoint carry_over (written : list N) : option (list N) :=
  match written with
  | [] => None
  | d :: rest =>
      if (d + 1 <? 36)%N then Some ((d + 1)%N :: rest) else carry_over rest
  end.

(** The loop that writes the digits of the fraction, the last one written
    first in [written]. *)
Fixpoint fraction_digits (fuel : nat) (fraction delta : N) (written : list N)
    : option (list N) :=
  match fuel with
  | O => Some written
  | S fuel' =>
      let fraction1 := round53 (fraction * 36) in
      let delta1 := round53 (delta * 36) in
      let digit := (fraction1 / double_one)%N in
      let written1 := digit :: written in
      let fraction2 := (fraction1 mod double_one)%N in
      if ((double_one <? 2 * fraction2)%N ||
          ((2 * fraction2 =? double_one)%N && N.odd digit)) &&
         (double_one <? round53 (fraction2 + delta1))%N
      then carry_over written1
      else if (delta1 <=? fraction2)%N
           then fraction_digits fuel' fraction2 delta1 written1
           else Some written1
  end.

(** [x.toString(36)] for [x = m / 2^53] in [0, 1): ["0"] for zero; otherwise
    the fraction is [x] and [delta] is half of the distance from [x] to the
    next double, which is [2^(b - 107)] for a numerator [m] of [b] bits.  The
    loop ends within 26 rounds ([fraction_digits_fuel]). *)
Definition toString36 (m : N) : string :=
  if (m =? 0)%N then "0"
  else
    let fraction := (m * 2 ^ 107)%N in
    let delta := (2 ^ (N.size m + 53))%N in
    if (delta <=? fraction)%N then
      match fraction_digits 32 fraction delta [] with
      | Some written => "0." +:+ string_of_digits (rev written)
      | None => "1"
      end
    else "0".

(** An uppercase letter or a digit. *)
Definition is_upper_alnum (c : ascii) : bool :=
  let n := nat_of_ascii c in
  ((48 <=? n)%nat && (n <=? 57)%nat) || ((65 <=? n)%nat && (n <=? 90)%nat).

Fixpoint all_chars (p : ascii -> bool) (s : string) : bool :=
  match s with
  | EmptyString => true
  | String c s' => p c && all_chars p s'
  end.

(** ** The room registry (server, [RoomManager]) *)

Inductive ReadyState := CONNECTING | OPEN | CLOSING | CLOSED.

#[export] Instance ReadyState_eq_dec : EqDecision ReadyState.
Proof. solve_decision. Defined.

(** A [WebSocket] object of the relay, by identity. *)
Definition WebSocket := nat.

Record Player := mkPlayer {
  p_id : string;
  p_socket : WebSocket;
  isHost : bool
}.

Inductive RoomStatus := waiting | full | playing | disconnected.

#[export] Instance RoomStatus_eq_dec : EqDecision RoomStatus.
Proof. solve_decision. Defined.

Record Room := mkRoom {
  r_id : string;
  code : string;
  players : JsMap.t Player;
  status : RoomStatus;
  createdAt : Z
}.

Definition set_players (r : Room) (ps : JsMap.t Player) : Room :=
  mkRoom (r_id r) (code r) ps (status r) (createdAt r).

Definition set_status (r : Room) (st : RoomStatus) : Room :=
  mkRoom (r_id r) (code r) (players r) st (createdAt r).

(** The fields of [RoomManager]. *)
Record RoomManager := mkRoomManager {
  rooms : JsMap.t Room;
  playerRooms : gmap string string
}.

Module Rooms.

Definition init : RoomManager := mkRoomManager JsMap.empty ∅.

(** [Math.random().toString(36).substring(2, 8).toUpperCase()] *)
Definition roomCode (random : N) : string :=
  toUpperCase (js_substring 2 8 (toString36 random)).

(** [createRoom()]: [uuid] is the value of [uuidv4()], [random] the one of
    [Math.random()], [now] the one of [Date.now()]. *)
Definition createRoom (uuid : string) (random : N) (now : Z)
    (rm : RoomManager) : RoomManager * Room :=
  let room := mkRoom uuid (roomCode random) JsMap.empty waiting now in
  (mkRoomManager (JsMap.set uuid room (rooms rm)) (playerRooms rm), room).

(** [getRoomByCode(code)] *)
Definition getRoomByCode (c : string) (rm : RoomManager) : option Room :=
  find (fun room => bool_decide (code room = c)) (JsMap.values (rooms rm)).

(** [getRoom(roomId)] *)
Definition getRoom (roomId : string) (rm : RoomManager) : option Room :=
  JsMap.get roomId (rooms rm).

(** [addPlayerToRoom(roomId, player)].  The room object is shared between the
    map and the callers, so the update is written back under [roomId]. *)
Definition addPlayerToRoom (roomId : string) (player : Player)
    (rm : RoomManager) : RoomManager * bool :=
  match JsMap.get roomId (rooms rm) with
  | None => (rm, false)
  | Some room =>
      if (2 <=? JsMap.size (players room))%nat then (rm, false)
      else
        let room1 := set_players room (JsMap.set (p_id player) player (players room)) in
        let room2 :=
          if (JsMap.size (players room1) =? 2)%nat then set_status room1 full
          else room1 in
        (mkRoomManager (JsMap.set roomId room2 (rooms rm))
                       (<[p_id player := roomId]> (playerRooms rm)), true)
  end.

(** [removePlayer(playerId)] *)
Definition removePlayer (playerId : string) (rm : RoomManager)
    : RoomManager * option Room :=
  match playerRooms rm !! playerId with
  | None => (rm, None)
  | Some roomId =>
      if negb (truthy roomId) then (rm, None)
      else
        match JsMap.get roomId (rooms rm) with
        | None => (mkRoomManager (rooms rm) (delete playerId (playerRooms rm)), None)
        | Some room =>
            let room1 := set_players room (JsMap.remove playerId (players room)) in
            let pr := delete playerId (playerRooms rm) in
            if (JsMap.size (players room1) =? 0)%nat then
              (mkRoomManager (JsMap.remove roomId (rooms rm)) pr, None)
            else
              let room2 := set_status room1 waiting in
              (mkRoomManager (JsMap.set roomId room2 (rooms rm)) pr, Some room2)
        end
  end.

(** [getPlayerRoom(playerId)] *)
Definition getPlayerRoom (playerId : string) (rm : RoomManager) : option Room :=
  match playerRooms rm !! playerId with
  | None => None
  | Some roomId =>
      if negb (truthy roomId) then None else JsMap.get roomId (rooms rm)
  end.

(** [getPlayersInRoom(roomId)] *)
Definition getPlayersInRoom (roomId : string) (rm : RoomManager) : list Player :=
  match JsMap.get roomId (rooms rm) with
  | None => []
  | Some room => JsMap.values (players room)
  end.

(** [getOtherPlayerInRoom(roomId, playerId)] *)
Definition getOtherPlayerInRoom (roomId playerId : string) (rm : RoomManager)
    : option Player :=
  match JsMap.get roomId (rooms rm) with
  | None => None
  | Some room =>
      snd <$> find (fun kv => bool_decide (kv.1 ≠ playerId)) (players room)
  end.

(** [cleanupOldRooms(maxAgeMs)]: the loop over [this.rooms.entries()]; deleting
    the current entry of a [Map] during its iteration does not disturb the
    iteration. *)
Fixpoint cleanupLoop (now maxAgeMs : Z) (entries : list (string * Room))
    (rm : RoomManager) : RoomManager :=
  match entries with
  | [] => rm
  | (roomId, room) :: rest =>
      if (maxAgeMs <? now - createdAt room)%Z then
        let pr := foldl (fun acc p => delete (p_id p) acc) (playerRooms rm)
                        (JsMap.values (players room)) in
        cleanupLoop now maxAgeMs rest
          (mkRoomManager (JsMap.remove roomId (rooms rm)) pr)
      else cleanupLoop now maxAgeMs rest rm
  end.

Definition cleanupOldRooms (now maxAgeMs : Z) (rm : RoomManager) : RoomManager :=
  cleanupLoop now maxAgeMs (rooms rm) rm.

End Rooms.

(** ** The relay (server, [SignalingServer]) *)

(** A value of type [any] parsed from JSON; the relay only tests it in a
    condition and forwards it. *)
Inductive Json :=
| JNull
| JBool (b : bool)
| JNum (z : Z)
| JStr (s : string)
| JObject (text : string).

Definition json_truthy (j : Json) : bool :=
  match j with
  | JNull => false
  | JBool b => b
  | JNum z => negb (z =? 0)%Z
  | JStr s => truthy s
  | JObject _ => true
  end.

(** The wire envelope; an absent field is [None].  The last three fields are
    the ones the client adds for its reconnection events. *)
Record SignalingMessage := mkMsg {
  m_type : string;
  m_roomCode : option string;
  m_roomId : option string;
  m_playerId : option string;
  m_offer : option Json;
  m_answer : option Json;
  m_candidate : option Json;
  m_error : option string;
  m_attempt : option Z;
  m_maxAttempts : option Z;
  m_delay : option Z
}.

Definition msg0 (type : string) : SignalingMessage :=
  mkMsg type None None None None None None None None None None.

(** [x] in a condition, for an optional string field. *)
Definition field_truthy (x : option string) : bool :=
  match x with Some s => truthy s | None => false end.

Definition any_truthy (x : option Json) : bool :=
  match x with Some j => json_truthy j | None => false end.

Module Relay.

(** What the environment provides while one event is handled: the state of
    each socket, and the values drawn by [uuidv4()], [Math.random()] and
    [Date.now()]. *)
Record Env := mkEnv {
  readyState : WebSocket -> ReadyState;
  uuidv4 : string;
  Math_random : N;
  Date_now : Z
}.

(** A [socket.send] that the relay performed. *)
Inductive Sent := Send (socket : WebSocket) (message : SignalingMessage).

Definition sendToSocket (env : Env) (socket : WebSocket)
    (message : SignalingMessage) : list Sent :=
  if decide (readyState env socket = OPEN) then [Send socket message] else [].

Definition error_message (error : string) : SignalingMessage :=
  mkMsg "error" None None None None None None (Some error) None None None.

Definition sendError (env : Env) (socket : WebSocket) (error : string)
    : list Sent :=
  sendToSocket env socket (error_message error).

Definition room_message (type : string) (room : Room) : SignalingMessage :=
  mkMsg type (Some (code room)) (Some (r_id room)) None None None None None
        None None None.

Definition player_message (type playerId : string) : SignalingMessage :=
  mkMsg type None None (Some playerId) None None None None None None None.

Definition handleCreateRoom (env : Env) (socket : WebSocket) (playerId : string)
    (rm : RoomManager) : RoomManager * list Sent :=
  let '(rm1, room) := Rooms.createRoom (uuidv4 env) (Math_random env) (Date_now env) rm in
  let player := mkPlayer playerId socket true in
  let '(rm2, _) := Rooms.addPlayerToRoom (r_id room) player rm1 in
  (rm2, sendToSocket env socket (room_message "room-created" room)).

Definition handleJoinRoom (env : Env) (socket : WebSocket)
    (playerId roomCode : string) (rm : RoomManager) : RoomManager * list Sent :=
  match Rooms.getRoomByCode roomCode rm with
  | None => (rm, sendError env socket ("Room with code " +:+ roomCode +:+ " not found"))
  | Some room =>
      if decide (status room = full) then
        (rm, sendError env socket ("Room " +:+ roomCode +:+ " is full"))
      else
        let player := mkPlayer playerId socket false in
        let '(rm1, success) := Rooms.addPlayerToRoom (r_id room) player rm in
        if negb success then
          (rm1, sendError env socket ("Failed to join room " +:+ roomCode))
        else
          (* [room] is the object that [addPlayerToRoom] has updated *)
          let room1 := default room (JsMap.get (r_id room) (rooms rm1)) in
          (rm1,
           sendToSocket env socket (room_message "room-joined" room1) ++
           match find isHost (JsMap.values (players room1)) with
           | Some host =>
               sendToSocket env (p_socket host) (player_message "player-joined" playerId)
           | None => []
           end)
  end.

(** [handleOffer], [handleAnswer] and [handleIceCandidate] differ only in the
    field that carries the payload. *)
Definition forward (env : Env) (playerId roomId : string)
    (message : SignalingMessage) (rm : RoomManager) : list Sent :=
  match Rooms.getRoom roomId rm with
  | None => []
  | Some _ =>
      match Rooms.getOtherPlayerInRoom roomId playerId rm with
      | None => []
      | Some otherPlayer => sendToSocket env (p_socket otherPlayer) message
      end
  end.

Definition handleOffer (env : Env) (playerId roomId : string) (offer : Json) :=
  forward env playerId roomId
    (mkMsg "offer" None None (Some playerId) (Some offer) None None None None None None).

Definition handleAnswer (env : Env) (playerId roomId : string) (answer : Json) :=
  forward env playerId roomId
    (mkMsg "answer" None None (Some playerId) None (Some answer) None None None None None).

Definition handleIceCandidate (env : Env) (playerId roomId : string) (candidate : Json) :=
  forward env playerId roomId
    (mkMsg "ice-candidate" None None (Some playerId) None None (Some candidate) None
           None None None).

Definition handleMessage (env : Env) (socket : WebSocket) (playerId : string)
    (message : SignalingMessage) (rm : RoomManager) : RoomManager * list Sent :=
  if decide (m_type message = "create-room") then
    handleCreateRoom env socket playerId rm
  else if decide (m_type message = "join-room") then
    match m_roomCode message with
    | Some roomCode =>
        if truthy roomCode then handleJoinRoom env socket playerId roomCode rm
        else (rm, sendError env socket "Room code is required")
    | None => (rm, sendError env socket "Room code is required")
    end
  else if decide (m_type message = "offer") then
    match m_roomId message, m_offer message with
    | Some roomId, Some offer =>
        if truthy roomId && json_truthy offer
        then (rm, handleOffer env playerId roomId offer rm)
        else (rm, sendError env socket "Room ID and offer are required")
    | _, _ => (rm, sendError env socket "Room ID and offer are required")
    end
  else if decide (m_type message = "answer") then
    match m_roomId message, m_answer message with
    | Some roomId, Some answer =>
        if truthy roomId && json_truthy answer
        then (rm, handleAnswer env playerId roomId answer rm)
        else (rm, sendError env socket "Room ID and answer are required")
    | _, _ => (rm, sendError env socket "Room ID and answer are required")
    end
  else if decide (m_type message = "ice-candidate") then
    match m_roomId message, m_candidate message with
    | Some roomId, Some candidate =>
        if truthy roomId && json_truthy candidate
        then (rm, handleIceCandidate env playerId roomId candidate rm)
        else (rm, sendError env socket "Room ID and candidate are required")
    | _, _ => (rm, sendError env socket "Room ID and candidate are required")
    end
  else (rm, sendError env socket ("Unknown message type: " +:+ m_type message)).

(** The events of the relay's event loop.  A connection draws its player id
    with [uuidv4()]; the handlers of a socket close over that id. *)
Inductive Event :=
| Connection (socket : WebSocket)
| Message (socket : WebSocket) (playerId : string) (data : option SignalingMessage)
| Close (socket : WebSocket) (playerId : string)
| CleanupTimer.

(** The ['close'] handler of a socket. *)
Definition onClose (env : Env) (playerId : string) (rm : RoomManager)
    : RoomManager * list Sent :=
  let '(rm1, room) := Rooms.removePlayer playerId rm in
  (rm1,
   match room with
   | Some room =>
       match Rooms.getOtherPlayerInRoom (r_id room) playerId rm1 with
       | Some otherPlayer =>
           sendToSocket env (p_socket otherPlayer)
             (player_message "player-disconnected" playerId)
       | None => []
       end
   | None => []
   end).

(** One turn of the event loop.  [data = None] is a frame that [JSON.parse]
    rejects. *)
Definition step (env : Env) (rm : RoomManager) (ev : Event)
    : RoomManager * list Sent :=
  match ev with
  | Connection socket =>
      (rm, sendToSocket env socket (player_message "connection-established" (uuidv4 env)))
  | Message socket playerId (Some message) =>
      handleMessage env socket playerId message rm
  | Message socket playerId None =>
      (rm, sendError env socket "Invalid message format")
  | Close socket playerId => onClose env playerId rm
  | CleanupTimer => (Rooms.cleanupOldRooms (Date_now env) 3600000 rm, [])
  end.

(** The event is a create-room request whose new room gets the id [roomId]. *)
Definition creates (env : Env) (ev : Event) (roomId : string) : Prop :=
  match ev with
  | Message _ _ (Some message) =>
      m_type message = "create-room" /\ uuidv4 env = roomId
  | _ => False
  end.

(** The registry after a run of the event loop from the initial state. *)
Fixpoint run (trace : list (Env * Event)) (rm : RoomManager) : RoomManager :=
  match trace with
  | [] => rm
  | (env, ev) :: rest => run rest (step env rm ev).1
  end.

Inductive reachable : RoomManager -> Prop :=
| reachable_init : reachable Rooms.init
| reachable_step env rm ev : reachable rm -> reachable (step env rm ev).1.

End Relay.

(** The players of a room that carry the host flag. *)
Definition hosts (room : Room) : list Player :=
  List.filter isHost (JsMap.values (players room)).

(** What every reachable registry satisfies: room ids are unique keys, every
    room is stored under its own id, holds at most two players and at most one
    host, and is [waiting] or [full]. *)
Definition room_ok (entry : string * Room) : Prop :=
  r_id entry.2 = entry.1 /\
  JsMap.size (players entry.2) <= 2 /\
  length (hosts entry.2) <= 1 /\
  (status entry.2 = waiting \/ status entry.2 = full).

Definition registry_ok (rm : RoomManager) : Prop :=
  NoDup (JsMap.keys (rooms rm)) /\ Forall room_ok (rooms rm).

(** ** A state-and-trace monad for the methods of the client classes

    A method reads and updates the fields of its object and performs calls on
    the runtime, which are recorded in order. *)
Module Trace.
Section Trace.
Context {St Eff : Type}.

Definition M (A : Type) : Type := St -> A * St * list Eff.

Definition ret {A} (a : A) : M A := fun s => (a, s, []).

Definition bind {A B} (m : M A) (k : A -> M B) : M B :=
  fun s =>
    let '(a, s1, t1) := m s in
    let '(b, s2, t2) := k a s1 in
    (b, s2, t1 ++ t2).

Definition get : M St := fun s => (s, s, []).
Definition modify (f : St -> St) : M unit := fun s => (tt, f s, []).
Definition tell (t : list Eff) : M unit := fun s => (tt, s, t).
Definition when (b : bool) (m : M unit) : M unit := if b then m else ret tt.

(** The state and the trace of a computation. *)
Definition exec {A} (m : M A) (s : St) : St * list Eff :=
  let '(_, s', t) := m s in (s', t).

End Trace.
End Trace.

Notation "x <- m ;; k" := (Trace.bind m (fun x => k))
  (at level 100, m at next level, k at level 200, right associativity).
Notation "m ;;; k" := (Trace.bind m (fun _ => k))
  (at level 100, k at level 200, right associativity).

(** ** The control-plane client ([SignalingClient]) *)
Module Client.

(** A listener registered with [on]: a function object, by identity. *)
Definition Callback := nat.

(** Who waits for the promise returned by [connect]: an outside caller, or the
    [.then(...).catch(...)] of the reconnect timer in [attemptReconnect]. *)
Inductive Continuation := Caller | Reconnected.

Inductive Error :=
| ConnectionTimeout
| ConnectionClosed (reason : string) (code : Z)
| ConstructorFailed.

Inductive PromiseState := Pending | Fulfilled | Rejected (error : Error).

Record Promise := mkPromise { p_state : PromiseState; p_then : Continuation }.

(** What a pending [setTimeout] will run: the connection timeout of one
    [connect] call, or the retry of [attemptReconnect]. *)
Inductive Timer :=
| ConnectionTimer (promise : nat)
| ReconnectTimer (serverUrl : string).

(** A [WebSocket] object created by [connect], with what its handlers close
    over: the promise and the connection timeout of that call, and its url. *)
Record Socket := mkSocket {
  ws_readyState : ReadyState;
  ws_url : string;
  ws_promise : nat;
  ws_timeout : nat
}.

Inductive Effect :=
| Emitted (event : string) (message : SignalingMessage)
| Invoked (event : string) (callback : Callback) (message : SignalingMessage)
| NewWebSocket (socket : nat) (serverUrl : string)
| WsClose (socket : nat)
| WsSend (socket : nat) (message : SignalingMessage)
| SetTimeout (timer : nat) (delay : Z)
| ClearTimeout (timer : nat)
| Resolve (promise : nat)
| Reject (promise : nat) (error : Error)
| Thrown (error : string).

(** The fields of the client, followed by the objects of the runtime that its
    closures refer to. *)
Record State := mkState {
  socket : option nat;
  eventListeners : gmap string (list Callback);
  playerId : option string;
  roomId : option string;
  roomCode : option string;
  reconnectAttempts : Z;
  reconnectTimeout : option nat;
  sockets : gmap nat Socket;
  timers : gmap nat Timer;
  promises : gmap nat Promise;
  fresh : nat
}.

(** [private maxReconnectAttempts = 5], never assigned. *)
Definition maxReconnectAttempts : Z := 5.

Definition init : State :=
  mkState None ∅ None None None 0 None ∅ ∅ ∅ 1.

Definition set_socket (v : option nat) (s : State) : State :=
  mkState v (eventListeners s) (playerId s) (roomId s) (roomCode s)
    (reconnectAttempts s) (reconnectTimeout s) (sockets s) (timers s)
    (promises s) (fresh s).
Definition set_eventListeners (v : gmap string (list Callback)) (s : State) : State :=
  mkState (socket s) v (playerId s) (roomId s) (roomCode s)
    (reconnectAttempts s) (reconnectTimeout s) (sockets s) (timers s)
    (promises s) (fresh s).
Definition set_playerId (v : option string) (s : State) : State :=
  mkState (socket s) (eventListeners s) v (roomId s) (roomCode s)
    (reconnectAttempts s) (reconnectTimeout s) (sockets s) (timers s)
    (promises s) (fresh s).
Definition set_roomId (v : option string) (s : State) : State :=
  mkState (socket s) (eventListeners s) (playerId s) v (roomCode s)
    (reconnectAttempts s) (reconnectTimeout s) (sockets s) (timers s)
    (promises s) (fresh s).
Definition set_roomCode (v : option string) (s : State) : State :=
  mkState (socket s) (eventListeners s) (playerId s) (roomId s) v
    (reconnectAttempts s) (reconnectTimeout s) (sockets s) (timers s)
    (promises s) (fresh s).
Definition set_reconnectAttempts (v : Z) (s : State) : State :=
  mkState (socket s) (eventListeners s) (playerId s) (roomId s) (roomCode s)
    v (reconnectTimeout s) (sockets s) (timers s) (promises s) (fresh s).
Definition set_reconnectTimeout (v : option nat) (s : State) : State :=
  mkState (socket s) (eventListeners s) (playerId s) (roomId s) (roomCode s)
    (reconnectAttempts s) v (sockets s) (timers s) (promises s) (fresh s).
Definition set_sockets (v : gmap nat Socket) (s : State) : State :=
  mkState (socket s) (eventListeners s) (playerId s) (roomId s) (roomCode s)
    (reconnectAttempts s) (reconnectTimeout s) v (timers s) (promises s)
    (fresh s).
Definition set_timers (v : gmap nat Timer) (s : State) : State :=
  mkState (socket s) (eventListeners s) (playerId s) (roomId s) (roomCode s)
    (reconnectAttempts s) (reconnectTimeout s) (sockets s) v (promises s)
    (fresh s).
Definition set_promises (v : gmap nat Promise) (s : State) : State :=
  mkState (socket s) (eventListeners s) (playerId s) (roomId s) (roomCode s)
    (reconnectAttempts s) (reconnectTimeout s) (sockets s) (timers s) v
    (fresh s).
Definition set_fresh (v : nat) (s : State) : State :=
  mkState (socket s) (eventListeners s) (playerId s) (roomId s) (roomCode s)
    (reconnectAttempts s) (reconnectTimeout s) (sockets s) (timers s)
    (promises s) v.

Abbreviation M := (@Trace.M State Effect).
Abbreviation ret := (@Trace.ret State Effect _).
Abbreviation get := (@Trace.get State Effect).
Abbreviation modify := (@Trace.modify State Effect).
Abbreviation tell := (@Trace.tell State Effect).
Abbreviation when := (@Trace.when State Effect).
Abbreviation exec := (@Trace.exec State Effect _).

(** A new object identity. *)
Definition new_id : M nat :=
  s <- get ;; modify (set_fresh (S (fresh s))) ;;; ret (fresh s).

(** *** Listeners *)

(** [emit(event, message)] *)
Definition emit (event : string) (message : SignalingMessage) : M unit :=
  s <- get ;;
  tell [Emitted event message] ;;;
  match eventListeners s !! event with
  | Some callbacks => tell (map (fun cb => Invoked event cb message) callbacks)
  | None => ret tt
  end.

(** [on(event, callback)] *)
Definition on (event : string) (callback : Callback) : M unit :=
  s <- get ;;
  let listeners := default [] (eventListeners s !! event) in
  modify (set_eventListeners (<[event := listeners ++ [callback]]> (eventListeners s))).

(** [listeners.splice(listeners.indexOf(callback), 1)] when the index is not -1 *)
Fixpoint remove_first (callback : Callback) (listeners : list Callback)
    : list Callback :=
  match listeners with
  | [] => []
  | cb :: rest =>
      if decide (cb = callback) then rest else cb :: remove_first callback rest
  end.

(** [off(event, callback)] *)
Definition off (event : string) (callback : Callback) : M unit :=
  s <- get ;;
  match eventListeners s !! event with
  | None => ret tt
  | Some listeners =>
      modify (set_eventListeners
                (<[event := remove_first callback listeners]> (eventListeners s)))
  end.

(** *** Sending *)

Definition socket_state (s : State) (ws : nat) : option ReadyState :=
  ws_readyState <$> sockets s !! ws.

(** [send(message)] *)
Definition send (message : SignalingMessage) : M unit :=
  s <- get ;;
  match socket s with
  | None => ret tt
  | Some ws =>
      if decide (socket_state s ws = Some OPEN) then tell [WsSend ws message]
      else ret tt
  end.

Definition createRoom : M unit := send (msg0 "create-room").

Definition joinRoom (code : string) : M unit :=
  send (mkMsg "join-room" (Some code) None None None None None None None None None).

Definition sendOffer (offer : Json) : M unit :=
  s <- get ;;
  if negb (field_truthy (roomId s)) then ret tt
  else send (mkMsg "offer" None (roomId s) None (Some offer) None None None
                   None None None).

Definition sendAnswer (answer : Json) : M unit :=
  s <- get ;;
  if negb (field_truthy (roomId s)) then ret tt
  else send (mkMsg "answer" None (roomId s) None None (Some answer) None None
                   None None None).

Definition sendIceCandidate (candidate : Json) : M unit :=
  s <- get ;;
  if negb (field_truthy (roomId s)) then ret tt
  else send (mkMsg "ice-candidate" None (roomId s) None None None (Some candidate)
                   None None None None).

(** *** Promises, timers and sockets of the runtime *)

(** [socket.close()]: a socket that is connecting or open starts closing. *)
Definition ws_close (ws : nat) : M unit :=
  s <- get ;;
  tell [WsClose ws] ;;;
  match sockets s !! ws with
  | Some so =>
      match ws_readyState so with
      | CONNECTING | OPEN =>
          modify (set_sockets
            (<[ws := mkSocket CLOSING (ws_url so) (ws_promise so) (ws_timeout so)]>
               (sockets s)))
      | _ => ret tt
      end
  | None => ret tt
  end.

Definition setTimeout (callback : Timer) (delay : Z) : M nat :=
  t <- new_id ;;
  s <- get ;;
  modify (set_timers (<[t := callback]> (timers s))) ;;;
  tell [SetTimeout t delay] ;;;
  ret t.

Definition clearTimeout (t : nat) : M unit :=
  s <- get ;;
  modify (set_timers (delete t (timers s))) ;;;
  tell [ClearTimeout t].

(** The [.then] callback of the reconnect timer. *)
Definition onReconnected : M unit :=
  emit "reconnected" (msg0 "reconnected") ;;;
  s <- get ;;
  match roomCode s with
  | Some code => if truthy code then joinRoom code else ret tt
  | None => ret tt
  end.

(** [resolve()] of the promise [p]; a settled promise stays as it is. *)
Definition resolve (p : nat) : M unit :=
  s <- get ;;
  match promises s !! p with
  | Some (mkPromise Pending k) =>
      modify (set_promises (<[p := mkPromise Fulfilled k]> (promises s))) ;;;
      tell [Resolve p] ;;;
      match k with
      | Caller => ret tt
      | Reconnected => onReconnected
      end
  | _ => ret tt
  end.

(** [reject(error)] of the promise [p]; the [.catch] of the reconnect timer
    only logs. *)
Definition reject (p : nat) (error : Error) : M unit :=
  s <- get ;;
  match promises s !! p with
  | Some (mkPromise Pending k) =>
      modify (set_promises (<[p := mkPromise (Rejected error) k]> (promises s))) ;;;
      tell [Reject p error]
  | _ => ret tt
  end.

(** *** Connecting and reconnecting *)

Section Connect.

(** Whether [new WebSocket(url)] accepts the url; it throws otherwise. *)
Variable valid_url : string -> bool.

(** [connect(serverUrl)], up to the return of the promise. *)
Definition connect (k : Continuation) (serverUrl : string) : M nat :=
  p <- new_id ;;
  s <- get ;;
  modify (set_promises (<[p := mkPromise Pending k]> (promises s))) ;;;
  match socket s with
  | Some old => ws_close old ;;; modify (set_socket None)
  | None => ret tt
  end ;;;
  if valid_url serverUrl then
    ws <- new_id ;;
    tell [NewWebSocket ws serverUrl] ;;;
    modify (set_socket (Some ws)) ;;;
    t <- setTimeout (ConnectionTimer p) 10000 ;;
    s <- get ;;
    modify (set_sockets (<[ws := mkSocket CONNECTING serverUrl p t]> (sockets s))) ;;;
    ret p
  else
    reject p ConstructorFailed ;;; ret p.

(** [attemptReconnect(serverUrl)] *)
Definition attemptReconnect (serverUrl : string) : M unit :=
  s <- get ;;
  if (maxReconnectAttempts <=? reconnectAttempts s)%Z then
    emit "max-reconnect-attempts" (msg0 "max-reconnect-attempts")
  else
    let delay := (2 ^ reconnectAttempts s * 1000)%Z in
    emit "reconnecting"
      (mkMsg "reconnecting" None None None None None None None
         (Some (reconnectAttempts s + 1)%Z) (Some maxReconnectAttempts) (Some delay)) ;;;
    match reconnectTimeout s with
    | Some old => when (negb (old =? 0)%nat) (clearTimeout old)
    | None => ret tt
    end ;;;
    t <- setTimeout (ReconnectTimer serverUrl) delay ;;
    modify (set_reconnectTimeout (Some t)).

(** The callback of the timer set by [attemptReconnect]. *)
Definition reconnectTimer (serverUrl : string) : M unit :=
  s <- get ;;
  modify (set_reconnectAttempts (reconnectAttempts s + 1)%Z) ;;;
  connect Reconnected serverUrl ;;; ret tt.

(** The callback of the connection timeout set by [connect] for promise [p]. *)
Definition connectionTimer (p : nat) : M unit :=
  s <- get ;;
  match socket s with
  | Some ws =>
      if decide (socket_state s ws = Some OPEN) then ret tt
      else ws_close ws ;;; reject p ConnectionTimeout
  | None => ret tt
  end.

(** [handleMessage(message)] *)
Definition handleMessage (message : SignalingMessage) : M unit :=
  when (field_truthy (m_playerId message))
    (modify (set_playerId (m_playerId message))) ;;;
  when (field_truthy (m_roomId message))
    (modify (set_roomId (m_roomId message))) ;;;
  when (field_truthy (m_roomCode message))
    (modify (set_roomCode (m_roomCode message))) ;;;
  when (bool_decide (m_type message = "connection-established"))
    (emit "connected" message) ;;;
  when (bool_decide (m_type message = "room-created"))
    (emit "room-created" message) ;;;
  when (bool_decide (m_type message = "room-joined"))
    (emit "room-joined" message) ;;;
  when (bool_decide (m_type message = "player-joined"))
    (emit "player-joined" message) ;;;
  when (bool_decide (m_type message = "player-disconnected"))
    (emit "player-disconnected" message) ;;;
  when (bool_decide (m_type message = "error"))
    (emit "error" message) ;;;
  emit (m_type message) message.

(** The handlers that [connect] installs on the socket it creates.  Each of
    [onopen], [onclose] and [onerror] logs [this.socket!.readyState] first,
    which throws when [this.socket] is null. *)
Definition onopen (so : Socket) : M unit :=
  s <- get ;;
  match socket s with
  | None => tell [Thrown "TypeError"]
  | Some _ =>
      clearTimeout (ws_timeout so) ;;;
      modify (set_reconnectAttempts 0) ;;;
      resolve (ws_promise so)
  end.

Definition onmessage (data : option SignalingMessage) : M unit :=
  match data with
  | Some message => handleMessage message
  | None => ret tt
  end.

Definition onclose (so : Socket) (wasClean : bool) (reason : string) (code : Z)
    : M unit :=
  s <- get ;;
  match socket s with
  | None => tell [Thrown "TypeError"]
  | Some _ =>
      clearTimeout (ws_timeout so) ;;;
      if field_truthy (playerId s) then attemptReconnect (ws_url so)
      else if negb wasClean then
        reject (ws_promise so)
          (ConnectionClosed (if truthy reason then reason else "Unknown reason") code)
      else ret tt
  end.

Definition onerror : M unit :=
  s <- get ;;
  match socket s with
  | None => tell [Thrown "TypeError"]
  | Some _ => ret tt
  end.

(** [disconnect()] *)
Definition disconnect : M unit :=
  s <- get ;;
  match socket s with
  | Some ws => ws_close ws ;;; modify (set_socket None)
  | None => ret tt
  end ;;;
  match reconnectTimeout s with
  | Some t =>
      when (negb (t =? 0)%nat) (clearTimeout t ;;; modify (set_reconnectTimeout None))
  | None => ret tt
  end.

(** *** The event loop of the client

    Calls of the public methods, and the events that the runtime delivers: a
    socket opens, receives a frame ([None] when [JSON.parse] rejects it),
    closes or errs, and a timer expires. *)
Inductive Event :=
| CallConnect (serverUrl : string)
| CallDisconnect
| CallCreateRoom
| CallJoinRoom (code : string)
| CallSendOffer (offer : Json)
| CallSendAnswer (answer : Json)
| CallSendIceCandidate (candidate : Json)
| CallOn (event : string) (callback : Callback)
| CallOff (event : string) (callback : Callback)
| WsOpened (ws : nat)
| WsMessage (ws : nat) (data : option SignalingMessage)
| WsClosed (ws : nat) (wasClean : bool) (reason : string) (code : Z)
| WsError (ws : nat)
| TimerFired (t : nat).

Definition set_readyState (ws : nat) (so : Socket) (st : ReadyState) : M unit :=
  s <- get ;;
  modify (set_sockets
    (<[ws := mkSocket st (ws_url so) (ws_promise so) (ws_timeout so)]> (sockets s))).

Definition handle (ev : Event) : M unit :=
  s <- get ;;
  match ev with
  | CallConnect serverUrl => connect Caller serverUrl ;;; ret tt
  | CallDisconnect => disconnect
  | CallCreateRoom => createRoom
  | CallJoinRoom code => joinRoom code
  | CallSendOffer offer => sendOffer offer
  | CallSendAnswer answer => sendAnswer answer
  | CallSendIceCandidate candidate => sendIceCandidate candidate
  | CallOn event callback => on event callback
  | CallOff event callback => off event callback
  | WsOpened ws =>
      match sockets s !! ws with
      | Some so =>
          if decide (ws_readyState so = CONNECTING)
          then set_readyState ws so OPEN ;;; onopen so
          else ret tt
      | None => ret tt
      end
  | WsMessage ws data =>
      match sockets s !! ws with
      | Some so =>
          if decide (ws_readyState so = OPEN) then onmessage data else ret tt
      | None => ret tt
      end
  | WsClosed ws wasClean reason code =>
      match sockets s !! ws with
      | Some so =>
          if decide (ws_readyState so = CLOSED) then ret tt
          else set_readyState ws so CLOSED ;;; onclose so wasClean reason code
      | None => ret tt
      end
  | WsError ws =>
      match sockets s !! ws with
      | Some so => onerror
      | None => ret tt
      end
  | TimerFired t =>
      match timers s !! t with
      | Some callback =>
          modify (set_timers (delete t (timers s))) ;;;
          match callback with
          | ConnectionTimer p => connectionTimer p
          | ReconnectTimer serverUrl => reconnectTimer serverUrl
          end
      | None => ret tt
      end
  end.

Definition step (s : State) (ev : Event) : State * list Effect :=
  exec (handle ev) s.

(** A run of the event loop, with the trace of everything it did. *)
Fixpoint run (evs : list Event) (s : State) : State * list Effect :=
  match evs with
  | [] => (s, [])
  | ev :: rest =>
      let '(s1, t1) := step s ev in
      let '(s2, t2) := run rest s1 in
      (s2, t1 ++ t2)
  end.

End Connect.

(** *** Observations on a trace *)

(** How often the listener [callback] registered for [event] was called. *)
Definition invocations (event : string) (callback : Callback) (t : list Effect)
    : nat :=
  length (List.filter
    (fun e => match e with
              | Invoked ev cb _ =>
                  bool_decide (ev = event) && bool_decide (cb = callback)
              | _ => false
              end) t).

(** How often [callback] is registered for [event]. *)
Definition registrations (event : string) (callback : Callback) (s : State) : nat :=
  length (List.filter (fun cb => bool_decide (cb = callback))
            (default [] (eventListeners s !! event))).

(** The events emitted, in order. *)
Definition emitted (t : list Effect) : list (string * SignalingMessage) :=
  omap (fun e => match e with Emitted ev m => Some (ev, m) | _ => None end) t.

(** The timers set, in order, with their delays. *)
Definition scheduled (t : list Effect) : list (nat * Z) :=
  omap (fun e => match e with SetTimeout id d => Some (id, d) | _ => None end) t.

(** The sockets created, in order. *)
Definition opened (t : list Effect) : list nat :=
  omap (fun e => match e with NewWebSocket ws _ => Some ws | _ => None end) t.

(** The promises resolved, in order. *)
Definition resolved (t : list Effect) : list nat :=
  omap (fun e => match e with Resolve p => Some p | _ => None end) t.

(** The steps of a reconnection that matter to its schedule: the events
    emitted, the timers set and the sockets created. *)
Definition milestone (e : Effect) : bool :=
  match e with
  | Emitted _ _ | SetTimeout _ _ | NewWebSocket _ _ => true
  | _ => false
  end.

Definition milestones (t : list Effect) : list Effect := List.filter milestone t.

(** The message of the [k]-th ['reconnecting'] event. *)
Definition reconnecting_message (k : Z) : SignalingMessage :=
  mkMsg "reconnecting" None None None None None None None
    (Some k) (Some 5%Z) (Some (2 ^ (k - 1) * 1000)%Z).

(** The client has a player id, [this.socket] is the socket [ws] for
    [serverUrl], which has not closed yet, and [k] retries have been made
    since the last successful connection. *)
Definition retrying (serverUrl : string) (k : Z) (ws : nat) (s : State) : Prop :=
  socket s = Some ws /\
  (exists so, sockets s !! ws = Some so /\ ws_readyState so <> CLOSED /\
              ws_url so = serverUrl) /\
  field_truthy (playerId s) = true /\
  reconnectAttempts s = k.

(** [n] retries that all fail: the reconnect timer expires and the socket it
    creates closes without having opened.  The identities of the timer and of
    the socket follow from the counter [f] of the runtime. *)
Fixpoint failed_retries (n f : nat) : list Event :=
  match n with
  | O => []
  | S n' =>
      TimerFired f :: WsClosed (f + 2) false "" 1006 :: failed_retries n' (f + 4)
  end.

(** What the client does over the retries [k+1], ..., [k+n] and the close
    that follows the last of them: before each retry it emits ['reconnecting']
    and sets the backoff timer, the retry creates a socket and its connection
    timeout; at the end it emits ['max-reconnect-attempts']. *)
Fixpoint retry_schedule (serverUrl : string) (n : nat) (k : Z) (f : nat)
    : list Effect :=
  match n with
  | O => [Emitted "max-reconnect-attempts" (msg0 "max-reconnect-attempts")]
  | S n' =>
      Emitted "reconnecting" (reconnecting_message (k + 1)) ::
      SetTimeout f (2 ^ k * 1000) ::
      NewWebSocket (f + 2) serverUrl ::
      SetTimeout (f + 3) 10000 ::
      retry_schedule serverUrl n' (k + 1) (f + 4)
  end.

(** The message types the relay sends for which [handleMessage] has a branch
    of its own that emits under the same name. *)
Definition twice_emitted : list string :=
  ["room-created"; "room-joined"; "player-joined"; "player-disconnected"; "error"].

End Client.

(** ** The peer session ([WebRTCConnection]) *)
Module Peer.

Inductive MessageType :=
| POSITION_UPDATE | GAME_STATE | PLAYER_ACTION | HEARTBEAT | HEARTBEAT_ACK.

#[export] Instance MessageType_eq_dec : EqDecision MessageType.
Proof. solve_decision. Defined.

Record GameMessage := mkGameMessage {
  g_type : MessageType;
  g_playerId : string;
  g_timestamp : Z;
  g_sequence : Z;
  g_position : option (Z * Z);
  g_action : option string;
  g_data : option Json
}.

(** [readyState] of an [RTCDataChannel]. *)
Inductive ChannelState := ch_connecting | ch_open | ch_closing | ch_closed.

#[export] Instance ChannelState_eq_dec : EqDecision ChannelState.
Proof. solve_decision. Defined.

(** [iceConnectionState] of an [RTCPeerConnection]. *)
Inductive IceState :=
| ice_new | ice_checking | ice_connected | ice_completed
| ice_failed | ice_disconnected | ice_closed.

#[export] Instance IceState_eq_dec : EqDecision IceState.
Proof. solve_decision. Defined.

Inductive Effect :=
| NewRTCPeerConnection (pc : nat)
| PcClose (pc : nat)
| CreateDataChannel (pc channel : nat)
| ChannelClose (channel : nat)
| ChannelSend (channel : nat) (message : GameMessage)
| PcCreateOffer (pc : nat)
| PcCreateAnswer (pc : nat)
| PcSetLocalDescription (pc : nat) (description : Json)
| PcSetRemoteDescription (pc : nat) (description : Json)
| PcAddIceCandidate (pc : nat) (candidate : Json)
| SignalingSendOffer (offer : Json)
| SignalingSendAnswer (answer : Json)
| SignalingSendIceCandidate (candidate : Json)
| Notify (listener : nat) (message : GameMessage)
| SetInterval (id : nat) (period : Z)
| ClearInterval (id : nat)
| ClearTimeout (id : nat)
| DispatchEvent (name : string).

(** The fields of the session, followed by the state of the channels and peer
    connections of the runtime. *)
Record State := mkState {
  peerConnection : option nat;
  dataChannel : option nat;
  remoteDataChannel : option nat;
  isHost : bool;
  isConnected : bool;
  messageListeners : list nat;
  sequence : Z;
  heartbeatInterval : option nat;
  heartbeatTimeout : option nat;
  lastHeartbeatAck : Z;
  reconnecting : bool;
  channels : gmap nat ChannelState;
  iceConnectionState : gmap nat IceState;
  fresh : nat
}.

Definition init : State :=
  mkState None None None false false [] 0 None None 0 false ∅ ∅ 1.

Definition set_peerConnection (v : option nat) (s : State) : State :=
  mkState v (dataChannel s) (remoteDataChannel s) (isHost s) (isConnected s)
    (messageListeners s) (sequence s) (heartbeatInterval s) (heartbeatTimeout s)
    (lastHeartbeatAck s) (reconnecting s) (channels s) (iceConnectionState s)
    (fresh s).
Definition set_dataChannel (v : option nat) (s : State) : State :=
  mkState (peerConnection s) v (remoteDataChannel s) (isHost s) (isConnected s)
    (messageListeners s) (sequence s) (heartbeatInterval s) (heartbeatTimeout s)
    (lastHeartbeatAck s) (reconnecting s) (channels s) (iceConnectionState s)
    (fresh s).
Definition set_remoteDataChannel (v : option nat) (s : State) : State :=
  mkState (peerConnection s) (dataChannel s) v (isHost s) (isConnected s)
    (messageListeners s) (sequence s) (heartbeatInterval s) (heartbeatTimeout s)
    (lastHeartbeatAck s) (reconnecting s) (channels s) (iceConnectionState s)
    (fresh s).
Definition set_isHost (v : bool) (s : State) : State :=
  mkState (peerConnection s) (dataChannel s) (remoteDataChannel s) v
    (isConnected s) (messageListeners s) (sequence s) (heartbeatInterval s)
    (heartbeatTimeout s) (lastHeartbeatAck s) (reconnecting s) (channels s)
    (iceConnectionState s) (fresh s).
Definition set_isConnected (v : bool) (s : State) : State :=
  mkState (peerConnection s) (dataChannel s) (remoteDataChannel s) (isHost s)
    v (messageListeners s) (sequence s) (heartbeatInterval s)
    (heartbeatTimeout s) (lastHeartbeatAck s) (reconnecting s) (channels s)
    (iceConnectionState s) (fresh s).
Definition set_messageListeners (v : list nat) (s : State) : State :=
  mkState (peerConnection s) (dataChannel s) (remoteDataChannel s) (isHost s)
    (isConnected s) v (sequence s) (heartbeatInterval s)
    (heartbeatTimeout s) (lastHeartbeatAck s) (reconnecting s) (channels s)
    (iceConnectionState s) (fresh s).
Definition set_sequence (v : Z) (s : State) : State :=
  mkState (peerConnection s) (dataChannel s) (remoteDataChannel s) (isHost s)
    (isConnected s) (messageListeners s) v (heartbeatInterval s)
    (heartbeatTimeout s) (lastHeartbeatAck s) (reconnecting s) (channels s)
    (iceConnectionState s) (fresh s).
Definition set_heartbeatInterval (v : option nat) (s : State) : State :=
  mkState (peerConnection s) (dataChannel s) (remoteDataChannel s) (isHost s)
    (isConnected s) (messageListeners s) (sequence s) v
    (heartbeatTimeout s) (lastHeartbeatAck s) (reconnecting s) (channels s)
    (iceConnectionState s) (fresh s).
Definition set_heartbeatTimeout (v : option nat) (s : State) : State :=
  mkState (peerConnection s) (dataChannel s) (remoteDataChannel s) (isHost s)
    (isConnected s) (messageListeners s) (sequence s) (heartbeatInterval s)
    v (lastHeartbeatAck s) (reconnecting s) (channels s)
    (iceConnectionState s) (fresh s).
Definition set_lastHeartbeatAck (v : Z) (s : State) : State :=
  mkState (peerConnection s) (dataChannel s) (remoteDataChannel s) (isHost s)
    (isConnected s) (messageListeners s) (sequence s) (heartbeatInterval s)
    (heartbeatTimeout s) v (reconnecting s) (channels s)
    (iceConnectionState s) (fresh s).
Definition set_reconnecting (v : bool) (s : State) : State :=
  mkState (peerConnection s) (dataChannel s) (remoteDataChannel s) (isHost s)
    (isConnected s) (messageListeners s) (sequence s) (heartbeatInterval s)
    (heartbeatTimeout s) (lastHeartbeatAck s) v (channels s)
    (iceConnectionState s) (fresh s).
Definition set_channels (v : gmap nat ChannelState) (s : State) : State :=
  mkState (peerConnection s) (dataChannel s) (remoteDataChannel s) (isHost s)
    (isConnected s) (messageListeners s) (sequence s) (heartbeatInterval s)
    (heartbeatTimeout s) (lastHeartbeatAck s) (reconnecting s) v
    (iceConnectionState s) (fresh s).
Definition set_iceConnectionState (v : gmap nat IceState) (s : State) : State :=
  mkState (peerConnection s) (dataChannel s) (remoteDataChannel s) (isHost s)
    (isConnected s) (messageListeners s) (sequence s) (heartbeatInterval s)
    (heartbeatTimeout s) (lastHeartbeatAck s) (reconnecting s) (channels s)
    v (fresh s).
Definition set_fresh (v : nat) (s : State) : State :=
  mkState (peerConnection s) (dataChannel s) (remoteDataChannel s) (isHost s)
    (isConnected s) (messageListeners s) (sequence s) (heartbeatInterval s)
    (heartbeatTimeout s) (lastHeartbeatAck s) (reconnecting s) (channels s)
    (iceConnectionState s) v.

Abbreviation M := (@Trace.M State Effect).
Abbreviation ret := (@Trace.ret State Effect _).
Abbreviation get := (@Trace.get State Effect).
Abbreviation modify := (@Trace.modify State Effect).
Abbreviation tell := (@Trace.tell State Effect).
Abbreviation when := (@Trace.when State Effect).
Abbreviation exec := (@Trace.exec State Effect _).

Definition new_id : M nat :=
  s <- get ;; modify (set_fresh (S (fresh s))) ;;; ret (fresh s).

(** [this.sequence++] on a JavaScript number: integers are exact up to 2^53,
    where adding one no longer changes the value.  The result is the value
    before the increment. *)
Definition js_incr (n : Z) : Z := if (n <? 2 ^ 53)%Z then (n + 1)%Z else n.

Definition next_sequence : M Z :=
  s <- get ;; modify (set_sequence (js_incr (sequence s))) ;;; ret (sequence s).

(** What the surroundings provide while one event is handled: [Date.now()],
    [signalingClient.getPlayerId()], and whether [channel.send] throws. *)
Record Env := mkEnv {
  Date_now : Z;
  getPlayerId : option string;
  send_throws : bool
}.

Section Session.
Variable env : Env.

(** [this.signalingClient.getPlayerId() || 'unknown'] *)
Definition playerId_or_unknown : string :=
  match getPlayerId env with
  | Some id => if truthy id then id else "unknown"
  | None => "unknown"
  end.

Definition channel_state (s : State) (ch : nat) : option ChannelState :=
  channels s !! ch.

(** [notifyMessageListeners(message)] *)
Definition notifyMessageListeners (message : GameMessage) : M unit :=
  s <- get ;;
  tell (map (fun listener => Notify listener message) (messageListeners s)).

(** [stopHeartbeat()] *)
Definition stopHeartbeat : M unit :=
  s <- get ;;
  match heartbeatInterval s with
  | Some id =>
      when (negb (id =? 0)%nat)
        (tell [ClearInterval id] ;;; modify (set_heartbeatInterval None))
  | None => ret tt
  end ;;;
  match heartbeatTimeout s with
  | Some id =>
      when (negb (id =? 0)%nat)
        (tell [ClearTimeout id] ;;; modify (set_heartbeatTimeout None))
  | None => ret tt
  end.

(** [sendMessage(message)] *)
Definition sendMessage (message : GameMessage) : M bool :=
  s <- get ;;
  if negb (isConnected s) then ret false
  else
    match (if isHost s then dataChannel s else remoteDataChannel s) with
    | None => ret false
    | Some channel =>
        if decide (channel_state s channel = Some ch_open) then
          if send_throws env then ret false
          else tell [ChannelSend channel message] ;;; ret true
        else ret false
    end.

(** [startHeartbeat()] *)
Definition startHeartbeat : M unit :=
  stopHeartbeat ;;;
  modify (set_lastHeartbeatAck (Date_now env)) ;;;
  id <- new_id ;;
  tell [SetInterval id 2000] ;;;
  modify (set_heartbeatInterval (Some id)).

(** [closePeerConnection()] *)
Definition closePeerConnection : M unit :=
  stopHeartbeat ;;;
  s <- get ;;
  match dataChannel s with
  | Some channel =>
      tell [ChannelClose channel] ;;;
      match channels s !! channel with
      | Some ch_connecting | Some ch_open =>
          modify (set_channels (<[channel := ch_closing]> (channels s)))
      | _ => ret tt
      end ;;;
      modify (set_dataChannel None)
  | None => ret tt
  end ;;;
  modify (set_remoteDataChannel None) ;;;
  match peerConnection s with
  | Some pc =>
      tell [PcClose pc] ;;;
      s1 <- get ;;
      modify (set_iceConnectionState (<[pc := ice_closed]> (iceConnectionState s1))) ;;;
      modify (set_peerConnection None)
  | None => ret tt
  end ;;;
  modify (set_isConnected false).

(** [createPeerConnection()]; [setupDataChannel] installs handlers that refer
    to the session only, so the channel is recorded as one of the session. *)
Definition createPeerConnection : M unit :=
  closePeerConnection ;;;
  pc <- new_id ;;
  tell [NewRTCPeerConnection pc] ;;;
  s <- get ;;
  modify (set_iceConnectionState (<[pc := ice_new]> (iceConnectionState s))) ;;;
  modify (set_peerConnection (Some pc)) ;;;
  if isHost s then
    channel <- new_id ;;
    tell [CreateDataChannel pc channel] ;;;
    s1 <- get ;;
    modify (set_channels (<[channel := ch_connecting]> (channels s1))) ;;;
    modify (set_dataChannel (Some channel))
  else ret tt.

(** [createOffer()], up to its first [await]. *)
Definition createOffer : M unit :=
  s <- get ;;
  match peerConnection s with
  | None => ret tt
  | Some pc => tell [PcCreateOffer pc]
  end.

(** [createOffer()] after [await createOffer()]: the call of
    [this.peerConnection.setLocalDescription(offer)] throws into the [catch]
    when there is no peer connection any more. *)
Definition createOffer_1 (offer : Json) : M unit :=
  s <- get ;;
  match peerConnection s with
  | None => ret tt
  | Some pc => tell [PcSetLocalDescription pc offer]
  end.

(** [createOffer()] after [await setLocalDescription(offer)]. *)
Definition createOffer_2 (offer : Json) : M unit :=
  tell [SignalingSendOffer offer].

(** [handleOffer(offer)], up to its first [await], and its three resumptions. *)
Definition handleOffer (offer : Json) : M unit :=
  s <- get ;;
  match peerConnection s with
  | None => ret tt
  | Some pc => tell [PcSetRemoteDescription pc offer]
  end.

Definition handleOffer_1 : M unit :=
  s <- get ;;
  match peerConnection s with
  | None => ret tt
  | Some pc => tell [PcCreateAnswer pc]
  end.

Definition handleOffer_2 (answer : Json) : M unit :=
  s <- get ;;
  match peerConnection s with
  | None => ret tt
  | Some pc => tell [PcSetLocalDescription pc answer]
  end.

Definition handleOffer_3 (answer : Json) : M unit :=
  tell [SignalingSendAnswer answer].

(** [handleAnswer(answer)] *)
Definition handleAnswer (answer : Json) : M unit :=
  s <- get ;;
  match peerConnection s with
  | None => ret tt
  | Some pc => tell [PcSetRemoteDescription pc answer]
  end.

(** [handleIceCandidate(candidate)] *)
Definition handleIceCandidate (candidate : Json) : M unit :=
  s <- get ;;
  match peerConnection s with
  | None => ret tt
  | Some pc => tell [PcAddIceCandidate pc candidate]
  end.

(** [restartConnection()] *)
Definition restartConnection : M unit :=
  s <- get ;;
  if isHost s then createPeerConnection ;;; createOffer else ret tt.

Definition system_message (sequence : Z) (event : string) : GameMessage :=
  mkGameMessage GAME_STATE "system" (Date_now env) sequence None None
    (Some (JObject ("{event:" +:+ event +:+ "}"))).

(** [handleDisconnection()] *)
Definition handleDisconnection : M unit :=
  modify (set_isConnected false) ;;;
  stopHeartbeat ;;;
  n <- next_sequence ;;
  notifyMessageListeners (system_message n "disconnected") ;;;
  s <- get ;;
  if negb (reconnecting s) then restartConnection else ret tt.

(** [handleSuccessfulReconnection()] *)
Definition handleSuccessfulReconnection : M unit :=
  n <- next_sequence ;;
  notifyMessageListeners (system_message n "reconnected") ;;;
  tell [DispatchEvent "game:reconnected"].

(** The callback of the interval set by [startHeartbeat]. *)
Definition heartbeat : M unit :=
  n <- next_sequence ;;
  sendMessage (mkGameMessage HEARTBEAT playerId_or_unknown (Date_now env) n
                 None None None) ;;;
  s <- get ;;
  if (10000 <? Date_now env - lastHeartbeatAck s)%Z then handleDisconnection
  else ret tt.

(** The handlers that [setupDataChannel] installs. *)
Definition channel_onopen : M unit :=
  modify (set_isConnected true) ;;;
  startHeartbeat ;;;
  s <- get ;;
  if reconnecting s then
    modify (set_reconnecting false) ;;; handleSuccessfulReconnection
  else ret tt.

Definition channel_onclose : M unit :=
  modify (set_isConnected false) ;;; stopHeartbeat.

Definition channel_onmessage (data : option GameMessage) : M unit :=
  match data with
  | None => ret tt
  | Some message =>
      if decide (g_type message = HEARTBEAT) then
        n <- next_sequence ;;
        sendMessage (mkGameMessage HEARTBEAT_ACK playerId_or_unknown
                       (Date_now env) n None None None) ;;;
        ret tt
      else if decide (g_type message = HEARTBEAT_ACK) then
        modify (set_lastHeartbeatAck (Date_now env))
      else notifyMessageListeners message
  end.

(** The handlers that [createPeerConnection] installs. *)
Definition onicecandidate (candidate : option Json) : M unit :=
  match candidate with
  | Some c => when (json_truthy c) (tell [SignalingSendIceCandidate c])
  | None => ret tt
  end.

Definition oniceconnectionstatechange : M unit :=
  s <- get ;;
  match peerConnection s with
  | None => ret tt
  | Some pc =>
      match iceConnectionState s !! pc with
      | Some ice_disconnected | Some ice_failed => handleDisconnection
      | Some ice_connected => modify (set_isConnected true)
      | _ => ret tt
      end
  end.

Definition ondatachannel (channel : nat) : M unit :=
  modify (set_remoteDataChannel (Some channel)).

(** The listeners that [setupSignalingListeners] registers. *)
Definition on_player_joined : M unit :=
  modify (set_isHost true) ;;; createPeerConnection ;;; createOffer.

Definition on_offer (offer : Json) : M unit :=
  modify (set_isHost false) ;;; createPeerConnection ;;; handleOffer offer.

Definition on_player_disconnected : M unit := handleDisconnection.

Definition on_reconnecting : M unit := modify (set_reconnecting true).

Definition on_reconnected : M unit :=
  modify (set_reconnecting false) ;;;
  s <- get ;;
  if isConnected s then restartConnection else ret tt.

(** [sendPositionUpdate(x, y)] and [sendPlayerAction(action, data)] *)
Definition sendPositionUpdate (x y : Z) : M bool :=
  n <- next_sequence ;;
  sendMessage (mkGameMessage POSITION_UPDATE playerId_or_unknown (Date_now env) n
                 (Some (x, y)) None None).

Definition sendPlayerAction (action : string) (data : Json) : M bool :=
  n <- next_sequence ;;
  sendMessage (mkGameMessage PLAYER_ACTION playerId_or_unknown (Date_now env) n
                 None (Some action) (Some data)).

(** [listeners.splice(listeners.indexOf(callback), 1)] when the index is not -1 *)
Fixpoint remove_first (callback : nat) (listeners : list nat) : list nat :=
  match listeners with
  | [] => []
  | cb :: rest =>
      if decide (cb = callback) then rest else cb :: remove_first callback rest
  end.

(** *** The event loop of the session

    The signaling listeners, the events of the peer connection and of the
    data channels, the heartbeat interval, the resumptions of the [async]
    methods, and the calls of the public methods.  The open event of a channel
    reaches [channel.onopen] whatever the channel was recorded as before: a
    channel that the session created is connecting until then, a channel that
    the peer announced ([DataChannel]) can be open already. *)
Inductive Event :=
| PlayerJoined
| Offer (offer : Json)
| Answer (answer : Json)
| IceCandidate (candidate : Json)
| PlayerDisconnected
| Reconnecting
| Reconnected
| IceCandidateFound (candidate : option Json)
| IceConnectionStateChange (pc : nat) (state : IceState)
| DataChannel (channel : nat) (state : ChannelState)
| ChannelOpened (channel : nat)
| ChannelClosed (channel : nat)
| ChannelError (channel : nat)
| ChannelMessage (channel : nat) (data : option GameMessage)
| HeartbeatTick (id : nat)
| OfferCreated (offer : Json)
| LocalOfferSet (offer : Json)
| RemoteOfferSet
| AnswerCreated (answer : Json)
| LocalAnswerSet (answer : Json)
| CallSendMessage (message : GameMessage)
| CallSendPositionUpdate (x y : Z)
| CallSendPlayerAction (action : string) (data : Json)
| CallOnMessage (callback : nat)
| CallOffMessage (callback : nat)
| CallDisconnect.

Definition handle (ev : Event) : M unit :=
  s <- get ;;
  match ev with
  | PlayerJoined => on_player_joined
  | Offer offer => on_offer offer
  | Answer answer => handleAnswer answer
  | IceCandidate candidate => handleIceCandidate candidate
  | PlayerDisconnected => on_player_disconnected
  | Reconnecting => on_reconnecting
  | Reconnected => on_reconnected
  | IceCandidateFound candidate => onicecandidate candidate
  | IceConnectionStateChange pc state =>
      modify (set_iceConnectionState (<[pc := state]> (iceConnectionState s))) ;;;
      oniceconnectionstatechange
  | DataChannel channel state =>
      modify (set_channels (<[channel := state]> (channels s))) ;;;
      ondatachannel channel
  | ChannelOpened channel =>
      match channels s !! channel with
      | Some ch_connecting | Some ch_open =>
          modify (set_channels (<[channel := ch_open]> (channels s))) ;;;
          channel_onopen
      | _ => ret tt
      end
  | ChannelClosed channel =>
      match channels s !! channel with
      | Some ch_closed | None => ret tt
      | Some _ =>
          modify (set_channels (<[channel := ch_closed]> (channels s))) ;;;
          channel_onclose
      end
  | ChannelError channel => ret tt
  | ChannelMessage channel data =>
      match channels s !! channel with
      | Some ch_open => channel_onmessage data
      | _ => ret tt
      end
  | HeartbeatTick id =>
      if decide (heartbeatInterval s = Some id) then heartbeat else ret tt
  | OfferCreated offer => createOffer_1 offer
  | LocalOfferSet offer => createOffer_2 offer
  | RemoteOfferSet => handleOffer_1
  | AnswerCreated answer => handleOffer_2 answer
  | LocalAnswerSet answer => handleOffer_3 answer
  | CallSendMessage message => sendMessage message ;;; ret tt
  | CallSendPositionUpdate x y => sendPositionUpdate x y ;;; ret tt
  | CallSendPlayerAction action data => sendPlayerAction action data ;;; ret tt
  | CallOnMessage callback =>
      modify (set_messageListeners (messageListeners s ++ [callback]))
  | CallOffMessage callback =>
      modify (set_messageListeners (remove_first callback (messageListeners s)))
  | CallDisconnect => closePeerConnection
  end.

Definition step (s : State) (ev : Event) : State * list Effect :=
  exec (handle ev) s.

End Session.

(** A run of the event loop; every event comes with its surroundings. *)
Fixpoint run (evs : list (Env * Event)) (s : State) : State * list Effect :=
  match evs with
  | [] => (s, [])
  | (env, ev) :: rest =>
      let '(s1, t1) := step env s ev in
      let '(s2, t2) := run rest s1 in
      (s2, t1 ++ t2)
  end.

(** *** Observations *)

(** The channel that [sendMessage] writes to. *)
Definition active_channel (s : State) : option nat :=
  if isHost s then dataChannel s else remoteDataChannel s.

(** The session is connected and its channel is open: [sendMessage] sends. *)
Definition can_send (s : State) : Prop :=
  isConnected s = true /\
  exists channel,
    active_channel s = Some channel /\ channels s !! channel = Some ch_open.

(** The effect starts a negotiation: a new peer connection or a new offer. *)
Definition initiates (e : Effect) : bool :=
  match e with
  | NewRTCPeerConnection _ | PcCreateOffer _ | SignalingSendOffer _ => true
  | _ => false
  end.

(** The heartbeats written to a channel, with their sequence numbers. *)
Definition heartbeats_sent (t : list Effect) : list Z :=
  omap (fun e => match e with
                 | ChannelSend _ m =>
                     if decide (g_type m = HEARTBEAT) then Some (g_sequence m)
                     else None
                 | _ => None
                 end) t.

End Peer.

(** ** Concrete runs of the relay *)
Module Scenario.

Definition playerX : string := "0b7e2c1a-5d3f-4a86-9c55-1f2e3d4c5b6a".
Definition playerY : string := "7a1d9e42-8b6c-4f03-a2d1-6e5f4c3b2a19".
Definition playerZ : string := "c3f4a5b6-1e2d-4c7b-8a90-0f1e2d3c4b5a".
Definition room1 : string := "5f0c8a7e-2b4d-4e6f-9a1b-3c5d7e9f1a2b".
Definition room2 : string := "9d8c7b6a-5e4f-4d3c-a2b1-0a9b8c7d6e5f".

(** A draw of [Math.random()] whose rendering in base 36 starts with 0.4xmvue. *)
Definition draw : N := 1234567890123456.

Definition env (uuid : string) (random : N) (now : Z) : Relay.Env :=
  Relay.mkEnv (fun _ => OPEN) uuid random now.

Definition create_room : SignalingMessage := msg0 "create-room".

Definition join_room (roomCode : string) : SignalingMessage :=
  mkMsg "join-room" (Some roomCode) None None None None None None None None None.

(** X creates a room and Y joins it. *)
Definition paired_trace : list (Relay.Env * Relay.Event) :=
  [ (env room1 draw 1000, Relay.Message 1 playerX (Some create_room));
    (env room2 draw 2000, Relay.Message 2 playerY (Some (join_room "4XMVUE"))) ].

Definition paired : RoomManager := Relay.run paired_trace Rooms.init.

(** Then the host X closes its socket, and Z joins later. *)
Definition host_left_trace : list (Relay.Env * Relay.Event) :=
  paired_trace ++
  [ (env room2 draw 3000, Relay.Close 1 playerX);
    (env room2 draw 4000, Relay.Message 3 playerZ (Some (join_room "4XMVUE"))) ].

Definition host_left : RoomManager := Relay.run host_left_trace Rooms.init.

(** X and Y each create a room, and [Math.random()] returns the same value
    both times. *)
Definition same_code_trace : list (Relay.Env * Relay.Event) :=
  [ (env room1 draw 1000, Relay.Message 1 playerX (Some create_room));
    (env room2 draw 2000, Relay.Message 2 playerY (Some create_room)) ].

Definition same_code : RoomManager := Relay.run same_code_trace Rooms.init.

End Scenario.

(** ** Concrete runs of the client and of the peer session *)
Module ClientScenario.

Definition url : string := "ws://localhost:8000".

Definition valid_url (serverUrl : string) : bool := true.

Definition established : SignalingMessage :=
  mkMsg "connection-established" None None (Some Scenario.playerX) None None None
        None None None None.

(** [connect(url)], the socket opens, the relay greets with the player id. *)
Definition connected : Client.State :=
  (Client.run valid_url
     [Client.CallConnect url; Client.WsOpened 2; Client.WsMessage 2 (Some established)]
     Client.init).1.

(** [connect(url)] and the socket opens; nothing has been received. *)
Definition opened_only : Client.State * list Client.Effect :=
  Client.run valid_url [Client.CallConnect url; Client.WsOpened 2] Client.init.

End ClientScenario.

Module PeerScenario.

Definition env (now : Z) : Peer.Env := Peer.mkEnv now (Some Scenario.playerX) false.

Definition sdp : Json := JObject "{type:offer,sdp:v=0}".

(** The host: a player joined, and the data channel it created has opened at
    time 1000. *)
Definition host : Peer.State :=
  (Peer.run [(env 500, Peer.PlayerJoined); (env 1000, Peer.ChannelOpened 2)]
     Peer.init).1.

(** The guest: an offer arrived, the host's channel was announced, open
    already, and its open event was delivered at time 1000. *)
Definition guest : Peer.State :=
  (Peer.run [(env 500, Peer.Offer sdp);
             (env 900, Peer.DataChannel 40 Peer.ch_open);
             (env 1000, Peer.ChannelOpened 40)]
     Peer.init).1.

(** The guest while the ICE connection of its peer connection is reported as
    disconnected, and after it is reported as connected again. *)
Definition interrupted : Peer.State :=
  (Peer.step (env 5000) guest
     (Peer.IceConnectionStateChange 1 Peer.ice_disconnected)).1.

Definition resumed : Peer.State :=
  (Peer.step (env 5200) interrupted
     (Peer.IceConnectionStateChange 1 Peer.ice_connected)).1.

End PeerScenario.

(** ** Hosts across a transition of the relay *)

(** The rooms that a transition leaves in place keep or lose their host. *)
Definition hosts_shrink (rm rm' : RoomManager) (roomId : string) : Prop :=
  forall room room' h,
    Rooms.getRoom roomId rm = Some room ->
    Rooms.getRoom roomId rm' = Some room' ->
    h ∈ hosts room' -> h ∈ hosts room.

(** ** Postconditions of computations in the trace monad *)

(** [wp m s Q]: run from [s], the computation [m] yields a result, a state and
    a trace that satisfy [Q]. *)
Definition wp {St Eff A} (m : @Trace.M St Eff A) (s : St)
    (Q : A -> St -> list Eff -> Prop) : Prop :=
  let '(a, s', t) := m s in Q a s' t.

(** [m], run from a state that satisfies [P], ends in a state related to the
    first by [R], with a trace that satisfies [T]. *)
Definition Keeps {St Eff A} (P : St -> Prop) (R : St -> St -> Prop)
    (T : list Eff -> Prop) (m : @Trace.M St Eff A) (s : St) : Prop :=
  P s -> wp m s (fun _ s' t => R s s' /\ T t).

(** The session is an answerer. *)
Definition answerer (s : Peer.State) : Prop := Peer.isHost s = false.

(** The role is kept, and the peer connection is the same or gone. *)
Definition same_role (s s' : Peer.State) : Prop :=
  Peer.isHost s' = Peer.isHost s /\
  (Peer.peerConnection s' = Peer.peerConnection s \/ Peer.peerConnection s' = None).

(** Nothing in the trace creates a peer connection or an offer. *)
Definition no_initiative (t : list Peer.Effect) : Prop :=
  Forall (fun e => Peer.initiates e = false) t.

(** [m] is calm from [s]: an answerer stays one and starts no negotiation. *)
Definition Calm {A} (m : Peer.M A) (s : Peer.State) : Prop :=
  Keeps answerer same_role no_initiative m s.

(** The sequence counter does not go down. *)
Definition sequence_le (s s' : Peer.State) : Prop :=
  (Peer.sequence s <= Peer.sequence s')%Z.

Definition Monotone {A} (m : Peer.M A) (s : Peer.State) : Prop :=
  Keeps (fun _ => True) sequence_le (fun _ => True) m s.

(** The heartbeat interval is the one it was, or there is none. *)
Definition interval_kept (s s' : Peer.State) : Prop :=
  Peer.heartbeatInterval s' = Peer.heartbeatInterval s \/
  Peer.heartbeatInterval s' = None.

Definition Unstarted {A} (m : Peer.M A) (s : Peer.State) : Prop :=
  Keeps (fun _ => True) interval_kept (fun _ => True) m s.

(** The events that neither assign the role (a player joined, an offer
    arrived) nor finish a [createOffer] that was started earlier. *)
Definition passive (ev : Peer.Event) : bool :=
  match ev with
  | Peer.PlayerJoined | Peer.Offer _ | Peer.LocalOfferSet _ => false
  | _ => true
  end.

(** ** The trace of [handleMessage] in closed form *)

Definition emit_trace (s : Client.State) (event : string)
    (message : SignalingMessage) : list Client.Effect :=
  Client.Emitted event message ::
  map (fun cb => Client.Invoked event cb message)
      (default [] (Client.eventListeners s !! event)).

(** The first three statements of [handleMessage]. *)
Definition store_ids (message : SignalingMessage) (s : Client.State) : Client.State :=
  let s1 := if field_truthy (m_playerId message)
            then Client.set_playerId (m_playerId message) s else s in
  let s2 := if field_truthy (m_roomId message)
            then Client.set_roomId (m_roomId message) s1 else s1 in
  if field_truthy (m_roomCode message)
  then Client.set_roomCode (m_roomCode message) s2 else s2.

(** One of the six [if (message.type === ...)] statements of [handleMessage]. *)
Definition branch (s : Client.State) (message : SignalingMessage)
    (type event : string) : list Client.Effect :=
  if bool_decide (m_type message = type) then emit_trace s event message else [].

(** ** Further observations on the traces of the client and of the session *)

(** The frames that the client wrote to its sockets, in order. *)
Definition written (t : list Client.Effect) : list Client.Effect :=
  List.filter (fun e => match e with Client.WsSend _ _ => true | _ => false end) t.

(** The steps of a negotiation in the trace of a session: what it does with
    its peer connection and what it hands to the control-plane client. *)
Definition negotiates (e : Peer.Effect) : bool :=
  match e with
  | Peer.NewRTCPeerConnection _ | Peer.CreateDataChannel _ _
  | Peer.PcCreateOffer _ | Peer.PcCreateAnswer _
  | Peer.PcSetLocalDescription _ _ | Peer.PcSetRemoteDescription _ _
  | Peer.PcAddIceCandidate _ _
  | Peer.SignalingSendOffer _ | Peer.SignalingSendAnswer _
  | Peer.SignalingSendIceCandidate _ => true
  | _ => false
  end.

Definition negotiation (t : list Peer.Effect) : list Peer.Effect :=
  List.filter negotiates t.

(** The listeners called in a trace, with the messages they were given. *)
Definition notified (t : list Peer.Effect) : list (nat * Peer.GameMessage) :=
  omap (fun e => match e with Peer.Notify l m => Some (l, m) | _ => None end) t.

(** * Properties *)

(** ** Facts about [JsMap] *)
Section JsMapFacts.
Context {V : Type}.
Implicit Types (m : JsMap.t V) (k : string) (v : V).

Lemma jsmap_size_set_le k v m :
  JsMap.size (JsMap.set k v m) <= S (JsMap.size m).
Proof.
  unfold JsMap.size. induction m as [|[k' v'] m IH]; simpl; [lia|].
  case_decide; simpl; lia.
Qed.

Lemma jsmap_size_remove_le k m : JsMap.size (JsMap.remove k m) <= JsMap.size m.
Proof.
  unfold JsMap.size. induction m as [|[k' v'] m IH]; simpl; [lia|].
  case_decide; simpl; lia.
Qed.

Lemma jsmap_get_set_eq k v m : JsMap.get k (JsMap.set k v m) = Some v.
Proof.
  induction m as [|[k' v'] m IH]; simpl.
  - by rewrite decide_True.
  - destruct (decide (k' = k)) as [->|Hne]; simpl.
    + by rewrite decide_True.
    + by rewrite decide_False.
Qed.

Lemma jsmap_get_set_ne k k' v m :
  k <> k' -> JsMap.get k' (JsMap.set k v m) = JsMap.get k' m.
Proof.
  intros Hne. induction m as [|[k0 v0] m IH]; simpl.
  - by rewrite decide_False.
  - destruct (decide (k0 = k)) as [->|Hk]; simpl.
    + by rewrite !decide_False.
    + by rewrite IH.
Qed.

Lemma jsmap_get_remove_eq k m : JsMap.get k (JsMap.remove k m) = None.
Proof.
  induction m as [|[k' v'] m IH]; simpl; [done|].
  destruct (decide (k' = k)) as [->|Hk]; simpl; [done|].
  by rewrite decide_False.
Qed.

Lemma jsmap_get_remove_ne k k' m :
  k <> k' -> JsMap.get k' (JsMap.remove k m) = JsMap.get k' m.
Proof.
  intros Hne. induction m as [|[k0 v0] m IH]; simpl; [done|].
  destruct (decide (k0 = k)) as [->|Hk]; simpl.
  - by rewrite decide_False.
  - by rewrite IH.
Qed.

Lemma jsmap_elem_of_set k v m kv :
  kv ∈ JsMap.set k v m -> kv = (k, v) \/ kv ∈ m.
Proof.
  induction m as [|[k' v'] m IH]; simpl.
  - intros ->%list_elem_of_singleton. by left.
  - destruct (decide (k' = k)) as [->|Hk].
    + intros [->|Hin]%elem_of_cons; [by left|]. right. by right.
    + intros [->|Hin]%elem_of_cons.
      * right. by left.
      * destruct (IH Hin) as [->|?]; [by left|]. right. by right.
Qed.

Lemma jsmap_elem_of_remove k m kv :
  kv ∈ JsMap.remove k m -> kv ∈ m /\ kv.1 <> k.
Proof.
  induction m as [|[k' v'] m IH]; simpl.
  - by intros ?%elem_of_nil.
  - destruct (decide (k' = k)) as [->|Hk].
    + intros Hin. destruct (IH Hin). split; [by right|done].
    + intros [->|Hin]%elem_of_cons.
      * split; [by left|done].
      * destruct (IH Hin). split; [by right|done].
Qed.

Lemma jsmap_get_elem_of k v m : JsMap.get k m = Some v -> (k, v) ∈ m.
Proof.
  induction m as [|[k' v'] m IH]; simpl; [done|].
  destruct (decide (k' = k)) as [->|Hk].
  - intros [= ->]. by left.
  - intros H. right. auto.
Qed.

Lemma jsmap_keys_set_in k v m :
  k ∈ JsMap.keys m -> JsMap.keys (JsMap.set k v m) = JsMap.keys m.
Proof.
  unfold JsMap.keys. induction m as [|[k' v'] m IH]; intros Hin.
  - by apply elem_of_nil in Hin.
  - cbn [JsMap.set]. destruct (decide (k' = k)) as [->|Hk]; [reflexivity|].
    apply elem_of_cons in Hin as [Heq|Hin]; [by subst|].
    change (k' :: (JsMap.set k v m).*1 = k' :: m.*1). by rewrite IH.
Qed.

Lemma jsmap_keys_set_notin k v m :
  k ∉ JsMap.keys m -> JsMap.keys (JsMap.set k v m) = JsMap.keys m ++ [k].
Proof.
  unfold JsMap.keys. induction m as [|[k' v'] m IH]; intros Hin; [reflexivity|].
  cbn [JsMap.set]. destruct (decide (k' = k)) as [->|Hk].
  - exfalso. apply Hin. by left.
  - change (k' :: (JsMap.set k v m).*1 = k' :: (m.*1 ++ [k])). rewrite IH; [done|].
    intros ?. apply Hin. by right.
Qed.

Lemma jsmap_NoDup_set k v m :
  NoDup (JsMap.keys m) -> NoDup (JsMap.keys (JsMap.set k v m)).
Proof.
  intros Hnd. destruct (decide (k ∈ JsMap.keys m)) as [Hin|Hin].
  - by rewrite jsmap_keys_set_in.
  - rewrite jsmap_keys_set_notin by done.
    apply NoDup_app. split; [done|]. split.
    + intros x Hx ->%list_elem_of_singleton. done.
    + apply NoDup_singleton.
Qed.

Lemma jsmap_NoDup_remove k m :
  NoDup (JsMap.keys m) -> NoDup (JsMap.keys (JsMap.remove k m)).
Proof.
  unfold JsMap.keys. induction m as [|[k' v'] m IH]; simpl; [done|].
  intros [Hnin Hnd]%NoDup_cons. case_decide; [by apply IH|].
  simpl. apply NoDup_cons. split; [|by apply IH].
  intros Hin. apply Hnin.
  apply list_elem_of_fmap in Hin as [kv [-> Hkv]].
  apply jsmap_elem_of_remove in Hkv as [Hkv _].
  apply list_elem_of_fmap. by exists kv.
Qed.

Lemma jsmap_NoDup_get k v m :
  NoDup (JsMap.keys m) -> (k, v) ∈ m -> JsMap.get k m = Some v.
Proof.
  unfold JsMap.keys. induction m as [|[k' v'] m IH]; simpl.
  - by intros _ ?%elem_of_nil.
  - intros [Hnin Hnd]%NoDup_cons [[= -> ->]|Hin]%elem_of_cons.
    + by rewrite decide_True.
    + rewrite decide_False; [by apply IH|].
      intros ->. apply Hnin. apply list_elem_of_fmap. by exists (k, v).
Qed.

End JsMapFacts.

Section JsMapForall.
Context {V : Type}.
Implicit Types (m : JsMap.t V) (k : string) (v : V).

Lemma jsmap_Forall_set (P : string * V -> Prop) k v m :
  P (k, v) -> Forall P m -> Forall P (JsMap.set k v m).
Proof.
  intros Hv Hm. apply Forall_forall. intros kv Hin.
  apply jsmap_elem_of_set in Hin as [->|Hin]; [done|].
  by eapply Forall_forall in Hm.
Qed.

Lemma jsmap_Forall_remove (P : string * V -> Prop) k m :
  Forall P m -> Forall P (JsMap.remove k m).
Proof.
  intros Hm. apply Forall_forall. intros kv [Hin _]%jsmap_elem_of_remove.
  by eapply Forall_forall in Hm.
Qed.

Lemma jsmap_filter_values_set (f : V -> bool) k v m :
  length (List.filter f (JsMap.values (JsMap.set k v m)))
  <= length (List.filter f (JsMap.values m)) + (if f v then 1 else 0).
Proof.
  unfold JsMap.values. induction m as [|[k' v'] m IH]; cbn.
  - destruct (f v); simpl; lia.
  - destruct (decide (k' = k)) as [->|Hk]; cbn.
    + destruct (f v), (f v'); simpl; lia.
    + destruct (f v'); simpl; lia.
Qed.

Lemma jsmap_filter_values_remove (f : V -> bool) k m :
  length (List.filter f (JsMap.values (JsMap.remove k m)))
  <= length (List.filter f (JsMap.values m)).
Proof.
  unfold JsMap.values. induction m as [|[k' v'] m IH]; cbn; [lia|].
  destruct (decide (k' = k)) as [->|Hk]; cbn; destruct (f v'); simpl; lia.
Qed.

Lemma jsmap_size_remove_lt k v m :
  JsMap.get k m = Some v -> JsMap.size (JsMap.remove k m) < JsMap.size m.
Proof.
  unfold JsMap.size. induction m as [|[k' v'] m IH]; simpl; [done|].
  destruct (decide (k' = k)) as [->|Hk]; simpl.
  - intros _. pose proof (jsmap_size_remove_le k m). unfold JsMap.size in *. lia.
  - intros H. specialize (IH H). lia.
Qed.

Lemma jsmap_size_set_fresh k v m :
  JsMap.get k m = None -> JsMap.size (JsMap.set k v m) = S (JsMap.size m).
Proof.
  unfold JsMap.size. induction m as [|[k' v'] m IH]; simpl; [done|].
  destruct (decide (k' = k)) as [->|Hk]; simpl; [done|].
  intros H. by rewrite IH.
Qed.

End JsMapForall.

(** ** The registry invariant *)

Lemma registry_ok_init : registry_ok Rooms.init.
Proof. split; [apply NoDup_nil_2 | apply Forall_nil_2]. Qed.

Lemma registry_ok_lookup rm roomId room :
  registry_ok rm -> JsMap.get roomId (rooms rm) = Some room ->
  room_ok (roomId, room).
Proof.
  intros [_ Hall] Hget. apply jsmap_get_elem_of in Hget.
  by eapply Forall_forall in Hall.
Qed.

Lemma registry_ok_createRoom uuid random now rm :
  registry_ok rm -> registry_ok (Rooms.createRoom uuid random now rm).1.
Proof.
  intros [Hnd Hall]. split; simpl.
  - by apply jsmap_NoDup_set.
  - apply jsmap_Forall_set; [|done].
    repeat split; simpl; auto; unfold JsMap.size; simpl; lia.
Qed.

(** Adding a player keeps the invariant when the player is not a host, or
    when the room is still empty. *)
Lemma registry_ok_addPlayerToRoom roomId player rm :
  registry_ok rm ->
  (isHost player = false \/
   forall room, JsMap.get roomId (rooms rm) = Some room -> players room = []) ->
  registry_ok (Rooms.addPlayerToRoom roomId player rm).1.
Proof.
  intros Hok Hhost. unfold Rooms.addPlayerToRoom.
  destruct (JsMap.get roomId (rooms rm)) as [room|] eqn:Hget; [|done].
  destruct (2 <=? JsMap.size (players room))%nat eqn:Hsz; [done|].
  apply Nat.leb_gt in Hsz.
  destruct (registry_ok_lookup _ _ _ Hok Hget) as (Hid & _ & Hh & Hst).
  destruct Hok as [Hnd Hall]. simpl in Hid.
  pose proof (jsmap_size_set_le (p_id player) player (players room)) as Hle.
  assert (length (List.filter isHost (JsMap.values
            (JsMap.set (p_id player) player (players room)))) <= 1) as Hh'.
  { destruct Hhost as [Hnh|Hempty].
    - pose proof (jsmap_filter_values_set isHost (p_id player) player (players room)).
      rewrite Hnh in *. unfold hosts in Hh. simpl in Hh. lia.
    - rewrite (Hempty room eq_refl). cbn. destruct (isHost player); simpl; lia. }
  split; simpl.
  - by apply jsmap_NoDup_set.
  - apply jsmap_Forall_set; [|done].
    unfold room_ok, hosts in *. destruct (_ =? 2)%nat; simpl; repeat split; auto; lia.
Qed.

Lemma registry_ok_removePlayer playerId rm :
  registry_ok rm -> registry_ok (Rooms.removePlayer playerId rm).1.
Proof.
  intros Hok. unfold Rooms.removePlayer.
  destruct (playerRooms rm !! playerId) as [roomId|]; [|done].
  destruct (negb (truthy roomId)); [done|].
  destruct (JsMap.get roomId (rooms rm)) as [room|] eqn:Hget; [|done].
  destruct (registry_ok_lookup _ _ _ Hok Hget) as (Hid & Hsz & Hh & Hst).
  destruct Hok as [Hnd Hall]. simpl in *.
  destruct (_ =? 0)%nat; split; simpl.
  - by apply jsmap_NoDup_remove.
  - by apply jsmap_Forall_remove.
  - by apply jsmap_NoDup_set.
  - apply jsmap_Forall_set; [|done].
    pose proof (jsmap_size_remove_le playerId (players room)).
    pose proof (jsmap_filter_values_remove isHost playerId (players room)).
    unfold room_ok, hosts in *. simpl. repeat split; auto; lia.
Qed.

Lemma registry_ok_cleanupLoop now maxAgeMs entries rm :
  registry_ok rm -> registry_ok (Rooms.cleanupLoop now maxAgeMs entries rm).
Proof.
  revert rm. induction entries as [|[roomId room] rest IH]; intros rm Hok; [done|].
  simpl. destruct (maxAgeMs <? now - createdAt room)%Z; [|by apply IH].
  apply IH. destruct Hok as [Hnd Hall]. split; simpl.
  - by apply jsmap_NoDup_remove.
  - by apply jsmap_Forall_remove.
Qed.

Lemma registry_ok_handleCreateRoom env socket playerId rm :
  registry_ok rm -> registry_ok (Relay.handleCreateRoom env socket playerId rm).1.
Proof.
  intros Hok. unfold Relay.handleCreateRoom.
  destruct (Rooms.createRoom _ _ _ rm) as [rm1 room] eqn:Hc.
  destruct (Rooms.addPlayerToRoom _ _ rm1) as [rm2 b] eqn:Ha. simpl.
  change rm2 with (rm2, b).1. rewrite <- Ha.
  apply registry_ok_addPlayerToRoom.
  - change rm1 with (rm1, room).1. rewrite <- Hc. by apply registry_ok_createRoom.
  - right. intros room' Hget. unfold Rooms.createRoom in Hc.
    injection Hc as <- <-. simpl in Hget.
    rewrite jsmap_get_set_eq in Hget. by injection Hget as <-.
Qed.

Lemma registry_ok_handleJoinRoom env socket playerId roomCode rm :
  registry_ok rm ->
  registry_ok (Relay.handleJoinRoom env socket playerId roomCode rm).1.
Proof.
  intros Hok. unfold Relay.handleJoinRoom.
  destruct (Rooms.getRoomByCode roomCode rm) as [room|]; [|done].
  case_decide; [done|].
  destruct (Rooms.addPlayerToRoom _ _ rm) as [rm1 b] eqn:Ha.
  assert (registry_ok rm1).
  { change rm1 with (rm1, b).1. rewrite <- Ha.
    apply registry_ok_addPlayerToRoom; [done|by left]. }
  by destruct b.
Qed.

Lemma registry_ok_step env rm ev :
  registry_ok rm -> registry_ok (Relay.step env rm ev).1.
Proof.
  intros Hok. destruct ev as [socket|socket playerId [message|]|socket playerId|];
    simpl; try done.
  - unfold Relay.handleMessage.
    repeat case_decide; try done.
    + by apply registry_ok_handleCreateRoom.
    + destruct (m_roomCode message) as [roomCode|]; [|done].
      destruct (truthy roomCode); [|done]. by apply registry_ok_handleJoinRoom.
    + destruct (m_roomId message), (m_offer message); try done.
      by destruct (_ && _).
    + destruct (m_roomId message), (m_answer message); try done.
      by destruct (_ && _).
    + destruct (m_roomId message), (m_candidate message); try done.
      by destruct (_ && _).
  - unfold Relay.onClose.
    destruct (Rooms.removePlayer playerId rm) as [rm1 r] eqn:Hr. simpl.
    change rm1 with (rm1, r).1. rewrite <- Hr. by apply registry_ok_removePlayer.
  - by apply registry_ok_cleanupLoop.
Qed.

Lemma reachable_registry_ok rm : Relay.reachable rm -> registry_ok rm.
Proof.
  induction 1 as [|env rm ev _ IH]; [apply registry_ok_init|].
  by apply registry_ok_step.
Qed.

Lemma reachable_run trace rm :
  Relay.reachable rm -> Relay.reachable (Relay.run trace rm).
Proof.
  revert rm. induction trace as [|[env ev] rest IH]; intros rm Hr; [done|].
  simpl. apply IH. by constructor.
Qed.

(** ** Rooms found by code are the rooms of the registry *)

Lemma getRoomByCode_Some c rm room :
  Rooms.getRoomByCode c rm = Some room ->
  code room = c /\ exists roomId, (roomId, room) ∈ rooms rm.
Proof.
  unfold Rooms.getRoomByCode. intros Hfind.
  apply find_some in Hfind as [Hin Hc]. apply bool_decide_eq_true in Hc.
  split; [done|]. apply list_elem_of_In in Hin.
  apply list_elem_of_fmap in Hin as [[roomId r] [-> Hin]]. by exists roomId.
Qed.

Lemma getRoomByCode_getRoom c rm room :
  registry_ok rm -> Rooms.getRoomByCode c rm = Some room ->
  Rooms.getRoom (r_id room) rm = Some room.
Proof.
  intros [Hnd Hall] [_ [roomId Hin]]%getRoomByCode_Some.
  pose proof Hin as Hok. eapply Forall_forall in Hok; [|exact Hall].
  destruct Hok as [Hid _]. simpl in Hid. subst roomId.
  by apply jsmap_NoDup_get.
Qed.

Lemma values_elem_of_get rm room :
  registry_ok rm -> room ∈ JsMap.values (rooms rm) ->
  Rooms.getRoom (r_id room) rm = Some room.
Proof.
  intros [Hnd Hall] Hin.
  apply list_elem_of_fmap in Hin as [[roomId r] [-> Hin]].
  pose proof Hin as Hok. eapply Forall_forall in Hok; [|exact Hall].
  destruct Hok as [Hid _]. simpl in *. subst roomId.
  by apply jsmap_NoDup_get.
Qed.

Lemma values_room_ok rm room :
  registry_ok rm -> room ∈ JsMap.values (rooms rm) -> room_ok (r_id room, room).
Proof.
  intros Hok Hin. eapply registry_ok_lookup; [done|].
  by apply values_elem_of_get.
Qed.

(** A join against a room that holds two players is refused by
    [handleJoinRoom], whichever of its two guards fires. *)
Lemma handleJoinRoom_full env socket playerId roomCode rm room :
  registry_ok rm ->
  Rooms.getRoomByCode roomCode rm = Some room ->
  JsMap.size (players room) = 2 ->
  Relay.readyState env socket = OPEN ->
  exists error,
    Relay.handleJoinRoom env socket playerId roomCode rm
    = (rm, [Relay.Send socket (Relay.error_message error)]).
Proof.
  intros Hok Hfind Hsz Hopen. unfold Relay.handleJoinRoom. rewrite Hfind.
  assert (forall error, Relay.sendError env socket error
            = [Relay.Send socket (Relay.error_message error)]) as Hsend.
  { intros error. unfold Relay.sendError, Relay.sendToSocket.
    by rewrite decide_True. }
  destruct (decide (status room = full)); [rewrite Hsend; by eexists|].
  unfold Rooms.addPlayerToRoom.
  pose proof (getRoomByCode_getRoom _ _ _ Hok Hfind) as Hget.
  unfold Rooms.getRoom in Hget. rewrite Hget, Hsz. simpl.
  rewrite Hsend. by eexists.
Qed.

(** C1.  In every registry the relay can reach, a room holds at most two
    players; and a join-room request for a code whose room holds two players
    is answered to the requester (whose socket is open) with a single error
    message and leaves the whole registry, hence the room's membership, as it
    was. *)
Theorem room_capacity env rm socket playerId message roomCode :
  Relay.reachable rm ->
  (forall room, room ∈ JsMap.values (rooms rm) -> JsMap.size (players room) <= 2) /\
  (forall room,
     m_type message = "join-room" ->
     m_roomCode message = Some roomCode ->
     Rooms.getRoomByCode roomCode rm = Some room ->
     JsMap.size (players room) = 2 ->
     Relay.readyState env socket = OPEN ->
     exists error,
       Relay.step env rm (Relay.Message socket playerId (Some message))
       = (rm, [Relay.Send socket (Relay.error_message error)])).
Proof.
  intros Hreach. pose proof (reachable_registry_ok _ Hreach) as Hok. split.
  - intros room Hin. by destruct (values_room_ok _ _ Hok Hin) as (_ & Hsz & _).
  - intros room Htype Hcode Hfind Hsz Hopen. simpl.
    unfold Relay.handleMessage. rewrite Htype, Hcode.
    rewrite decide_False by done. rewrite decide_True by done.
    destruct (truthy roomCode).
    + by eapply handleJoinRoom_full.
    + unfold Relay.sendError, Relay.sendToSocket.
      rewrite decide_True by done. by eexists.
Qed.

Lemma room_capacity_witness :
  (forall room, room ∈ JsMap.values (rooms Scenario.paired) ->
     JsMap.size (players room) <= 2) /\
  exists error,
    Relay.step (Scenario.env Scenario.room2 Scenario.draw 5000) Scenario.paired
      (Relay.Message 3 Scenario.playerZ (Some (Scenario.join_room "4XMVUE")))
    = (Scenario.paired, [Relay.Send 3 (Relay.error_message error)]).
Proof.
  destruct (room_capacity (Scenario.env Scenario.room2 Scenario.draw 5000)
              Scenario.paired 3 Scenario.playerZ (Scenario.join_room "4XMVUE")
              "4XMVUE") as [Hcap Hfull].
  - apply reachable_run. constructor.
  - split; [exact Hcap|].
    eapply Hfull; [reflexivity|reflexivity|vm_compute; reflexivity| |reflexivity].
    reflexivity.
Defined.

(** ** Hosts *)

Lemma elem_of_hosts h room :
  h ∈ hosts room <-> h ∈ JsMap.values (players room) /\ isHost h = true.
Proof.
  unfold hosts. rewrite !list_elem_of_In. apply filter_In.
Qed.

Lemma hosts_set_players_set room player h :
  isHost player = false ->
  h ∈ hosts (set_players room (JsMap.set (p_id player) player (players room))) ->
  h ∈ hosts room.
Proof.
  intros Hnh [Hin Hh]%elem_of_hosts. apply elem_of_hosts. split; [|done].
  simpl in Hin. apply list_elem_of_fmap in Hin as [kv [-> Hin]].
  apply jsmap_elem_of_set in Hin as [->|Hin]; [simpl in Hh; congruence|].
  apply list_elem_of_fmap. by exists kv.
Qed.

Lemma hosts_set_players_remove room playerId h :
  h ∈ hosts (set_players room (JsMap.remove playerId (players room))) ->
  h ∈ hosts room.
Proof.
  intros [Hin Hh]%elem_of_hosts. apply elem_of_hosts. split; [|done].
  simpl in Hin. apply list_elem_of_fmap in Hin as [kv [-> Hin]].
  apply jsmap_elem_of_remove in Hin as [Hin _].
  apply list_elem_of_fmap. by exists kv.
Qed.

Lemma hosts_set_status room st : hosts (set_status room st) = hosts room.
Proof. done. Qed.

Lemma hosts_shrink_refl rm roomId : hosts_shrink rm rm roomId.
Proof. intros room room' h H1 H2. rewrite H1 in H2. by injection H2 as <-. Qed.

Lemma hosts_shrink_addPlayerToRoom target player rm roomId :
  isHost player = false ->
  hosts_shrink rm (Rooms.addPlayerToRoom target player rm).1 roomId.
Proof.
  intros Hnh. unfold Rooms.addPlayerToRoom.
  destruct (JsMap.get target (rooms rm)) as [room0|] eqn:Hget;
    [|apply hosts_shrink_refl].
  destruct (2 <=? _)%nat; [apply hosts_shrink_refl|].
  intros room room' h H1 H2. unfold Rooms.getRoom in *. simpl in H2.
  destruct (decide (target = roomId)) as [->|Hne].
  - rewrite jsmap_get_set_eq in H2. rewrite Hget in H1.
    injection H1 as <-. injection H2 as <-.
    destruct (_ =? 2)%nat; [rewrite hosts_set_status|];
      by apply hosts_set_players_set.
  - rewrite jsmap_get_set_ne in H2 by done. rewrite H1 in H2.
    by injection H2 as <-.
Qed.

Lemma hosts_shrink_removePlayer playerId rm roomId :
  hosts_shrink rm (Rooms.removePlayer playerId rm).1 roomId.
Proof.
  unfold Rooms.removePlayer.
  destruct (playerRooms rm !! playerId) as [target|]; [|apply hosts_shrink_refl].
  destruct (negb (truthy target)); [apply hosts_shrink_refl|].
  destruct (JsMap.get target (rooms rm)) as [room0|] eqn:Hget.
  2: { intros room room' h H1 H2. unfold Rooms.getRoom in *. simpl in H2.
       rewrite H1 in H2. by injection H2 as <-. }
  intros room room' h H1 H2. unfold Rooms.getRoom in *.
  destruct (decide (target = roomId)) as [->|Hne].
  - rewrite Hget in H1. injection H1 as <-.
    destruct (_ =? 0)%nat; simpl in H2.
    + by rewrite jsmap_get_remove_eq in H2.
    + rewrite jsmap_get_set_eq in H2. injection H2 as <-.
      rewrite hosts_set_status. by apply hosts_set_players_remove.
  - destruct (_ =? 0)%nat; simpl in H2.
    + rewrite jsmap_get_remove_ne in H2 by done. rewrite H1 in H2.
      by injection H2 as <-.
    + rewrite jsmap_get_set_ne in H2 by done. rewrite H1 in H2.
      by injection H2 as <-.
Qed.

Lemma cleanupLoop_getRoom now maxAgeMs entries rm roomId room :
  Rooms.getRoom roomId (Rooms.cleanupLoop now maxAgeMs entries rm) = Some room ->
  Rooms.getRoom roomId rm = Some room.
Proof.
  revert rm. induction entries as [|[k r] rest IH]; intros rm; [done|].
  simpl. destruct (maxAgeMs <? now - createdAt r)%Z; [|by apply IH].
  intros H%IH. unfold Rooms.getRoom in *. simpl in H.
  destruct (decide (k = roomId)) as [->|Hne].
  - by rewrite jsmap_get_remove_eq in H.
  - by rewrite jsmap_get_remove_ne in H.
Qed.

Lemma handleCreateRoom_rooms env socket playerId rm :
  rooms (Relay.handleCreateRoom env socket playerId rm).1
  = JsMap.set (Relay.uuidv4 env)
      (mkRoom (Relay.uuidv4 env) (Rooms.roomCode (Relay.Math_random env))
         [(playerId, mkPlayer playerId socket true)] waiting (Relay.Date_now env))
      (rooms rm).
Proof.
  unfold Relay.handleCreateRoom, Rooms.createRoom, Rooms.addPlayerToRoom. simpl.
  rewrite jsmap_get_set_eq. simpl.
  induction (rooms rm) as [|[k v] m IH]; simpl.
  - by rewrite decide_True.
  - destruct (decide (k = Relay.uuidv4 env)) as [->|Hne]; simpl.
    + by rewrite decide_True.
    + rewrite decide_False by done. simpl in IH. by rewrite IH.
Qed.

Lemma hosts_shrink_step env rm ev roomId :
  ~ Relay.creates env ev roomId ->
  hosts_shrink rm (Relay.step env rm ev).1 roomId.
Proof.
  intros Hnc. destruct ev as [socket|socket playerId [message|]|socket playerId|];
    simpl; try apply hosts_shrink_refl.
  - unfold Relay.handleMessage. simpl in Hnc.
    destruct (decide (m_type message = "create-room")) as [Hc|_].
    { intros room room' h H1 H2. unfold Rooms.getRoom in *.
      rewrite handleCreateRoom_rooms in H2.
      rewrite jsmap_get_set_ne in H2 by (intros Heq; apply Hnc; by split).
      rewrite H1 in H2. by injection H2 as <-. }
    repeat case_decide; try apply hosts_shrink_refl.
    + destruct (m_roomCode message) as [roomCode|]; [|apply hosts_shrink_refl].
      destruct (truthy roomCode); [|apply hosts_shrink_refl].
      unfold Relay.handleJoinRoom.
      destruct (Rooms.getRoomByCode roomCode rm) as [room0|];
        [|apply hosts_shrink_refl].
      case_decide; [apply hosts_shrink_refl|].
      pose proof (hosts_shrink_addPlayerToRoom (r_id room0)
                    (mkPlayer playerId socket false) rm roomId eq_refl) as Hs.
      destruct (Rooms.addPlayerToRoom _ _ rm) as [rm1 b]. by destruct b.
    + destruct (m_roomId message), (m_offer message);
        try apply hosts_shrink_refl. destruct (_ && _); apply hosts_shrink_refl.
    + destruct (m_roomId message), (m_answer message);
        try apply hosts_shrink_refl. destruct (_ && _); apply hosts_shrink_refl.
    + destruct (m_roomId message), (m_candidate message);
        try apply hosts_shrink_refl. destruct (_ && _); apply hosts_shrink_refl.
  - unfold Relay.onClose.
    pose proof (hosts_shrink_removePlayer playerId rm roomId) as Hs.
    by destruct (Rooms.removePlayer playerId rm) as [rm1 r].
  - intros room room' h H1 H2%cleanupLoop_getRoom.
    rewrite H1 in H2. by injection H2 as <-.
Qed.

(** C6, as the code has it.  In every registry the relay can reach a room has
    at most one player with the host flag; a create-room request makes its
    sender the only player, and the host, of the new room; and no other event
    gives a room a host it did not have before: the host stays the same player
    for as long as the room has one.  (A room can be left without a host: the
    relay hands the role over to nobody, and a later joiner does not become
    host.) *)
Theorem host_unique_and_stable env rm ev :
  Relay.reachable rm ->
  (forall room, room ∈ JsMap.values (rooms rm) -> length (hosts room) <= 1) /\
  (forall socket playerId message,
     ev = Relay.Message socket playerId (Some message) ->
     m_type message = "create-room" ->
     exists room,
       Rooms.getRoom (Relay.uuidv4 env) (Relay.step env rm ev).1 = Some room /\
       JsMap.values (players room) = [mkPlayer playerId socket true] /\
       hosts room = [mkPlayer playerId socket true]) /\
  (forall roomId room room' h,
     Rooms.getRoom roomId rm = Some room ->
     Rooms.getRoom roomId (Relay.step env rm ev).1 = Some room' ->
     ~ Relay.creates env ev roomId ->
     h ∈ hosts room' -> h ∈ hosts room).
Proof.
  intros Hreach. pose proof (reachable_registry_ok _ Hreach) as Hok.
  split; [|split].
  - intros room Hin. by destruct (values_room_ok _ _ Hok Hin) as (_ & _ & Hh & _).
  - intros socket playerId message -> Htype. simpl.
    unfold Relay.handleMessage. rewrite decide_True by done.
    unfold Rooms.getRoom. rewrite handleCreateRoom_rooms, jsmap_get_set_eq.
    by eexists.
  - intros roomId room room' h H1 H2 Hnc Hh.
    by eapply (hosts_shrink_step env rm ev roomId Hnc).
Qed.

Lemma host_unique_and_stable_witness :
  (forall room, room ∈ JsMap.values (rooms Scenario.paired) ->
     length (hosts room) <= 1) /\
  (exists room,
     Rooms.getRoom Scenario.room2
       (Relay.step (Scenario.env Scenario.room2 Scenario.draw 5000) Scenario.paired
          (Relay.Message 3 Scenario.playerZ (Some Scenario.create_room))).1
     = Some room /\
     JsMap.values (players room) = [mkPlayer Scenario.playerZ 3 true] /\
     hosts room = [mkPlayer Scenario.playerZ 3 true]) /\
  mkPlayer Scenario.playerX 1 true
    ∈ hosts (mkRoom Scenario.room1 "4XMVUE"
               [(Scenario.playerX, mkPlayer Scenario.playerX 1 true);
                (Scenario.playerY, mkPlayer Scenario.playerY 2 false)]
               full 1000).
Proof.
  destruct (host_unique_and_stable
              (Scenario.env Scenario.room2 Scenario.draw 5000) Scenario.paired
              (Relay.Message 3 Scenario.playerZ (Some Scenario.create_room)))
    as (Hone & Hnew & Hkeep).
  - apply reachable_run. constructor.
  - split; [exact Hone|]. split; [by eapply Hnew|].
    eapply (Hkeep Scenario.room1).
    + vm_compute. reflexivity.
    + vm_compute. reflexivity.
    + simpl. intros [_ Heq]. discriminate Heq.
    + apply elem_of_hosts. split; [|reflexivity]. simpl. by left.
Defined.

(** C6, as the spec words it, fails: once the host X of a paired room has
    closed its socket the room lives on with the guest Y and no host, and Z,
    who joins afterwards, is not a host either. *)
Lemma exactly_one_host_counterexample :
  Relay.reachable Scenario.host_left /\
  exists room,
    Rooms.getRoom Scenario.room1 Scenario.host_left = Some room /\
    JsMap.keys (players room) = [Scenario.playerY; Scenario.playerZ] /\
    hosts room = [].
Proof.
  split; [apply reachable_run; constructor|].
  eexists. split; [vm_compute; reflexivity|]. split; reflexivity.
Qed.

(** ** Departures *)

Lemma getPlayerRoom_Some playerId rm room :
  Rooms.getPlayerRoom playerId rm = Some room ->
  exists roomId,
    playerRooms rm !! playerId = Some roomId /\ truthy roomId = true /\
    JsMap.get roomId (rooms rm) = Some room.
Proof.
  unfold Rooms.getPlayerRoom.
  destruct (playerRooms rm !! playerId) as [roomId|]; [|done].
  destruct (truthy roomId) eqn:Ht; [|done]. simpl. intros H.
  exists roomId. by repeat split.
Qed.

(** C7, as the code has it.  [removePlayer] of a player that is in no room
    returns none and leaves the registry as it was.  For a player in a room,
    the player is taken out of the room and of the player index; if nobody is
    left the room is deleted and none is returned: looking the room up by its
    id gives none, looking up by code never gives the deleted room, and gives
    none when no other room carries the same code; otherwise the room, with
    its status reset to waiting, is kept in the registry and returned. *)
Theorem removePlayer_spec playerId rm :
  Relay.reachable rm ->
  (playerRooms rm !! playerId = None ->
   Rooms.removePlayer playerId rm = (rm, None)) /\
  (forall room,
     Rooms.getPlayerRoom playerId rm = Some room ->
     let rm' := (Rooms.removePlayer playerId rm).1 in
     let survivors := JsMap.remove playerId (players room) in
     playerRooms rm' !! playerId = None /\
     JsMap.get playerId survivors = None /\
     (JsMap.size survivors = 0 ->
        (Rooms.removePlayer playerId rm).2 = None /\
        Rooms.getRoom (r_id room) rm' = None /\
        (forall c other,
           Rooms.getRoomByCode c rm' = Some other ->
           r_id other <> r_id room /\
           Rooms.getRoom (r_id other) rm = Some other) /\
        ((forall other,
            other ∈ JsMap.values (rooms rm) -> r_id other <> r_id room ->
            code other <> code room) ->
         Rooms.getRoomByCode (code room) rm' = None)) /\
     (JsMap.size survivors <> 0 ->
        let room' := set_status (set_players room survivors) waiting in
        (Rooms.removePlayer playerId rm).2 = Some room' /\
        Rooms.getRoom (r_id room) rm' = Some room')).
Proof.
  intros Hreach. pose proof (reachable_registry_ok _ Hreach) as Hok. split.
  { intros Hnone. unfold Rooms.removePlayer. by rewrite Hnone. }
  intros room (roomId & Hpr & Htruthy & Hget)%getPlayerRoom_Some rm' survivors.
  destruct (registry_ok_lookup _ _ _ Hok Hget) as (Hid & _). simpl in Hid.
  subst rm' survivors. unfold Rooms.removePlayer, Rooms.getRoom.
  rewrite Hpr, Htruthy, Hget. simpl.
  split; [|split; [apply jsmap_get_remove_eq|split]].
  - destruct (_ =? 0)%nat; simpl; apply lookup_delete_eq.
  - intros Hsz. rewrite Hsz. simpl. rewrite Hid.
    split; [done|]. split; [apply jsmap_get_remove_eq|].
    assert (forall c other,
      Rooms.getRoomByCode c
        (mkRoomManager (JsMap.remove roomId (rooms rm))
           (delete playerId (playerRooms rm))) = Some other ->
      code other = c /\ r_id other <> roomId /\
      JsMap.get (r_id other) (rooms rm) = Some other) as Hother.
    { intros c other [Hc [k Hin]]%getRoomByCode_Some. simpl in Hin.
      apply jsmap_elem_of_remove in Hin as [Hin Hk]. simpl in Hk.
      destruct Hok as [Hnd Hall]. pose proof Hin as Hr.
      eapply Forall_forall in Hr; [|exact Hall]. destruct Hr as [Hrid _].
      simpl in Hrid. subst k. split; [done|]. split; [done|].
      by apply jsmap_NoDup_get. }
    split.
    + intros c other Hfind. by destruct (Hother c other Hfind) as (_ & ? & ?).
    + intros Hfresh.
      destruct (Rooms.getRoomByCode (code room) _) as [other|] eqn:Hfind; [|done].
      destruct (Hother _ _ Hfind) as (Hc & Hne & Hg). exfalso.
      apply (Hfresh other); [|done|done].
      apply jsmap_get_elem_of in Hg. apply list_elem_of_fmap.
      by exists (r_id other, other).
  - intros Hsz. apply Nat.eqb_neq in Hsz. rewrite Hsz. simpl.
    split; [done|]. rewrite Hid. apply jsmap_get_set_eq.
Qed.

Lemma removePlayer_spec_witness :
  Rooms.getRoom Scenario.room1 (Rooms.removePlayer Scenario.playerY Scenario.paired).1
  = Some (mkRoom Scenario.room1 "4XMVUE"
            [(Scenario.playerX, mkPlayer Scenario.playerX 1 true)] waiting 1000)
  /\ Rooms.removePlayer Scenario.playerZ Scenario.paired = (Scenario.paired, None).
Proof.
  destruct (removePlayer_spec Scenario.playerY Scenario.paired) as [_ Hin].
  { apply reachable_run. constructor. }
  destruct (removePlayer_spec Scenario.playerZ Scenario.paired) as [Hout _].
  { apply reachable_run. constructor. }
  split; [|apply Hout; vm_compute; reflexivity].
  edestruct Hin as (_ & _ & _ & Hkept).
  - vm_compute. reflexivity.
  - destruct Hkept as [_ Hget]; [vm_compute; discriminate|]. exact Hget.
Defined.

(** C7, as the spec words it, fails on the lookup by code: when
    [Math.random()] gave two rooms the same code and the only occupant of the
    first one leaves, that room is deleted but its code still finds the
    second room. *)
Lemma removePlayer_code_lookup_counterexample :
  Relay.reachable Scenario.same_code /\
  (exists room,
     Rooms.getPlayerRoom Scenario.playerX Scenario.same_code = Some room /\
     r_id room = Scenario.room1 /\ code room = "4XMVUE" /\
     JsMap.size (JsMap.remove Scenario.playerX (players room)) = 0) /\
  Rooms.getRoom Scenario.room1
    (Rooms.removePlayer Scenario.playerX Scenario.same_code).1 = None /\
  Rooms.getRoomByCode "4XMVUE"
    (Rooms.removePlayer Scenario.playerX Scenario.same_code).1 <> None.
Proof.
  split; [apply reachable_run; constructor|].
  split; [eexists; split; [vm_compute; reflexivity|by vm_compute]|].
  split; [vm_compute; reflexivity|]. vm_compute. discriminate.
Qed.

(** ** Room status *)

(** C8, as the code has it.  When a second, different player is added to a
    room that holds one player the room becomes full; a departure that leaves
    somebody behind puts the room back to waiting; and no room of a reachable
    registry ever has the status disconnected. *)
Theorem room_status_transitions rm :
  Relay.reachable rm ->
  (forall roomId room player,
     Rooms.getRoom roomId rm = Some room ->
     JsMap.size (players room) = 1 ->
     JsMap.get (p_id player) (players room) = None ->
     exists rm' room',
       Rooms.addPlayerToRoom roomId player rm = (rm', true) /\
       Rooms.getRoom roomId rm' = Some room' /\
       JsMap.size (players room') = 2 /\ status room' = full) /\
  (forall playerId room',
     (Rooms.removePlayer playerId rm).2 = Some room' -> status room' = waiting) /\
  (forall room, room ∈ JsMap.values (rooms rm) ->
     status room = waiting \/ status room = full).
Proof.
  intros Hreach. pose proof (reachable_registry_ok _ Hreach) as Hok.
  split; [|split].
  - intros roomId room player Hget Hsz Hfresh.
    unfold Rooms.addPlayerToRoom, Rooms.getRoom in *. rewrite Hget, Hsz. simpl.
    rewrite (jsmap_size_set_fresh _ _ _ Hfresh), Hsz. simpl.
    do 2 eexists. split; [done|]. simpl. rewrite jsmap_get_set_eq.
    split; [done|]. simpl. by rewrite (jsmap_size_set_fresh _ _ _ Hfresh), Hsz.
  - intros playerId room'. unfold Rooms.removePlayer.
    destruct (playerRooms rm !! playerId) as [roomId|]; [|done].
    destruct (negb (truthy roomId)); [done|].
    destruct (JsMap.get roomId (rooms rm)) as [room|]; [|done].
    destruct (_ =? 0)%nat; [done|]. simpl. by intros [= <-].
  - intros room Hin. by destruct (values_room_ok _ _ Hok Hin) as (_ & _ & _ & Hst).
Qed.

Lemma room_status_transitions_witness :
  (exists rm' room',
     Rooms.addPlayerToRoom Scenario.room2 (mkPlayer Scenario.playerZ 3 false)
       Scenario.same_code = (rm', true) /\
     Rooms.getRoom Scenario.room2 rm' = Some room' /\
     JsMap.size (players room') = 2 /\ status room' = full) /\
  status (mkRoom Scenario.room1 "4XMVUE"
            [(Scenario.playerX, mkPlayer Scenario.playerX 1 true)] waiting 1000)
  = waiting.
Proof.
  destruct (room_status_transitions Scenario.same_code) as (Hjoin & _ & _).
  { apply reachable_run. constructor. }
  destruct (room_status_transitions Scenario.paired) as (_ & Hleave & _).
  { apply reachable_run. constructor. }
  split.
  - eapply Hjoin; [vm_compute; reflexivity|reflexivity|reflexivity].
  - apply (Hleave Scenario.playerY). vm_compute. reflexivity.
Defined.

(** C8, as the spec words it, fails on the departure: when the guest Y leaves
    the paired room, the room that stays with the single occupant X is
    waiting, not disconnected. *)
Lemma departure_status_counterexample :
  Relay.reachable Scenario.paired /\
  exists room,
    (Rooms.removePlayer Scenario.playerY Scenario.paired).2 = Some room /\
    JsMap.size (players room) = 1 /\
    status room = waiting /\ status room <> disconnected.
Proof.
  split; [apply reachable_run; constructor|].
  eexists. split; [vm_compute; reflexivity|]. by repeat split.
Qed.

(** ** Room codes *)

Lemma substring_length_le n m s : String.length (String.substring n m s) <= m.
Proof.
  revert n m. induction s as [|c s IH]; intros [|n] [|m]; simpl; try lia.
  - specialize (IH 0 m). lia.
  - apply (IH n 0).
  - apply (IH n (S m)).
Qed.

Lemma toUpperCase_length s : String.length (toUpperCase s) = String.length s.
Proof. induction s as [|c s IH]; simpl; [done|by rewrite IH]. Qed.

Lemma all_chars_substring p n m s :
  all_chars p s = true -> all_chars p (String.substring n m s) = true.
Proof.
  revert n m. induction s as [|c s IH]; intros [|n] [|m]; simpl; try done.
  - intros [Hc Hs]%andb_true_iff. by rewrite Hc, IH.
  - intros [_ Hs]%andb_true_iff. by apply IH.
  - intros [_ Hs]%andb_true_iff. by apply IH.
Qed.

Lemma digit_char_upper d :
  (d < 36)%N -> is_upper_alnum (ascii_toUpperCase (digit_char d)) = true.
Proof.
  intros Hd. assert (N.to_nat d < 36) as Hn by lia.
  unfold digit_char. generalize dependent (N.to_nat d). clear.
  intros n Hn. do 36 (destruct n as [|n]; [reflexivity|]). lia.
Qed.

(** ** Rounding to a double *)

Lemma size_pow2_le x : (53 < N.size x)%N -> (2 ^ (N.size x - 53) * 2 ^ 52 <= x)%N.
Proof.
  intros Hsize. assert (x <> 0%N) as Hx by (intros ->; simpl in Hsize; lia).
  rewrite <- N.pow_add_r.
  replace (N.size x - 53 + 52)%N with (N.log2 x)
    by (rewrite (N.size_log2 x Hx) in *; lia).
  apply N.log2_spec. lia.
Qed.

(** Rounding moves a number by at most half a unit in the last place. *)
Lemma round53_error x : (round53 x * 2 ^ 53 <= x * 2 ^ 53 + x)%N.
Proof.
  unfold round53. set (sh := (N.size x - 53)%N).
  assert (2 ^ sh <> 0)%N as Hp by (apply N.pow_nonzero; lia).
  pose proof (N.div_mod x (2 ^ sh) Hp) as Hx.
  pose proof (N.mod_lt x (2 ^ sh) Hp) as Hr.
  set (q := (x / 2 ^ sh)%N) in *. set (r := (x mod 2 ^ sh)%N) in *.
  destruct ((2 ^ sh <? 2 * r)%N || ((2 * r =? 2 ^ sh)%N && N.odd q)) eqn:Hup.
  - assert (2 ^ sh <= 2 * r)%N as Hhalf.
    { apply orb_true_iff in Hup as [H%N.ltb_lt|[H%N.eqb_eq _]%andb_true_iff]; lia. }
    assert (53 < N.size x)%N as Hsize.
    { destruct (decide (53 < N.size x)%N) as [|Hn]; [done|].
      replace sh with 0%N in * by lia. simpl in *. lia. }
    pose proof (size_pow2_le x Hsize) as Hbig. fold sh in Hbig.
    set (p := (2 ^ sh)%N) in *. clearbody p q r. nia.
  - set (p := (2 ^ sh)%N) in *. clearbody p q r. nia.
Qed.

(** Rounding keeps at least half of a number. *)
Lemma round53_lower x : (x <= 2 * round53 x)%N.
Proof.
  unfold round53. set (sh := (N.size x - 53)%N).
  assert (2 ^ sh <> 0)%N as Hp by (apply N.pow_nonzero; lia).
  pose proof (N.div_mod x (2 ^ sh) Hp) as Hx.
  pose proof (N.mod_lt x (2 ^ sh) Hp) as Hr.
  set (q := (x / 2 ^ sh)%N) in *. set (r := (x mod 2 ^ sh)%N) in *.
  destruct (decide (53 < N.size x)%N) as [Hsize|Hn].
  - pose proof (size_pow2_le x Hsize) as Hbig. fold sh in Hbig.
    set (p := (2 ^ sh)%N) in *. clearbody p q r.
    destruct (_ || _); nia.
  - replace sh with 0%N in * by lia. simpl in *.
    assert (r = 0%N) as -> by lia. simpl. lia.
Qed.

(** Rounding keeps the multiples of a power of two. *)
Lemma round53_divide k x : (2 ^ k | x)%N -> (2 ^ k | round53 x)%N.
Proof.
  intros [c Hc]. unfold round53. set (sh := (N.size x - 53)%N).
  assert (2 ^ sh <> 0)%N as Hp by (apply N.pow_nonzero; lia).
  destruct (decide (sh <= k)%N) as [Hle|Hgt].
  - assert (x mod 2 ^ sh = 0)%N as Hr.
    { apply N.Lcm0.mod_divide. exists (c * 2 ^ (k - sh))%N.
      rewrite Hc, <- N.mul_assoc, <- N.pow_add_r. do 2 f_equal. lia. }
    rewrite Hr. rewrite N.mul_0_r.
    replace (2 ^ sh <? 0)%N with false by (symmetry; apply N.ltb_ge; lia).
    replace (0 =? 2 ^ sh)%N with false by (symmetry; apply N.eqb_neq; lia).
    cbn [orb andb]. pose proof (N.div_mod x (2 ^ sh) Hp) as Hx. rewrite Hr in Hx.
    exists c. lia.
  - assert (2 ^ k | 2 ^ sh)%N as [d Hd].
    { exists (2 ^ (sh - k))%N. rewrite <- N.pow_add_r. f_equal. lia. }
    destruct (_ || _); rewrite Hd.
    + exists ((x / (d * 2 ^ k) + 1) * d)%N. lia.
    + exists (x / (d * 2 ^ k) * d)%N. lia.
Qed.

(** ** The digits of a fraction *)

Lemma carry_over_bound written written' :
  Forall (fun d => (d < 36)%N) written ->
  carry_over written = Some written' ->
  Forall (fun d => (d < 36)%N) written'.
Proof.
  induction 1 as [|d rest Hd Hrest IH]; simpl; [done|].
  destruct (d + 1 <? 36)%N eqn:Hnext; [|done].
  intros [= <-]. constructor; [by apply N.ltb_lt|done].
Qed.

(** The digit that [fraction_digits] writes is below 36, and the rest is a
    double below one again. *)
Lemma next_digit_bound fraction :
  (2 ^ 107 | fraction)%N -> (fraction < double_one)%N ->
  (round53 (fraction * 36) / double_one < 36)%N /\
  (2 ^ 107 | round53 (fraction * 36) mod double_one)%N /\
  (round53 (fraction * 36) mod double_one < double_one)%N.
Proof.
  intros Hdiv Hlt.
  assert (2 ^ 107 | round53 (fraction * 36))%N as Hdiv1.
  { apply round53_divide. destruct Hdiv as [c ->]. exists (c * 36)%N. lia. }
  pose proof (round53_error (fraction * 36)) as Herr.
  assert (double_one = 2 ^ 53 * 2 ^ 107)%N as Hone by reflexivity.
  assert (double_one <> 0)%N as Hnz by done.
  split; [|split].
  - apply N.Div0.div_lt_upper_bound.
    destruct Hdiv as [c Hc]. subst fraction. rewrite Hone in *.
    set (u := (2 ^ 107)%N) in *. set (v := (2 ^ 53)%N) in *.
    assert (0 < u)%N as Hu by done. assert (0 < v)%N as Hv by done.
    clearbody u v.
    assert (c + 1 <= v)%N as Hc by nia.
    assert (c * (v + 1) < v * v)%N as Hcv by nia.
    apply (N.mul_lt_mono_pos_r v); [done|].
    assert (36 * u * (c * (v + 1)) < 36 * u * (v * v))%N
      by (apply N.mul_lt_mono_pos_l; lia).
    lia.
  - destruct Hdiv1 as [c Hc].
    rewrite N.Div0.mod_eq, Hc.
    exists (c - 2 ^ 53 * (c * 2 ^ 107 / double_one))%N.
    rewrite N.mul_sub_distr_r. f_equal. rewrite Hone at 1. lia.
  - by apply N.mod_lt.
Qed.

Lemma fraction_digits_bound fuel fraction delta written written' :
  (2 ^ 107 | fraction)%N -> (fraction < double_one)%N ->
  Forall (fun d => (d < 36)%N) written ->
  fraction_digits fuel fraction delta written = Some written' ->
  Forall (fun d => (d < 36)%N) written'.
Proof.
  revert fraction delta written.
  induction fuel as [|fuel IH]; intros fraction delta written Hdiv Hlt Hw;
    [by intros [= <-]|].
  destruct (next_digit_bound fraction Hdiv Hlt) as (Hdigit & Hdiv2 & Hlt2).
  cbn [fraction_digits]. cbv zeta.
  assert (Forall (fun d => (d < 36)%N)
            ((round53 (fraction * 36) / double_one)%N :: written)) as Hw1
    by (by constructor).
  destruct (_ && _).
  - by apply carry_over_bound.
  - destruct (_ <=? _)%N; [by apply IH|by intros [= <-]].
Qed.

(** The loop of [fraction_digits] ends by itself: [delta] grows at least
    eighteenfold in each round and the fraction stays below one, so the fuel
    that [toString36] gives is never used up. *)
Lemma fraction_digits_fuel fuel extra fraction delta written :
  (double_one <= 18 ^ N.of_nat (S fuel) * delta)%N ->
  fraction_digits (S fuel + extra) fraction delta written
  = fraction_digits (S fuel) fraction delta written.
Proof.
  revert fraction delta written.
  induction fuel as [|fuel IH]; intros fraction delta written Hbig.
  - cbn [fraction_digits Nat.add]. cbv zeta.
    destruct (_ && _); [done|].
    pose proof (round53_lower (delta * 36)) as Hlow.
    assert (double_one <> 0)%N as Hnz by done.
    pose proof (N.mod_lt (round53 (fraction * 36)) double_one Hnz) as Hlt.
    change (18 ^ N.of_nat 1)%N with 18%N in Hbig.
    destruct (_ <=? _)%N eqn:Hle; [|done].
    apply N.leb_le in Hle. lia.
  - change (S (S fuel) + extra) with (S (S fuel + extra)).
    cbn [fraction_digits]. cbv zeta.
    destruct (_ && _); [done|]. destruct (_ <=? _)%N; [|done].
    apply IH.
    pose proof (round53_lower (delta * 36)) as Hlow.
    replace (N.of_nat (S (S fuel))) with (N.succ (N.of_nat (S fuel))) in Hbig by lia.
    rewrite N.pow_succ_r' in Hbig.
    set (w := (18 ^ N.of_nat (S fuel))%N) in *. clearbody w. nia.
Qed.

Lemma toString36_fuel m extra :
  (0 < m)%N ->
  fraction_digits (32 + extra) (m * 2 ^ 107) (2 ^ (N.size m + 53)) []
  = fraction_digits 32 (m * 2 ^ 107) (2 ^ (N.size m + 53)) [].
Proof.
  intros Hm. apply (fraction_digits_fuel 31).
  assert (1 <= N.size m)%N as Hsize.
  { rewrite N.size_log2 by lia. lia. }
  replace (N.size m + 53)%N with (54 + (N.size m - 1))%N by lia.
  rewrite N.pow_add_r.
  assert (double_one <= 18 ^ N.of_nat 32 * 2 ^ 54)%N as Hc by (by vm_compute).
  assert (1 <= 2 ^ (N.size m - 1))%N as Hp.
  { change 1%N with (2 ^ 0)%N at 1. apply N.pow_le_mono_r; lia. }
  set (w := (18 ^ N.of_nat 32)%N) in *. clearbody w. nia.
Qed.

Lemma string_of_digits_upper ds :
  Forall (fun d => (d < 36)%N) ds ->
  all_chars is_upper_alnum (toUpperCase (string_of_digits ds)) = true.
Proof.
  induction 1 as [|d ds Hd _ IH]; simpl; [done|].
  by rewrite digit_char_upper, IH.
Qed.

Lemma toUpperCase_substring n m s :
  toUpperCase (String.substring n m s) = String.substring n m (toUpperCase s).
Proof.
  revert n m. induction s as [|c s IH]; intros [|n] [|m]; simpl; try done.
  by rewrite IH.
Qed.

(** What holds of a room code for every draw: it has at most six characters,
    all of them uppercase letters or digits. *)
Lemma roomCode_at_most_6 random :
  (random < two53)%N ->
  String.length (Rooms.roomCode random) <= 6 /\
  all_chars is_upper_alnum (Rooms.roomCode random) = true.
Proof.
  intros Hr. unfold Rooms.roomCode, js_substring. split.
  - rewrite toUpperCase_length. apply (substring_length_le 2 6).
  - unfold toString36. destruct (random =? 0)%N; [reflexivity|]. cbv zeta.
    destruct (_ <=? _)%N; [|reflexivity].
    destruct (fraction_digits _ _ _ _) as [written|] eqn:Hdigits; [|reflexivity].
    apply fraction_digits_bound in Hdigits; [|by exists random| |done].
    2: { change double_one with (two53 * 2 ^ 107)%N.
         apply N.mul_lt_mono_pos_r; [done|exact Hr]. }
    apply Forall_rev in Hdigits. generalize dependent (rev written).
    intros ds Hds. rewrite toUpperCase_substring.
    change (toUpperCase ("0." +:+ string_of_digits ds))
      with (String "0" (String "." (toUpperCase (string_of_digits ds)))).
    change (all_chars is_upper_alnum
              (String.substring 0 6 (toUpperCase (string_of_digits ds))) = true).
    by apply all_chars_substring, string_of_digits_upper.
Qed.

(** C9 at the draw 1/2, which [toString(36)] renders as 0.i, and at the draw
    0, rendered as 0: the room codes are I and the empty string, not strings of
    six characters. *)
Theorem roomCode_short_draw uuid now rm :
  code (Rooms.createRoom uuid (2 ^ 52) now rm).2 = "I" /\
  String.length (code (Rooms.createRoom uuid (2 ^ 52) now rm).2) = 1 /\
  code (Rooms.createRoom uuid 0 now rm).2 = "".
Proof. vm_compute. repeat split; reflexivity. Qed.

(** ** The client: traces of its methods *)

Lemma exec_bind {St Eff A B} (m : @Trace.M St Eff A) (k : A -> @Trace.M St Eff B) s :
  Trace.exec (Trace.bind m k) s =
  let '(a, s1, t1) := m s in
  let '(s2, t2) := Trace.exec (k a) s1 in (s2, t1 ++ t2).
Proof.
  unfold Trace.exec, Trace.bind. destruct (m s) as [[a s1] t1].
  by destruct (k a s1) as [[b s2] t2].
Qed.

(** Sequencing a computation whose result is not used. *)
Lemma exec_seq {St Eff A B} (m : @Trace.M St Eff A) (k : @Trace.M St Eff B) s :
  Trace.exec (Trace.bind m (fun _ => k)) s =
  ((Trace.exec k (Trace.exec m s).1).1,
   (Trace.exec m s).2 ++ (Trace.exec k (Trace.exec m s).1).2).
Proof.
  rewrite exec_bind. unfold Trace.exec. destruct (m s) as [[a s1] t1]. simpl.
  by destruct (k s1) as [[b s2] t2].
Qed.

Lemma exec_emit event message s :
  Trace.exec (Client.emit event message) s = (s, emit_trace s event message).
Proof.
  unfold Client.emit, emit_trace, Trace.exec, Trace.bind, Trace.get, Trace.tell.
  simpl. by destruct (Client.eventListeners s !! event).
Qed.

Lemma exec_when_emit b event message s :
  Trace.exec (Trace.when b (Client.emit event message)) s
  = (s, if b then emit_trace s event message else []).
Proof. destruct b; [apply exec_emit|done]. Qed.

Lemma invocations_app event callback t1 t2 :
  Client.invocations event callback (t1 ++ t2)
  = Client.invocations event callback t1 + Client.invocations event callback t2.
Proof. unfold Client.invocations. by rewrite List.filter_app, length_app. Qed.

Lemma invocations_emit_trace s event event' callback message :
  Client.invocations event callback (emit_trace s event' message)
  = if decide (event' = event) then Client.registrations event callback s else 0.
Proof.
  unfold Client.invocations, Client.registrations, emit_trace. simpl.
  destruct (decide (event' = event)) as [->|Hne].
  - induction (default [] (Client.eventListeners s !! event)) as [|cb l IH];
      simpl; [done|].
    rewrite bool_decide_eq_true_2 by done. simpl.
    destruct (bool_decide (cb = callback)); simpl; by rewrite IH.
  - induction (default [] (Client.eventListeners s !! event')) as [|cb l IH];
      simpl; [done|].
    by rewrite bool_decide_eq_false_2.
Qed.

Lemma store_ids_eventListeners message s :
  Client.eventListeners (store_ids message s) = Client.eventListeners s.
Proof.
  unfold store_ids.
  by destruct (field_truthy (m_playerId message)),
              (field_truthy (m_roomId message)),
              (field_truthy (m_roomCode message)).
Qed.

Lemma emit_trace_store_ids message s event m :
  emit_trace (store_ids message s) event m = emit_trace s event m.
Proof. unfold emit_trace. by rewrite store_ids_eventListeners. Qed.

Lemma exec_when_modify_seq (b : bool) f (k : Client.M unit) s :
  Trace.exec (Trace.bind (Trace.when b (Trace.modify f)) (fun _ => k)) s
  = Trace.exec k (if b then f s else s).
Proof. rewrite exec_seq. destruct b; simpl; by destruct (Trace.exec k _). Qed.

Lemma exec_when_emit_seq (b : bool) event message (k : Client.M unit) s :
  Trace.exec (Trace.bind (Trace.when b (Client.emit event message)) (fun _ => k)) s
  = let r := Trace.exec k s in
    (r.1, (if b then emit_trace s event message else []) ++ r.2).
Proof. by rewrite exec_seq, exec_when_emit. Qed.

Lemma exec_handleMessage message s :
  Trace.exec (Client.handleMessage message) s =
  (store_ids message s,
   branch s message "connection-established" "connected" ++
   branch s message "room-created" "room-created" ++
   branch s message "room-joined" "room-joined" ++
   branch s message "player-joined" "player-joined" ++
   branch s message "player-disconnected" "player-disconnected" ++
   branch s message "error" "error" ++
   emit_trace s (m_type message) message).
Proof.
  unfold Client.handleMessage.
  rewrite !exec_when_modify_seq. fold (store_ids message s).
  rewrite !exec_when_emit_seq, exec_emit. cbv zeta. cbn [fst snd].
  unfold branch. by rewrite !emit_trace_store_ids.
Qed.

Lemma invocations_branch s message type event callback :
  Client.invocations (m_type message) callback (branch s message type event)
  = if bool_decide (m_type message = type) && bool_decide (event = m_type message)
    then Client.registrations (m_type message) callback s else 0.
Proof.
  unfold branch. destruct (bool_decide (m_type message = type)); simpl; [|done].
  rewrite invocations_emit_trace. by destruct (decide _); [rewrite bool_decide_eq_true_2|rewrite bool_decide_eq_false_2].
Qed.

Lemma registrations_on event callback s :
  Client.registrations event callback (Trace.exec (Client.on event callback) s).1
  = S (Client.registrations event callback s).
Proof.
  unfold Client.registrations, Client.on, Trace.exec, Trace.bind, Trace.get,
    Trace.modify. simpl. rewrite lookup_insert_eq. simpl.
  rewrite List.filter_app, length_app. simpl.
  rewrite bool_decide_eq_true_2 by done. simpl. lia.
Qed.

(** C10.  While [handleMessage] processes one message, a listener registered
    for the type of that message is called twice per registration when the
    type is room-created, room-joined, player-joined, player-disconnected or
    error, and once per registration for every other type; and each [on(type,
    callback)] adds one registration. *)
Theorem listener_invocations (s : Client.State) (message : SignalingMessage)
    (callback : Client.Callback) :
  Client.invocations (m_type message) callback
    (Trace.exec (Client.handleMessage message) s).2
  = (if bool_decide (m_type message ∈ Client.twice_emitted) then 2 else 1)
    * Client.registrations (m_type message) callback s
  /\ Client.registrations (m_type message) callback
       (Trace.exec (Client.on (m_type message) callback) s).1
     = S (Client.registrations (m_type message) callback s).
Proof.
  split; [|apply registrations_on].
  rewrite exec_handleMessage. simpl.
  rewrite !invocations_app, !invocations_branch, invocations_emit_trace.
  rewrite decide_True by done.
  unfold Client.twice_emitted.
  generalize (Client.registrations (m_type message) callback s). intros n.
  destruct (decide (m_type message = "room-created")) as [->|H1];
    [cbv -[Nat.add Nat.mul]; lia|].
  destruct (decide (m_type message = "room-joined")) as [->|H2];
    [cbv -[Nat.add Nat.mul]; lia|].
  destruct (decide (m_type message = "player-joined")) as [->|H3];
    [cbv -[Nat.add Nat.mul]; lia|].
  destruct (decide (m_type message = "player-disconnected")) as [->|H4];
    [cbv -[Nat.add Nat.mul]; lia|].
  destruct (decide (m_type message = "error")) as [->|H5];
    [cbv -[Nat.add Nat.mul]; lia|].
  rewrite (bool_decide_eq_false_2 (m_type message ∈ _)).
  2: { rewrite !elem_of_cons, elem_of_nil. tauto. }
  rewrite (bool_decide_eq_false_2 _ H1), (bool_decide_eq_false_2 _ H2),
    (bool_decide_eq_false_2 _ H3), (bool_decide_eq_false_2 _ H4),
    (bool_decide_eq_false_2 _ H5). simpl.
  destruct (bool_decide (m_type message = "connection-established")) eqn:Hce;
    simpl; [|lia].
  apply bool_decide_eq_true in Hce. rewrite (bool_decide_eq_false_2 (_ = m_type message)); [simpl; lia|].
  rewrite Hce. done.
Qed.

(** ** The client: one turn of the event loop, symbolically *)

Ltac unfold_client :=
  cbv beta iota zeta delta
    [Client.step Client.handle Client.onclose Client.onopen Client.onerror
     Client.attemptReconnect Client.reconnectTimer Client.connectionTimer
     Client.connect Client.emit Client.clearTimeout Client.setTimeout
     Client.new_id Client.ws_close Client.set_readyState Client.resolve
     Client.reject Client.onReconnected Client.joinRoom Client.send
     Client.onmessage Client.socket_state
     Client.set_socket Client.set_eventListeners Client.set_playerId
     Client.set_roomId Client.set_roomCode Client.set_reconnectAttempts
     Client.set_reconnectTimeout Client.set_sockets Client.set_timers
     Client.set_promises Client.set_fresh
     Trace.exec Trace.bind Trace.get Trace.modify Trace.tell Trace.when Trace.ret].

Ltac client_simpl :=
  cbn -[lookup insert delete Z.pow Z.mul Z.leb Z.add Client.maxReconnectAttempts
        Nat.eqb field_truthy].

(** Evaluate as far as the known facts about the state allow. *)
Ltac client_eval :=
  unfold_client;
  repeat (client_simpl;
          match goal with
          | H : ?l = _ |- context [?l] => rewrite H
          end);
  client_simpl.

Lemma milestones_app t1 t2 :
  Client.milestones (t1 ++ t2) = Client.milestones t1 ++ Client.milestones t2.
Proof. apply List.filter_app. Qed.

Lemma filter_milestone_invoked event message callbacks :
  List.filter Client.milestone
    (map (fun cb => Client.Invoked event cb message) callbacks) = [].
Proof. by induction callbacks. Qed.

(** Bring the milestones of an evaluated trace into normal form. *)
Ltac milestones_eval :=
  unfold Client.milestones; client_simpl;
  rewrite ?List.filter_app, ?filter_milestone_invoked; client_simpl.

(** The socket closes while retries are left: ['reconnecting'] is emitted and
    the backoff timer is set. *)
Lemma close_step valid_url url k ws s wasClean reason code :
  Client.retrying url k ws s -> (k < 5)%Z ->
  exists s1 t1,
    Client.step valid_url s (Client.WsClosed ws wasClean reason code) = (s1, t1) /\
    Client.milestones t1 =
      [Client.Emitted "reconnecting" (Client.reconnecting_message (k + 1));
       Client.SetTimeout (Client.fresh s) (2 ^ k * 1000)] /\
    Client.timers s1 !! Client.fresh s = Some (Client.ReconnectTimer url) /\
    Client.fresh s1 = S (Client.fresh s) /\
    field_truthy (Client.playerId s1) = true /\
    Client.reconnectAttempts s1 = k.
Proof.
  intros (Hsock & (so & Hso & Hst & Hurl) & Hpid & Hk) Hlt.
  assert ((Client.maxReconnectAttempts <=? k)%Z = false) as Hmax
    by (apply Z.leb_gt; unfold Client.maxReconnectAttempts; lia).
  destruct (decide (Client.ws_readyState so = CLOSED)) as [?|Hst'] eqn:Hdec; [done|].
  destruct (Client.eventListeners s !! "reconnecting") as [cbs|] eqn:HL;
    destruct (Client.reconnectTimeout s) as [old|] eqn:HT;
    try destruct (old =? 0) eqn:Hold.
  all: client_eval; do 2 eexists; (split; [reflexivity|]).
  all: milestones_eval.
  all: unfold Client.reconnecting_message, Client.maxReconnectAttempts.
  all: replace (k + 1 - 1)%Z with k by lia.
  all: by rewrite lookup_insert_eq.
Qed.

(** The socket closes when the retries are used up: the terminal event is
    emitted and nothing is scheduled. *)
Lemma terminal_step valid_url url k ws s wasClean reason code :
  Client.retrying url k ws s -> (5 <= k)%Z ->
  exists s1 t1,
    Client.step valid_url s (Client.WsClosed ws wasClean reason code) = (s1, t1) /\
    Client.milestones t1 =
      [Client.Emitted "max-reconnect-attempts" (msg0 "max-reconnect-attempts")] /\
    Client.reconnectAttempts s1 = k.
Proof.
  intros (Hsock & (so & Hso & Hst & Hurl) & Hpid & Hk) Hle.
  assert ((Client.maxReconnectAttempts <=? k)%Z = true) as Hmax
    by (apply Z.leb_le; unfold Client.maxReconnectAttempts; lia).
  destruct (decide (Client.ws_readyState so = CLOSED)) as [?|Hst'] eqn:Hdec; [done|].
  destruct (Client.eventListeners s !! "max-reconnect-attempts") as [cbs|] eqn:HL.
  all: client_eval; do 2 eexists; (split; [reflexivity|]).
  all: by milestones_eval.
Qed.

(** The backoff timer expires: the retry count goes up by one and [connect]
    creates the next socket with its connection timeout. *)
Lemma timer_step valid_url url k t s :
  Client.timers s !! t = Some (Client.ReconnectTimer url) ->
  field_truthy (Client.playerId s) = true ->
  Client.reconnectAttempts s = k ->
  valid_url url = true ->
  exists s1 t1,
    Client.step valid_url s (Client.TimerFired t) = (s1, t1) /\
    Client.milestones t1 =
      [Client.NewWebSocket (S (Client.fresh s)) url;
       Client.SetTimeout (S (S (Client.fresh s))) 10000] /\
    Client.retrying url (k + 1) (S (Client.fresh s)) s1 /\
    Client.fresh s1 = S (S (S (Client.fresh s))).
Proof.
  intros Ht Hpid Hk Hvalid.
  destruct (Client.socket s) as [old|] eqn:Hsock.
  1: destruct (Client.sockets s !! old) as [[st u p0 t0]|] eqn:Hold; [destruct st|].
  all: client_eval; do 2 eexists; (split; [reflexivity|]).
  all: split; [by milestones_eval|].
  all: split; [|done].
  all: unfold Client.retrying; client_simpl.
  all: rewrite lookup_insert_eq.
  all: split; [done|]; split; [|done]; eexists; split; [done|]; by split.
Qed.

Lemma client_run_cons valid_url ev evs s :
  Client.run valid_url (ev :: evs) s =
  ((Client.run valid_url evs (Client.step valid_url s ev).1).1,
   (Client.step valid_url s ev).2 ++
   (Client.run valid_url evs (Client.step valid_url s ev).1).2).
Proof.
  simpl. destruct (Client.step valid_url s ev) as [s1 t1]. simpl.
  by destruct (Client.run valid_url evs s1) as [s2 t2].
Qed.

(** From the [k]-th retry on: [n] failed retries and the closes around them
    follow the schedule, whatever listeners are registered. *)
Lemma retry_run valid_url url n :
  forall k ws s wasClean reason code,
    Client.retrying url k ws s -> valid_url url = true ->
    (k + Z.of_nat n = 5)%Z ->
    Client.milestones
      (Client.run valid_url
         (Client.WsClosed ws wasClean reason code ::
          Client.failed_retries n (Client.fresh s)) s).2
    = Client.retry_schedule url n k (Client.fresh s).
Proof.
  induction n as [|n IH]; intros k ws s wasClean reason code Hre Hvalid Hk.
  - destruct (terminal_step valid_url url k ws s wasClean reason code Hre)
      as (s1 & t1 & Hstep & Hm & _); [lia|].
    rewrite client_run_cons, Hstep. simpl. by rewrite app_nil_r.
  - destruct (close_step valid_url url k ws s wasClean reason code Hre)
      as (s1 & t1 & Hstep & Hm1 & Htimer & Hfresh1 & Hpid1 & Hk1); [lia|].
    destruct (timer_step valid_url url k (Client.fresh s) s1 Htimer Hpid1 Hk1 Hvalid)
      as (s2 & t2 & Hstep2 & Hm2 & Hre2 & Hfresh2).
    cbn [Client.failed_retries]. rewrite client_run_cons, Hstep.
    cbn [fst snd]. rewrite client_run_cons, Hstep2. cbn [fst snd].
    rewrite !milestones_app, Hm1, Hm2.
    assert (Client.fresh s2 = Client.fresh s + 4) as Hf4 by lia.
    assert (S (Client.fresh s1) = Client.fresh s + 2) as Hf2 by lia.
    rewrite Hf2 in Hre2. rewrite <- Hf4.
    rewrite (IH (k + 1)%Z _ s2 false "" 1006%Z Hre2 Hvalid) by lia.
    cbn [Client.retry_schedule app]. rewrite Hf4, Hfresh1.
    repeat f_equal; lia.
Qed.

Lemma omap_filter {A B} (f : A -> option B) (p : A -> bool) (l : list A) :
  (forall a, p a = false -> f a = None) ->
  omap f (List.filter p l) = omap f l.
Proof.
  intros Hp. induction l as [|a l IH]; [done|]. cbn [List.filter].
  destruct (p a) eqn:Ha.
  - change (omap f (a :: List.filter p l))
      with (match f a with
            | Some y => y :: omap f (List.filter p l)
            | None => omap f (List.filter p l)
            end).
    by rewrite IH.
  - rewrite IH.
    change (omap f (a :: l))
      with (match f a with Some y => y :: omap f l | None => omap f l end).
    by rewrite (Hp a Ha).
Qed.

Lemma emitted_milestones t : Client.emitted (Client.milestones t) = Client.emitted t.
Proof. apply omap_filter. by intros []. Qed.

Lemma scheduled_milestones t :
  Client.scheduled (Client.milestones t) = Client.scheduled t.
Proof. apply omap_filter. by intros []. Qed.

Lemma opened_milestones t : Client.opened (Client.milestones t) = Client.opened t.
Proof. apply omap_filter. by intros []. Qed.

(** C4.  The client has a player id and its socket closes with no retry made
    since the last successful connection; each of the five retries fails (its
    socket closes without opening).  Then, in this order and whatever listeners
    are registered: before the [k]-th retry ['reconnecting'] is emitted with
    attempt [k], maxAttempts 5 and delay [2^(k-1) * 1000], the timer of the
    retry is set with that delay, and the retry creates a new socket (with its
    connection timeout of 10 s); after the fifth failure
    ['max-reconnect-attempts'] is emitted, once, and no timer is set and no
    socket created any more. *)
Theorem reconnect_backoff valid_url url ws s wasClean reason code :
  Client.retrying url 0 ws s ->
  valid_url url = true ->
  let f := Client.fresh s in
  let t := (Client.run valid_url
              (Client.WsClosed ws wasClean reason code :: Client.failed_retries 5 f)
              s).2 in
  Client.milestones t = Client.retry_schedule url 5 0 f /\
  Client.emitted t =
    [("reconnecting", Client.reconnecting_message 1);
     ("reconnecting", Client.reconnecting_message 2);
     ("reconnecting", Client.reconnecting_message 3);
     ("reconnecting", Client.reconnecting_message 4);
     ("reconnecting", Client.reconnecting_message 5);
     ("max-reconnect-attempts", msg0 "max-reconnect-attempts")] /\
  Client.scheduled t =
    [(f, 1000%Z); (f + 3, 10000%Z); (f + 4, 2000%Z); (f + 7, 10000%Z);
     (f + 8, 4000%Z); (f + 11, 10000%Z); (f + 12, 8000%Z); (f + 15, 10000%Z);
     (f + 16, 16000%Z); (f + 19, 10000%Z)] /\
  Client.opened t = [f + 2; f + 6; f + 10; f + 14; f + 18].
Proof.
  intros Hre Hvalid f t.
  assert (Client.milestones t = Client.retry_schedule url 5 0 f) as Hm.
  { subst t f. by apply retry_run. }
  split; [done|].
  rewrite <- emitted_milestones, <- scheduled_milestones, <- opened_milestones, Hm.
  cbn. repeat split.
  all: repeat match goal with
              | |- _ :: _ = _ :: _ => f_equal
              | |- (_, _) = (_, _) => f_equal
              end; lia.
Qed.

Lemma reconnect_backoff_witness :
  Client.emitted
    (Client.run ClientScenario.valid_url
       (Client.WsClosed 2 false "" 1006 :: Client.failed_retries 5 4)
       ClientScenario.connected).2
  = [("reconnecting", Client.reconnecting_message 1);
     ("reconnecting", Client.reconnecting_message 2);
     ("reconnecting", Client.reconnecting_message 3);
     ("reconnecting", Client.reconnecting_message 4);
     ("reconnecting", Client.reconnecting_message 5);
     ("max-reconnect-attempts", msg0 "max-reconnect-attempts")].
Proof.
  assert (Client.retrying ClientScenario.url 0 2 ClientScenario.connected) as Hre.
  { split; [reflexivity|]. split; [|split; reflexivity].
    eexists. split; [vm_compute; reflexivity|]. split; [discriminate|reflexivity]. }
  exact (proj1 (proj2 (reconnect_backoff ClientScenario.valid_url ClientScenario.url
                         2 ClientScenario.connected false "" 1006 Hre eq_refl))).
Defined.

(** ** The promise of [connect] *)

Lemma message_keeps_promises valid_url s ws data :
  Client.promises (Client.step valid_url s (Client.WsMessage ws data)).1
  = Client.promises s.
Proof.
  unfold Client.step, Client.handle. rewrite exec_bind. unfold Trace.get at 1.
  cbv beta iota zeta.
  destruct (Client.sockets s !! ws) as [so|]; [|done].
  destruct (decide (Client.ws_readyState so = OPEN)); [|done].
  destruct data as [message|]; [|done].
  unfold Client.onmessage. destruct (Trace.exec _ s) as [s' t] eqn:He.
  rewrite exec_handleMessage in He. injection He as <- <-. simpl.
  unfold store_ids.
  by destruct (field_truthy (m_playerId message)),
              (field_truthy (m_roomId message)),
              (field_truthy (m_roomCode message)).
Qed.

(** C5, as the code has it.  [connect(url)] creates a pending promise, a
    connecting socket and a timeout of 10 s.  The promise is resolved when the
    socket opens; receiving a message, connection-established or other, never
    settles a promise.  It is rejected with the timeout error when the timeout
    expires while the current socket is not open, and rejected when the socket
    closes uncleanly and no player id has been recorded; when a player id has
    been recorded (a reconnection) a close leaves the promise pending. *)
Theorem connect_promise valid_url url s :
  valid_url url = true ->
  let p := Client.fresh s in
  let ws := S (Client.fresh s) in
  let t := S (S (Client.fresh s)) in
  let s1 := (Client.step valid_url s (Client.CallConnect url)).1 in
  (Client.promises s1 !! p = Some (Client.mkPromise Client.Pending Client.Caller) /\
   Client.socket s1 = Some ws /\
   Client.sockets s1 !! ws = Some (Client.mkSocket CONNECTING url p t) /\
   Client.timers s1 !! t = Some (Client.ConnectionTimer p) /\
   Client.scheduled (Client.step valid_url s (Client.CallConnect url)).2
   = [(t, 10000%Z)]) /\
  (forall s' ws' so k,
     Client.sockets s' !! ws' = Some so ->
     Client.ws_readyState so = CONNECTING ->
     Client.socket s' <> None ->
     Client.promises s' !! Client.ws_promise so
     = Some (Client.mkPromise Client.Pending k) ->
     Client.promises (Client.step valid_url s' (Client.WsOpened ws')).1
       !! Client.ws_promise so
     = Some (Client.mkPromise Client.Fulfilled k)) /\
  (forall s' ws' data,
     Client.promises (Client.step valid_url s' (Client.WsMessage ws' data)).1
     = Client.promises s') /\
  (forall s' t' p' ws' k,
     Client.timers s' !! t' = Some (Client.ConnectionTimer p') ->
     Client.socket s' = Some ws' ->
     Client.socket_state s' ws' <> Some OPEN ->
     Client.promises s' !! p' = Some (Client.mkPromise Client.Pending k) ->
     Client.promises (Client.step valid_url s' (Client.TimerFired t')).1 !! p'
     = Some (Client.mkPromise (Client.Rejected Client.ConnectionTimeout) k)) /\
  (forall s' ws' so k wasClean reason code,
     Client.sockets s' !! ws' = Some so ->
     Client.ws_readyState so <> CLOSED ->
     Client.socket s' <> None ->
     Client.promises s' !! Client.ws_promise so
     = Some (Client.mkPromise Client.Pending k) ->
     Client.promises
       (Client.step valid_url s' (Client.WsClosed ws' wasClean reason code)).1
       !! Client.ws_promise so
     = Some (Client.mkPromise
               (if field_truthy (Client.playerId s') then Client.Pending
                else if wasClean then Client.Pending
                else Client.Rejected
                       (Client.ConnectionClosed
                          (if truthy reason then reason else "Unknown reason") code))
               k)).
Proof.
  intros Hvalid p ws t s1. split; [|split; [|split; [|split]]].
  - subst p ws t s1.
    destruct (Client.socket s) as [old|] eqn:Hsock.
    1: destruct (Client.sockets s !! old) as [[st u p0 t0]|] eqn:Hold;
         [destruct st|].
    all: client_eval; rewrite ?lookup_insert_eq; repeat split; try done.
    all: by rewrite lookup_insert_eq.
  - intros s' ws' so k Hso Hst Hsock Hp.
    destruct (Client.socket s') as [cur|] eqn:Hcur; [clear Hsock|done].
    destruct (decide (Client.ws_readyState so = CONNECTING)) as [?|?] eqn:Hdec;
      [|done].
    destruct k.
    + client_eval. by rewrite lookup_insert_eq.
    + destruct (Client.eventListeners s' !! "reconnected") as [cbs|] eqn:HL;
        destruct (Client.roomCode s') as [rc|] eqn:Hrc;
        try destruct (truthy rc) eqn:Htr.
      all: client_eval; try by rewrite lookup_insert_eq.
      all: destruct (_ !! cur) as [so'|]; client_simpl;
        repeat match goal with
               | |- context [decide ?P] => destruct (decide P)
               end; client_simpl; by rewrite lookup_insert_eq.
  - apply message_keeps_promises.
  - intros s' t' p' ws' k Ht Hsock Hst Hp.
    unfold Client.socket_state in Hst.
    destruct (Client.sockets s' !! ws') as [[st u p0 t0]|] eqn:Hso.
    + destruct st; try done; client_eval;
        (destruct (decide _) as [?|?]; [done|]); client_eval;
        by rewrite lookup_insert_eq.
    + client_eval. destruct (decide _) as [?|?]; [done|]. client_eval.
      by rewrite lookup_insert_eq.
  - intros s' ws' so k wasClean reason code Hso Hst Hsock Hp.
    destruct (Client.socket s') as [cur|] eqn:Hcur; [clear Hsock|done].
    destruct (decide (Client.ws_readyState so = CLOSED)) as [?|?] eqn:Hdec;
      [done|].
    destruct (field_truthy (Client.playerId s')) eqn:Hpid.
    + destruct (Client.maxReconnectAttempts <=? Client.reconnectAttempts s')%Z
        eqn:Hmax.
      * destruct (Client.eventListeners s' !! "max-reconnect-attempts") eqn:HL;
          by client_eval.
      * destruct (Client.eventListeners s' !! "reconnecting") eqn:HL;
          destruct (Client.reconnectTimeout s') as [old|] eqn:HT;
          try destruct (old =? 0) eqn:Hold; by client_eval.
    + destruct wasClean; client_eval; [done|]. by rewrite lookup_insert_eq.
Qed.

Lemma connect_promise_witness :
  let s1 := (Client.step ClientScenario.valid_url Client.init
               (Client.CallConnect ClientScenario.url)).1 in
  Client.promises (Client.step ClientScenario.valid_url s1 (Client.WsOpened 2)).1 !! 1
  = Some (Client.mkPromise Client.Fulfilled Client.Caller) /\
  Client.promises (Client.step ClientScenario.valid_url s1 (Client.TimerFired 3)).1 !! 1
  = Some (Client.mkPromise (Client.Rejected Client.ConnectionTimeout) Client.Caller) /\
  Client.promises
    (Client.step ClientScenario.valid_url s1 (Client.WsClosed 2 false "" 1006)).1 !! 1
  = Some (Client.mkPromise
            (Client.Rejected (Client.ConnectionClosed "Unknown reason" 1006))
            Client.Caller).
Proof.
  intros s1.
  destruct (connect_promise ClientScenario.valid_url ClientScenario.url Client.init
              eq_refl) as (_ & Hopen & _ & Htimeout & Hclose).
  split; [|split].
  - apply (Hopen s1 2 (Client.mkSocket CONNECTING ClientScenario.url 1 3)
             Client.Caller); vm_compute; (reflexivity || discriminate).
  - apply (Htimeout s1 3 1 2 Client.Caller); vm_compute;
      (reflexivity || discriminate).
  - apply (Hclose s1 2 (Client.mkSocket CONNECTING ClientScenario.url 1 3)
             Client.Caller false "" 1006%Z); vm_compute;
      (reflexivity || discriminate).
Defined.

(** C5, as the spec words it, fails on the resolution: after [connect(url)]
    and the open event of the socket the promise of the call is resolved,
    although no message, hence no connection-established, has been received
    (the client has no player id yet). *)
Lemma connect_resolves_on_open_counterexample :
  Client.promises
    (Client.step ClientScenario.valid_url Client.init
       (Client.CallConnect ClientScenario.url)).1 !! 1
  = Some (Client.mkPromise Client.Pending Client.Caller) /\
  Client.promises ClientScenario.opened_only.1 !! 1
  = Some (Client.mkPromise Client.Fulfilled Client.Caller) /\
  Client.resolved ClientScenario.opened_only.2 = [1] /\
  Client.playerId ClientScenario.opened_only.1 = None.
Proof. repeat split; vm_compute; reflexivity. Qed.

(** ** The peer session: who starts a negotiation *)

Section KeepsRules.
Context {St Eff : Type}.
Variable P : St -> Prop.
Variable R : St -> St -> Prop.
Variable T : list Eff -> Prop.
Hypothesis R_refl : forall s, R s s.
Hypothesis R_trans : forall s1 s2 s3, R s1 s2 -> R s2 s3 -> R s1 s3.
Hypothesis P_step : forall s s', P s -> R s s' -> P s'.
Hypothesis T_nil : T [].
Hypothesis T_app : forall t1 t2, T t1 -> T t2 -> T (t1 ++ t2).

Lemma Keeps_ret {A} (a : A) s : Keeps P R T (Trace.ret a) s.
Proof. intros H. unfold wp. simpl. auto. Qed.

Lemma Keeps_get s : Keeps P R T Trace.get s.
Proof. intros H. unfold wp. simpl. auto. Qed.

Lemma Keeps_tell t s : T t -> Keeps P R T (Trace.tell t) s.
Proof. intros Ht H. unfold wp. simpl. auto. Qed.

Lemma Keeps_modify f s : R s (f s) -> Keeps P R T (Trace.modify f) s.
Proof. intros Hf H. unfold wp. simpl. auto. Qed.

Lemma Keeps_bind {A B} (m : @Trace.M St Eff A) (k : A -> @Trace.M St Eff B) s :
  Keeps P R T m s -> (forall a s', Keeps P R T (k a) s') ->
  Keeps P R T (Trace.bind m k) s.
Proof.
  intros Hm Hk H. specialize (Hm H). unfold wp, Trace.bind in *.
  destruct (m s) as [[a s1] t1]. destruct Hm as [HR1 HT1].
  specialize (Hk a s1 (P_step _ _ H HR1)). unfold wp in Hk.
  destruct (k a s1) as [[b s2] t2]. destruct Hk as [HR2 HT2]. eauto.
Qed.

(** After reading the state, the rest runs from that very state. *)
Lemma Keeps_bind_get {B} (k : St -> @Trace.M St Eff B) s :
  Keeps P R T (k s) s -> Keeps P R T (Trace.bind Trace.get k) s.
Proof.
  intros Hk H. specialize (Hk H). unfold wp, Trace.bind, Trace.get in *.
  destruct (k s s) as [[b s2] t2]. by rewrite app_nil_l.
Qed.

Lemma Keeps_when b (m : @Trace.M St Eff unit) s :
  Keeps P R T m s -> Keeps P R T (Trace.when b m) s.
Proof. destruct b; [done|]. intros _. apply Keeps_ret. Qed.

End KeepsRules.

Lemma same_role_refl s : same_role s s.
Proof. split; auto. Qed.

Lemma same_role_trans s1 s2 s3 : same_role s1 s2 -> same_role s2 s3 -> same_role s1 s3.
Proof.
  intros [Hh1 Hpc1] [Hh2 Hpc2]. split; [congruence|].
  destruct Hpc2 as [Hpc2 | Hpc2]; rewrite Hpc2; auto.
Qed.

Lemma answerer_step s s' : answerer s -> same_role s s' -> answerer s'.
Proof. unfold answerer. intros H [Hh _]. congruence. Qed.

Lemma no_initiative_app t1 t2 :
  no_initiative t1 -> no_initiative t2 -> no_initiative (t1 ++ t2).
Proof. apply Forall_app_2. Qed.

(** The side conditions of the rules, for the two relations used below. *)
Ltac keeps_side :=
  solve [ exact same_role_refl | exact same_role_trans | exact answerer_step
        | exact no_initiative_app | exact (Forall_nil_2 _)
        | exact Z.le_refl | exact Z.le_trans | done ].

(** Walk through a method: sequencing, reads, updates, calls on the runtime,
    conditionals; [tac] proves the calls of other methods, [upd] the updates
    of the state and [out] the calls on the runtime. *)
Ltac keeps_step tac upd out :=
  first
    [ tac
    | apply Keeps_ret; keeps_side
    | apply Keeps_get; keeps_side
    | apply Keeps_bind_get; cbv beta
    | apply Keeps_bind; [keeps_side .. | | intros ? ?]
    | apply Keeps_when; [keeps_side .. |]
    | apply Keeps_tell; [keeps_side .. | out]
    | apply Keeps_modify; [keeps_side .. | upd]
    | match goal with
      | |- Keeps _ _ _ (if ?b then _ else _) _ => destruct b
      | |- Keeps _ _ _ (match ?x with _ => _ end) _ => destruct x
      end ].

Ltac calm_go tac :=
  unfold Calm;
  repeat keeps_step tac
    ltac:(split; [reflexivity | first [by left | by right]])
    ltac:(repeat constructor).

Lemma Calm_new_id s : Calm Peer.new_id s.
Proof. unfold Peer.new_id. calm_go fail. Qed.

Lemma Calm_next_sequence s : Calm Peer.next_sequence s.
Proof. unfold Peer.next_sequence. calm_go fail. Qed.

Lemma Calm_notifyMessageListeners message s :
  Calm (Peer.notifyMessageListeners message) s.
Proof.
  unfold Peer.notifyMessageListeners.
  apply Keeps_bind_get. apply Keeps_tell; [keeps_side|].
  induction (Peer.messageListeners s); by constructor.
Qed.

Lemma Calm_stopHeartbeat s : Calm Peer.stopHeartbeat s.
Proof. unfold Peer.stopHeartbeat. calm_go fail. Qed.

Lemma Calm_sendMessage env message s : Calm (Peer.sendMessage env message) s.
Proof. unfold Peer.sendMessage. calm_go fail. Qed.

Lemma Calm_startHeartbeat env s : Calm (Peer.startHeartbeat env) s.
Proof.
  unfold Peer.startHeartbeat.
  calm_go ltac:(first [apply Calm_stopHeartbeat | apply Calm_new_id]).
Qed.

Lemma Calm_closePeerConnection s : Calm Peer.closePeerConnection s.
Proof.
  unfold Peer.closePeerConnection. calm_go ltac:(apply Calm_stopHeartbeat).
Qed.

(** The heart of the restart policy: for an answerer [restartConnection] does
    nothing at all. *)
Lemma Calm_restartConnection s : Calm Peer.restartConnection s.
Proof.
  unfold Peer.restartConnection.
  apply Keeps_bind_get. intros H.
  unfold answerer in H. rewrite H. unfold wp. simpl.
  split; [apply same_role_refl|constructor].
Qed.

Lemma Calm_handleDisconnection env s : Calm (Peer.handleDisconnection env) s.
Proof.
  unfold Peer.handleDisconnection.
  calm_go ltac:(first [apply Calm_stopHeartbeat | apply Calm_next_sequence
                      | apply Calm_notifyMessageListeners
                      | apply Calm_restartConnection]).
Qed.

Lemma Calm_handleSuccessfulReconnection env s :
  Calm (Peer.handleSuccessfulReconnection env) s.
Proof.
  unfold Peer.handleSuccessfulReconnection.
  calm_go ltac:(first [apply Calm_next_sequence
                      | apply Calm_notifyMessageListeners]).
Qed.

Lemma Calm_heartbeat env s : Calm (Peer.heartbeat env) s.
Proof.
  unfold Peer.heartbeat.
  calm_go ltac:(first [apply Calm_next_sequence | apply Calm_sendMessage
                      | apply Calm_handleDisconnection]).
Qed.

Lemma Calm_handle env ev s : passive ev = true -> Calm (Peer.handle env ev) s.
Proof.
  intros Hev. unfold Peer.handle.
  apply Keeps_bind_get.
  destruct ev; try discriminate Hev;
    unfold Peer.handleAnswer, Peer.handleIceCandidate, Peer.on_player_disconnected,
      Peer.on_reconnecting, Peer.on_reconnected, Peer.onicecandidate,
      Peer.oniceconnectionstatechange, Peer.ondatachannel, Peer.channel_onopen,
      Peer.channel_onclose, Peer.channel_onmessage, Peer.createOffer_1,
      Peer.handleOffer_1, Peer.handleOffer_2, Peer.handleOffer_3,
      Peer.sendPositionUpdate, Peer.sendPlayerAction;
    calm_go ltac:(first [apply Calm_stopHeartbeat | apply Calm_next_sequence
                        | apply Calm_notifyMessageListeners
                        | apply Calm_restartConnection
                        | apply Calm_handleDisconnection
                        | apply Calm_handleSuccessfulReconnection
                        | apply Calm_startHeartbeat
                        | apply Calm_sendMessage
                        | apply Calm_heartbeat
                        | apply Calm_closePeerConnection]).
Qed.

Ltac unfold_peer :=
  cbv beta iota zeta delta
    [Peer.step Peer.handle Peer.on_player_joined Peer.on_offer
     Peer.on_player_disconnected Peer.on_reconnecting Peer.on_reconnected
     Peer.handleDisconnection Peer.restartConnection Peer.createPeerConnection
     Peer.closePeerConnection Peer.createOffer Peer.createOffer_1
     Peer.createOffer_2 Peer.handleOffer Peer.handleAnswer
     Peer.handleIceCandidate Peer.startHeartbeat
     Peer.heartbeat Peer.channel_onopen Peer.channel_onclose
     Peer.channel_onmessage Peer.handleSuccessfulReconnection
     Peer.notifyMessageListeners Peer.next_sequence Peer.new_id
     Peer.channel_state Peer.active_channel
     Peer.set_peerConnection Peer.set_dataChannel Peer.set_remoteDataChannel
     Peer.set_isHost Peer.set_isConnected Peer.set_messageListeners
     Peer.set_sequence Peer.set_heartbeatInterval Peer.set_heartbeatTimeout
     Peer.set_lastHeartbeatAck Peer.set_reconnecting Peer.set_channels
     Peer.set_iceConnectionState Peer.set_fresh
     Trace.exec Trace.bind Trace.get Trace.modify Trace.tell Trace.when Trace.ret].

Ltac peer_simpl :=
  cbn -[lookup insert delete Z.pow Z.mul Z.ltb Z.add Z.sub Nat.eqb Peer.js_incr
        Peer.playerId_or_unknown Peer.system_message Peer.stopHeartbeat
        Peer.sendMessage].

(** [stopHeartbeat] only touches the two timer fields, and leaves no
    interval behind (timer ids are positive). *)
Lemma stopHeartbeat_run s :
  exists hi ht t,
    Peer.stopHeartbeat s
    = (tt, Peer.mkState (Peer.peerConnection s) (Peer.dataChannel s)
             (Peer.remoteDataChannel s) (Peer.isHost s) (Peer.isConnected s)
             (Peer.messageListeners s) (Peer.sequence s) hi ht
             (Peer.lastHeartbeatAck s) (Peer.reconnecting s) (Peer.channels s)
             (Peer.iceConnectionState s) (Peer.fresh s), t) /\
    List.filter Peer.initiates t = [] /\
    (hi = None \/ Peer.heartbeatInterval s = Some 0) /\
    (forall id, Peer.heartbeatInterval s = Some id -> id <> 0 ->
                In (Peer.ClearInterval id) t).
Proof.
  destruct s as [pc dc rdc host conn ls seq hi ht ack rec chs ice f].
  destruct hi as [[|id1]|]; destruct ht as [[|id2]|];
    do 3 eexists; (split; [reflexivity|]); (split; [reflexivity|]);
    (split; [auto|]); simpl; intros id [= <-] Hid; try done; by left.
Qed.

(** [closePeerConnection] leaves a session without connection and channels;
    the role, the listeners, the counters and the relay flag stay. *)
Lemma closePeerConnection_run s :
  exists hi ht chs ice t,
    Peer.closePeerConnection s
    = (tt, Peer.mkState None None None (Peer.isHost s) false
             (Peer.messageListeners s) (Peer.sequence s) hi ht
             (Peer.lastHeartbeatAck s) (Peer.reconnecting s) chs ice
             (Peer.fresh s), t) /\
    List.filter Peer.initiates t = [] /\
    (hi = None \/ Peer.heartbeatInterval s = Some 0).
Proof.
  destruct s as [pc dc rdc host conn ls seq hi ht ack rec chs ice f].
  destruct (stopHeartbeat_run
              (Peer.mkState pc dc rdc host conn ls seq hi ht ack rec chs ice f))
    as (hi' & ht' & t0 & Hstop & Ht0 & Hhi & _).
  cbn -[Peer.stopHeartbeat] in Hstop, Hhi.
  unfold Peer.closePeerConnection. unfold Trace.bind at 1. rewrite Hstop.
  destruct dc as [ch|]; [destruct (chs !! ch) as [[]|] eqn:Hch|];
    destruct pc as [pc|].
  all: unfold_peer; peer_simpl; rewrite ?Hch; peer_simpl.
  all: do 5 eexists; (split; [reflexivity|]).
  all: rewrite ?List.filter_app, Ht0; by split.
Qed.

Lemma filter_initiates_notify message listeners :
  List.filter Peer.initiates
    (map (fun listener => Peer.Notify listener message) listeners) = [].
Proof. by induction listeners. Qed.

(** Running a sequence of two computations, one after the other. *)
Lemma bind_run {St Eff A B} (m : @Trace.M St Eff A) (k : A -> @Trace.M St Eff B)
    s a s1 t1 b s2 t2 :
  m s = (a, s1, t1) -> k a s1 = (b, s2, t2) ->
  Trace.bind m k s = (b, s2, t1 ++ t2).
Proof. intros Hm Hk. unfold Trace.bind. by rewrite Hm, Hk. Qed.

Lemma exec_run {St Eff A} (m : @Trace.M St Eff A) s a s1 t1 :
  m s = (a, s1, t1) -> Trace.exec m s = (s1, t1).
Proof. intros Hm. unfold Trace.exec. by rewrite Hm. Qed.

Ltac run_step := eapply bind_run; [reflexivity|]; cbv beta.

(** [createPeerConnection] followed by [createOffer] in the offerer's role. *)
Lemma restartConnection_offerer s :
  Peer.isHost s = true ->
  exists s' t,
    Peer.restartConnection s = (tt, s', t) /\
    Peer.isHost s' = true /\ Peer.isConnected s' = false /\
    Peer.peerConnection s' = Some (Peer.fresh s) /\
    Peer.dataChannel s' = Some (S (Peer.fresh s)) /\
    Peer.sequence s' = Peer.sequence s /\
    Peer.messageListeners s' = Peer.messageListeners s /\
    Peer.reconnecting s' = Peer.reconnecting s /\
    Peer.fresh s' = S (S (Peer.fresh s)) /\
    (Peer.heartbeatInterval s = None -> Peer.heartbeatInterval s' = None) /\
    List.filter Peer.initiates t =
      [Peer.NewRTCPeerConnection (Peer.fresh s); Peer.PcCreateOffer (Peer.fresh s)].
Proof.
  destruct s as [pc dc rdc host conn ls seq hi ht ack rec chs ice f].
  simpl. intros ->.
  destruct (closePeerConnection_run
              (Peer.mkState pc dc rdc true conn ls seq hi ht ack rec chs ice f))
    as (hi2 & ht2 & chs2 & ice2 & t1 & Hclose & Ht1 & Hhi2).
  cbn -[Peer.closePeerConnection] in Hclose, Hhi2.
  do 2 eexists. split.
  { unfold Peer.restartConnection. run_step. cbn [Peer.isHost].
    eapply bind_run.
    - unfold Peer.createPeerConnection.
      eapply bind_run; [apply Hclose|]. reflexivity.
    - reflexivity. }
  cbn -[insert].
  repeat (split; [reflexivity|]).
  split; [intros ->; by destruct Hhi2|].
  rewrite !List.filter_app, Ht1. reflexivity.
Qed.

(** [handleDisconnection] of an offerer that is not reconnecting to the relay:
    the replacement peer connection, its data channel, and a new offer. *)
Lemma handleDisconnection_offerer env s :
  Peer.isHost s = true -> Peer.reconnecting s = false ->
  exists s' t,
    Trace.exec (Peer.handleDisconnection env) s = (s', t) /\
    Peer.isHost s' = true /\ Peer.isConnected s' = false /\
    Peer.peerConnection s' = Some (Peer.fresh s) /\
    Peer.dataChannel s' = Some (S (Peer.fresh s)) /\
    List.filter Peer.initiates t =
      [Peer.NewRTCPeerConnection (Peer.fresh s); Peer.PcCreateOffer (Peer.fresh s)].
Proof.
  destruct s as [pc dc rdc host conn ls seq hi ht ack rec chs ice f].
  simpl. intros -> ->.
  destruct (stopHeartbeat_run
              (Peer.mkState pc dc rdc true false ls seq hi ht ack false chs ice f))
    as (hi1 & ht1 & t0 & Hstop & Ht0 & _).
  cbn -[Peer.stopHeartbeat] in Hstop.
  destruct (restartConnection_offerer
              (Peer.mkState pc dc rdc true false ls (Peer.js_incr seq) hi1 ht1 ack
                 false chs ice f) eq_refl)
    as (s' & t1 & Hrestart & Hhost & Hconn & Hpc & Hdc & _ & _ & _ & _ & _ & Ht1).
  cbn -[Peer.restartConnection Peer.js_incr] in Hrestart, Hpc, Hdc.
  exists s', ([] ++ t0 ++ [] ++
              map (fun listener =>
                     Peer.Notify listener (Peer.system_message env seq "disconnected"))
                ls ++ [] ++ t1).
  split.
  { apply exec_run with (a := tt). unfold Peer.handleDisconnection.
    run_step. eapply bind_run; [apply Hstop|].
    run_step. run_step. run_step. apply Hrestart. }
  repeat (split; [assumption|]).
  rewrite !List.filter_app, Ht0, Ht1, filter_initiates_notify. reflexivity.
Qed.

Lemma restartConnection_answerer s :
  Peer.isHost s = false -> Peer.restartConnection s = (tt, s, []).
Proof.
  intros H. unfold Peer.restartConnection, Trace.bind, Trace.get. by rewrite H.
Qed.

(** C3.  For a session in the answerer's role [restartConnection] does
    nothing, and no event other than the two that assign the role (a player
    joined, an offer arrived) or the completion of an offer begun earlier makes
    it create a peer connection or an offer: it keeps the role and its peer
    connection (or drops the connection).  For a session in the offerer's role
    that is not reconnecting to the relay, [handleDisconnection] creates the
    replacement peer connection with its data channel and starts a new offer,
    which is sent to the relay when the local description is set. *)
Theorem restart_only_by_offerer env s :
  (Peer.isHost s = false -> Trace.exec Peer.restartConnection s = (s, [])) /\
  (Peer.isHost s = false ->
   forall ev, passive ev = true ->
     Peer.isHost (Peer.step env s ev).1 = false /\
     (Peer.peerConnection (Peer.step env s ev).1 = Peer.peerConnection s \/
      Peer.peerConnection (Peer.step env s ev).1 = None) /\
     Forall (fun e => Peer.initiates e = false) (Peer.step env s ev).2) /\
  (Peer.isHost s = true -> Peer.reconnecting s = false ->
   let r := Trace.exec (Peer.handleDisconnection env) s in
   Peer.isHost r.1 = true /\ Peer.isConnected r.1 = false /\
   Peer.peerConnection r.1 = Some (Peer.fresh s) /\
   Peer.dataChannel r.1 = Some (S (Peer.fresh s)) /\
   List.filter Peer.initiates r.2 =
     [Peer.NewRTCPeerConnection (Peer.fresh s); Peer.PcCreateOffer (Peer.fresh s)]) /\
  (forall offer,
     Peer.step env s (Peer.LocalOfferSet offer) = (s, [Peer.SignalingSendOffer offer])).
Proof.
  split; [|split; [|split]].
  - intros H. apply exec_run with (a := tt). by apply restartConnection_answerer.
  - intros H ev Hev. pose proof (Calm_handle env ev s Hev H) as Hc.
    unfold wp, same_role in Hc. unfold Peer.step, Trace.exec.
    destruct (Peer.handle env ev s) as [[a s'] t]. simpl.
    destruct Hc as [[Hh Hpc] Ht]. split; [congruence|]. by split.
  - intros Hhost Hrec r.
    destruct (handleDisconnection_offerer env s Hhost Hrec) as (s' & t & Hrun & H).
    subst r. rewrite Hrun. exact H.
  - done.
Qed.

Lemma restart_only_by_offerer_witness :
  Trace.exec Peer.restartConnection PeerScenario.guest = (PeerScenario.guest, []) /\
  (Peer.isHost
     (Peer.step (PeerScenario.env 5000) PeerScenario.guest Peer.PlayerDisconnected).1
   = false /\
   (Peer.peerConnection
      (Peer.step (PeerScenario.env 5000) PeerScenario.guest Peer.PlayerDisconnected).1
    = Peer.peerConnection PeerScenario.guest \/
    Peer.peerConnection
      (Peer.step (PeerScenario.env 5000) PeerScenario.guest Peer.PlayerDisconnected).1
    = None) /\
   Forall (fun e => Peer.initiates e = false)
     (Peer.step (PeerScenario.env 5000) PeerScenario.guest Peer.PlayerDisconnected).2) /\
  List.filter Peer.initiates
    (Trace.exec (Peer.handleDisconnection (PeerScenario.env 5000)) PeerScenario.host).2
  = [Peer.NewRTCPeerConnection 4; Peer.PcCreateOffer 4].
Proof.
  destruct (restart_only_by_offerer (PeerScenario.env 5000) PeerScenario.guest)
    as (Hnoop & Hpassive & _ & _).
  destruct (restart_only_by_offerer (PeerScenario.env 5000) PeerScenario.host)
    as (_ & _ & Hhost & _).
  split; [apply Hnoop; reflexivity|].
  split; [apply Hpassive; reflexivity|].
  apply Hhost; reflexivity.
Defined.

(** ** The peer session: heartbeat *)

Lemma js_incr_le n : (n <= Peer.js_incr n)%Z.
Proof. unfold Peer.js_incr. destruct (n <? 2 ^ 53)%Z; lia. Qed.

Lemma js_incr_lt n : (n < 2 ^ 53)%Z -> Peer.js_incr n = (n + 1)%Z.
Proof.
  intros H. unfold Peer.js_incr.
  destruct (n <? 2 ^ 53)%Z eqn:E; [done|]. apply Z.ltb_ge in E. lia.
Qed.

Lemma sequence_le_refl s : sequence_le s s.
Proof. unfold sequence_le. lia. Qed.

Lemma sequence_le_trans s1 s2 s3 :
  sequence_le s1 s2 -> sequence_le s2 s3 -> sequence_le s1 s3.
Proof. unfold sequence_le. lia. Qed.

Ltac mono_side :=
  solve [ exact sequence_le_refl | exact sequence_le_trans | done ].

Ltac mono_step :=
  first
    [ apply Keeps_ret; mono_side
    | apply Keeps_get; mono_side
    | apply Keeps_bind_get; cbv beta
    | apply Keeps_bind; [mono_side .. | | intros ? ?]
    | apply Keeps_when; [mono_side .. |]
    | apply Keeps_tell; mono_side
    | apply Keeps_modify;
        [mono_side .. | unfold sequence_le; cbn; first [lia | apply js_incr_le]]
    | match goal with
      | |- Keeps _ _ _ (if ?b then _ else _) _ => destruct b
      | |- Keeps _ _ _ (match ?x with _ => _ end) _ => destruct x
      end ].

(** No event makes the sequence counter go down. *)
Lemma Monotone_handle env ev s : Monotone (Peer.handle env ev) s.
Proof.
  unfold Monotone, Peer.handle. apply Keeps_bind_get.
  destruct ev;
    unfold Peer.on_player_joined, Peer.on_offer, Peer.handleAnswer,
      Peer.handleIceCandidate, Peer.on_player_disconnected,
      Peer.on_reconnecting, Peer.on_reconnected, Peer.onicecandidate,
      Peer.oniceconnectionstatechange, Peer.ondatachannel, Peer.channel_onopen,
      Peer.channel_onclose, Peer.channel_onmessage, Peer.createOffer_1,
      Peer.createOffer_2, Peer.handleOffer_1, Peer.handleOffer_2,
      Peer.handleOffer_3, Peer.sendPositionUpdate, Peer.sendPlayerAction;
    repeat mono_step.
Qed.

Lemma step_sequence_le env s ev :
  (Peer.sequence s <= Peer.sequence (Peer.step env s ev).1)%Z.
Proof.
  pose proof (Monotone_handle env ev s I) as H. unfold wp in H.
  unfold Peer.step, Trace.exec. destruct (Peer.handle env ev s) as [[a s'] t].
  by destruct H.
Qed.

(** [sendMessage] leaves the session as it is. *)
Lemma sendMessage_state env message s :
  exists b t, Peer.sendMessage env message s = (b, s, t).
Proof.
  unfold Peer.sendMessage, Trace.bind, Trace.get, Trace.ret, Trace.tell.
  destruct (negb (Peer.isConnected s)); [by do 2 eexists|].
  destruct (if Peer.isHost s then _ else _); [|by do 2 eexists].
  destruct (decide _); [|by do 2 eexists].
  destruct (Peer.send_throws env); by do 2 eexists.
Qed.

(** When a session that can send calls [sendMessage] and [channel.send] does
    not throw, the message goes out on the active channel. *)
Lemma sendMessage_sends env message s channel :
  Peer.isConnected s = true ->
  Peer.active_channel s = Some channel ->
  Peer.channels s !! channel = Some Peer.ch_open ->
  Peer.send_throws env = false ->
  Peer.sendMessage env message s = (true, s, [Peer.ChannelSend channel message]).
Proof.
  intros Hconn Hact Hopen Hthrow.
  unfold Peer.sendMessage, Trace.bind, Trace.get, Trace.ret, Trace.tell.
  unfold Peer.active_channel in Hact. rewrite Hconn, Hact. simpl.
  unfold Peer.channel_state. rewrite Hopen, Hthrow.
  by rewrite decide_True.
Qed.

(** [handleDisconnection] ends with the session disconnected and, for a live
    interval, with the heartbeat stopped. *)
Lemma handleDisconnection_disconnects env s id :
  Peer.heartbeatInterval s = Some id -> id <> 0 ->
  exists s' t,
    Peer.handleDisconnection env s = (tt, s', t) /\
    Peer.isConnected s' = false /\ Peer.heartbeatInterval s' = None /\
    In (Peer.ClearInterval id) t.
Proof.
  destruct s as [pc dc rdc host conn ls seq hi ht ack rec chs ice f].
  simpl. intros -> Hid.
  destruct (stopHeartbeat_run
              (Peer.mkState pc dc rdc host false ls seq (Some id) ht ack rec chs
                 ice f))
    as (hi1 & ht1 & t0 & Hstop & _ & Hhi & Hclear).
  cbn -[Peer.stopHeartbeat] in Hstop, Hhi, Hclear.
  assert (hi1 = None) as ->.
  { destruct Hhi as [?|Hzero]; [done|]. congruence. }
  specialize (Hclear id eq_refl Hid).
  assert (exists s' t1,
    (if negb rec then Peer.restartConnection else Trace.ret tt)
      (Peer.mkState pc dc rdc host false ls (Peer.js_incr seq) None ht1 ack rec
         chs ice f) = (tt, s', t1) /\
    Peer.isConnected s' = false /\ Peer.heartbeatInterval s' = None)
    as (s' & t1 & Hrestart & Hconn & Hhi').
  { destruct rec; [by do 2 eexists|]. destruct host.
    - edestruct restartConnection_offerer
        as (s' & t1 & Hrestart & _ & Hconn & _ & _ & _ & _ & _ & _ & Hhi' & _);
        [|exists s', t1; split; [exact Hrestart|split; [exact Hconn|by apply Hhi']]].
      done.
    - do 2 eexists. split; [by apply restartConnection_answerer|done]. }
  exists s', ([] ++ t0 ++ [] ++
              map (fun listener =>
                     Peer.Notify listener (Peer.system_message env seq "disconnected"))
                ls ++ [] ++ t1).
  split.
  { unfold Peer.handleDisconnection.
    run_step. eapply bind_run; [apply Hstop|].
    run_step. run_step. run_step. apply Hrestart. }
  split; [done|]. split; [done|].
  apply in_or_app. right. apply in_or_app. by left.
Qed.

Lemma step_run env ev s s' t t' :
  Peer.handle env ev s = (tt, s', t') -> t' = t -> Peer.step env s ev = (s', t).
Proof. intros H <-. unfold Peer.step, Trace.exec. by rewrite H. Qed.

(** What [sendMessage] returns, and what it writes. *)
Lemma sendMessage_run env message s :
  exists sent : bool,
    Peer.sendMessage env message s
    = (sent, s,
       if sent then
         match Peer.active_channel s with
         | Some channel => [Peer.ChannelSend channel message]
         | None => []
         end
       else []) /\
    (sent = true <-> Peer.can_send s /\ Peer.send_throws env = false).
Proof.
  unfold Peer.sendMessage, Peer.can_send, Peer.active_channel, Peer.channel_state,
    Trace.bind, Trace.get, Trace.ret, Trace.tell.
  destruct (Peer.isConnected s) eqn:Hconn; simpl.
  2: { exists false. split; [done|]. split; [done|]. by intros [[? _] _]. }
  destruct (if Peer.isHost s then Peer.dataChannel s
            else Peer.remoteDataChannel s) as [channel|] eqn:Hact.
  2: { exists false. split; [done|]. split; [done|].
       by intros [[_ (channel & ? & _)] _]. }
  destruct (decide (Peer.channels s !! channel = Some Peer.ch_open)) as [Hopen|Hnot].
  2: { exists false. split; [done|]. split; [done|].
       intros [[_ (channel' & [= <-] & ?)] _]. done. }
  destruct (Peer.send_throws env) eqn:Hthrow.
  { exists false. split; [done|]. split; [done|]. by intros [_ ?]. }
  exists true. split; [done|]. split; [|done]. intros _.
  split; [|done]. split; [done|]. by exists channel.
Qed.


Lemma interval_kept_refl s : interval_kept s s.
Proof. by left. Qed.

Lemma interval_kept_trans s1 s2 s3 :
  interval_kept s1 s2 -> interval_kept s2 s3 -> interval_kept s1 s3.
Proof.
  unfold interval_kept. intros [H1|H1] [H2|H2]; rewrite H2; auto.
Qed.

Ltac quiet_side :=
  solve [ exact interval_kept_refl | exact interval_kept_trans | done ].

Ltac quiet_step :=
  first
    [ apply Keeps_ret; quiet_side
    | apply Keeps_get; quiet_side
    | apply Keeps_bind_get; cbv beta
    | apply Keeps_bind; [quiet_side .. | | intros ? ?]
    | apply Keeps_when; [quiet_side .. |]
    | apply Keeps_tell; quiet_side
    | apply Keeps_modify;
        [quiet_side .. | unfold interval_kept; cbn; first [by left | by right]]
    | match goal with
      | |- Keeps _ _ _ (if ?b then _ else _) _ => destruct b
      | |- Keeps _ _ _ (match ?x with _ => _ end) _ => destruct x
      end ].

(** Only the open event of a channel starts a heartbeat: every other event
    leaves the interval as it is or clears it. *)
Lemma Unstarted_handle env ev s :
  match ev with
  | Peer.ChannelOpened _ => True
  | _ => Unstarted (Peer.handle env ev) s
  end.
Proof.
  destruct ev; try exact I; unfold Unstarted, Peer.handle; apply Keeps_bind_get;
    unfold Peer.on_player_joined, Peer.on_offer, Peer.handleAnswer,
      Peer.handleIceCandidate, Peer.on_player_disconnected,
      Peer.on_reconnecting, Peer.on_reconnected, Peer.onicecandidate,
      Peer.oniceconnectionstatechange, Peer.ondatachannel,
      Peer.channel_onclose, Peer.channel_onmessage, Peer.createOffer_1,
      Peer.createOffer_2, Peer.handleOffer_1, Peer.handleOffer_2,
      Peer.handleOffer_3, Peer.sendPositionUpdate, Peer.sendPlayerAction;
    repeat quiet_step.
Qed.

(** C2, as the code has it.  (1) When the open event of the channel of the
    session's role is delivered, the session is connected, a heartbeat
    interval with a period of 2000 ms is set and the time of the last
    acknowledgement is set to now; and (7) no other event starts an interval:
    it leaves the one there is or clears it.  (2) At a tick of the interval
    that the session holds, while the session can send and the counter is
    below 2^53, one heartbeat goes out with the current sequence number and
    the counter grows; (3) no event makes the counter go down, so later
    heartbeats carry larger numbers; (9) a tick of any other interval does
    nothing.  (4) A heartbeat that arrives while the session can send is
    answered with one heartbeat-ack on the channel of the role, and (8) one
    that arrives while it cannot send is not answered; (5) a heartbeat-ack
    that arrives only records the time.  (6) At a tick of the interval held,
    more than 10000 ms after the time recorded last (hence at the first tick
    after the ten seconds, at most one period later), the session is
    disconnected and the interval cleared. *)
Theorem heartbeat_schedule env s :
  (forall channel,
     Peer.channels s !! channel = Some Peer.ch_connecting \/
     Peer.channels s !! channel = Some Peer.ch_open ->
     Peer.active_channel s = Some channel ->
     let r := Peer.step env s (Peer.ChannelOpened channel) in
     Peer.can_send r.1 /\
     Peer.heartbeatInterval r.1 = Some (Peer.fresh s) /\
     In (Peer.SetInterval (Peer.fresh s) 2000) r.2 /\
     Peer.lastHeartbeatAck r.1 = Peer.Date_now env) /\
  (forall id,
     Peer.heartbeatInterval s = Some id ->
     Peer.can_send s ->
     Peer.send_throws env = false ->
     (Peer.sequence s < 2 ^ 53)%Z ->
     (Peer.Date_now env - Peer.lastHeartbeatAck s <= 10000)%Z ->
     let r := Peer.step env s (Peer.HeartbeatTick id) in
     Peer.heartbeats_sent r.2 = [Peer.sequence s] /\
     r.1 = Peer.set_sequence (Peer.sequence s + 1) s) /\
  (forall ev, (Peer.sequence s <= Peer.sequence (Peer.step env s ev).1)%Z) /\
  (forall channel message,
     Peer.channels s !! channel = Some Peer.ch_open ->
     Peer.can_send s ->
     Peer.send_throws env = false ->
     Peer.g_type message = Peer.HEARTBEAT ->
     exists active,
       Peer.active_channel s = Some active /\
       Peer.step env s (Peer.ChannelMessage channel (Some message))
       = (Peer.set_sequence (Peer.js_incr (Peer.sequence s)) s,
          [Peer.ChannelSend active
             (Peer.mkGameMessage Peer.HEARTBEAT_ACK (Peer.playerId_or_unknown env)
                (Peer.Date_now env) (Peer.sequence s) None None None)])) /\
  (forall channel message,
     Peer.channels s !! channel = Some Peer.ch_open ->
     Peer.g_type message = Peer.HEARTBEAT_ACK ->
     Peer.step env s (Peer.ChannelMessage channel (Some message))
     = (Peer.set_lastHeartbeatAck (Peer.Date_now env) s, [])) /\
  (forall id,
     Peer.heartbeatInterval s = Some id -> id <> 0 ->
     (10000 < Peer.Date_now env - Peer.lastHeartbeatAck s)%Z ->
     let r := Peer.step env s (Peer.HeartbeatTick id) in
     Peer.isConnected r.1 = false /\ Peer.heartbeatInterval r.1 = None /\
     In (Peer.ClearInterval id) r.2) /\
  (forall ev,
     match ev with
     | Peer.ChannelOpened _ => True
     | _ => interval_kept s (Peer.step env s ev).1
     end) /\
  (forall channel message,
     Peer.channels s !! channel = Some Peer.ch_open ->
     ~ Peer.can_send s ->
     Peer.g_type message = Peer.HEARTBEAT ->
     Peer.step env s (Peer.ChannelMessage channel (Some message))
     = (Peer.set_sequence (Peer.js_incr (Peer.sequence s)) s, [])) /\
  (forall id,
     Peer.heartbeatInterval s <> Some id ->
     Peer.step env s (Peer.HeartbeatTick id) = (s, [])).
Proof.
  split; [|split; [|split; [|split; [|split; [|split; [|split; [|split]]]]]]].
  - intros channel Hch Hact r.
    assert (exists s' t,
      Peer.step env s (Peer.ChannelOpened channel) = (s', t) /\
      Peer.can_send s' /\ Peer.heartbeatInterval s' = Some (Peer.fresh s) /\
      In (Peer.SetInterval (Peer.fresh s) 2000) t /\
      Peer.lastHeartbeatAck s' = Peer.Date_now env) as (s' & t & Hstep & H).
    2: { subst r. by rewrite Hstep. }
    destruct s as [pc dc rdc host conn ls seq hi ht ack rec chs ice f].
    unfold Peer.active_channel in Hact. cbn in Hch, Hact. cbn [Peer.fresh].
    destruct (stopHeartbeat_run
                (Peer.mkState pc dc rdc host true ls seq hi ht ack rec
                   (<[channel := Peer.ch_open]> chs) ice f))
      as (hi1 & ht1 & t0 & Hstop & _).
    cbn -[Peer.stopHeartbeat insert] in Hstop.
    destruct rec; destruct Hch as [Hch|Hch].
    all: do 2 eexists; split;
      [ apply exec_run with (a := tt); unfold Peer.handle; run_step;
        cbn [Peer.channels]; rewrite Hch; run_step; unfold Peer.channel_onopen;
        run_step; eapply bind_run;
        [ unfold Peer.startHeartbeat; eapply bind_run; [apply Hstop|];
          reflexivity
        | reflexivity ]
      | ].
    all: cbn -[insert Peer.js_incr Peer.system_message].
    all: split; [|split; [done|split; [|done]]].
    all: try (apply in_or_app; left; apply in_or_app; right; by left).
    all: split; [done|]; exists channel; split; [done|]; apply lookup_insert_eq.
  - intros id Hint (Hconn & channel & Hact & Hopen) Hthrow Hseq Hfresh r.
    assert (Peer.step env s (Peer.HeartbeatTick id)
            = (Peer.set_sequence (Peer.sequence s + 1) s,
               [Peer.ChannelSend channel
                  (Peer.mkGameMessage Peer.HEARTBEAT (Peer.playerId_or_unknown env)
                     (Peer.Date_now env) (Peer.sequence s) None None None)]))
      as Hstep.
    2: { subst r. by rewrite Hstep. }
    apply exec_run with (a := tt). unfold Peer.handle.
    change [Peer.ChannelSend channel
              (Peer.mkGameMessage Peer.HEARTBEAT (Peer.playerId_or_unknown env)
                 (Peer.Date_now env) (Peer.sequence s) None None None)]
      with ([] ++ ([] ++ [] ++ []) ++
            [Peer.ChannelSend channel
              (Peer.mkGameMessage Peer.HEARTBEAT (Peer.playerId_or_unknown env)
                 (Peer.Date_now env) (Peer.sequence s) None None None)] ++ [] ++ []).
    run_step. rewrite Hint, decide_True by done.
    unfold Peer.heartbeat. eapply bind_run.
    { unfold Peer.next_sequence. run_step. run_step. reflexivity. }
    cbv beta. eapply bind_run.
    { apply sendMessage_sends; done. }
    run_step. cbn [Peer.lastHeartbeatAck Peer.set_sequence].
    replace (10000 <? Peer.Date_now env - Peer.lastHeartbeatAck s)%Z with false
      by (symmetry; apply Z.ltb_ge; lia).
    by rewrite js_incr_lt.
  - apply step_sequence_le.
  - intros channel message Hopen (Hconn & active & Hact & Hactive) Hthrow Htype.
    exists active. split; [done|].
    unfold Peer.step, Peer.handle, Trace.exec, Trace.bind at 1, Trace.get at 1.
    rewrite Hopen. unfold Peer.channel_onmessage. rewrite Htype. simpl.
    unfold Peer.next_sequence.
    unfold Trace.bind, Trace.modify, Trace.get, Trace.ret.
    erewrite sendMessage_sends; [|done..]. done.
  - intros channel message Hopen Htype.
    unfold Peer.step, Peer.handle, Trace.exec, Trace.bind at 1, Trace.get at 1.
    rewrite Hopen. unfold Peer.channel_onmessage. rewrite Htype. done.
  - intros id Hint Hid Hlate r.
    assert (exists s' t,
      Peer.step env s (Peer.HeartbeatTick id) = (s', t) /\
      Peer.isConnected s' = false /\ Peer.heartbeatInterval s' = None /\
      In (Peer.ClearInterval id) t) as (s' & t & Hstep & H).
    2: { subst r. by rewrite Hstep. }
    destruct (sendMessage_state env
                (Peer.mkGameMessage Peer.HEARTBEAT (Peer.playerId_or_unknown env)
                   (Peer.Date_now env) (Peer.sequence s) None None None)
                (Peer.set_sequence (Peer.js_incr (Peer.sequence s)) s))
      as (b & t1 & Hsend).
    destruct (handleDisconnection_disconnects env
                (Peer.set_sequence (Peer.js_incr (Peer.sequence s)) s) id Hint Hid)
      as (s' & t2 & Hd & Hc & Hi & Hclear).
    exists s', ([] ++ ([] ++ [] ++ []) ++ t1 ++ [] ++ t2). split.
    { apply exec_run with (a := tt). unfold Peer.handle.
      run_step. rewrite Hint, decide_True by done.
      unfold Peer.heartbeat. eapply bind_run.
      { unfold Peer.next_sequence. run_step. run_step. reflexivity. }
      cbv beta. eapply bind_run; [apply Hsend|].
      run_step. cbn [Peer.lastHeartbeatAck Peer.set_sequence].
      replace (10000 <? Peer.Date_now env - Peer.lastHeartbeatAck s)%Z with true
        by (symmetry; apply Z.ltb_lt; lia).
      exact Hd. }
    repeat split; try done. cbn [app]. apply in_or_app. by right.
  - intros ev. pose proof (Unstarted_handle env ev s) as H.
    destruct ev; try exact I.
    all: specialize (H I); unfold wp in H; unfold Peer.step, Trace.exec.
    all: destruct (Peer.handle env _ s) as [[a s'] t]; by destruct H.
  - intros channel message Hopen Hcannot Htype.
    destruct (sendMessage_run env
                (Peer.mkGameMessage Peer.HEARTBEAT_ACK (Peer.playerId_or_unknown env)
                   (Peer.Date_now env) (Peer.sequence s) None None None)
                (Peer.set_sequence (Peer.js_incr (Peer.sequence s)) s))
      as (sent & Hrun & Hiff).
    assert (sent = false) as ->.
    { destruct sent; [|done]. destruct Hiff as [Hyes _].
      destruct Hyes as [Hc _]; [done|]. by destruct Hcannot. }
    eapply step_run.
    + unfold Peer.handle. eapply bind_run; [reflexivity|]. cbv beta.
      rewrite Hopen. unfold Peer.channel_onmessage.
      rewrite decide_True by done.
      eapply bind_run.
      { unfold Peer.next_sequence. eapply bind_run; [reflexivity|]. cbv beta.
        eapply bind_run; reflexivity. }
      cbv beta. eapply bind_run; [apply Hrun|]. reflexivity.
    + done.
  - intros id Hne.
    unfold Peer.step, Peer.handle, Trace.exec, Trace.bind, Trace.get.
    by rewrite decide_False.
Qed.

Lemma heartbeat_schedule_witness :
  (let r := Peer.step (PeerScenario.env 1000)
              (Peer.run [(PeerScenario.env 500, Peer.Offer PeerScenario.sdp);
                         (PeerScenario.env 900, Peer.DataChannel 40 Peer.ch_open)]
                 Peer.init).1
              (Peer.ChannelOpened 40) in
   Peer.can_send r.1 /\ Peer.heartbeatInterval r.1 = Some 2 /\
   In (Peer.SetInterval 2 2000) r.2 /\ Peer.lastHeartbeatAck r.1 = 1000%Z) /\
  (let r := Peer.step (PeerScenario.env 3000) PeerScenario.host (Peer.HeartbeatTick 3) in
   Peer.heartbeats_sent r.2 = [0%Z] /\
   r.1 = Peer.set_sequence 1 PeerScenario.host) /\
  (exists active,
     Peer.active_channel PeerScenario.host = Some active /\
     Peer.step (PeerScenario.env 3000) PeerScenario.host
       (Peer.ChannelMessage 2
          (Some (Peer.mkGameMessage Peer.HEARTBEAT "peer" 2990 7 None None None)))
     = (Peer.set_sequence 1 PeerScenario.host,
        [Peer.ChannelSend active
           (Peer.mkGameMessage Peer.HEARTBEAT_ACK Scenario.playerX 3000 0
              None None None)])) /\
  Peer.step (PeerScenario.env 3000) PeerScenario.host
    (Peer.ChannelMessage 2
       (Some (Peer.mkGameMessage Peer.HEARTBEAT_ACK "peer" 2990 7 None None None)))
  = (Peer.set_lastHeartbeatAck 3000 PeerScenario.host, []) /\
  (let r := Peer.step (PeerScenario.env 13000) PeerScenario.host (Peer.HeartbeatTick 3) in
   Peer.isConnected r.1 = false /\ Peer.heartbeatInterval r.1 = None /\
   In (Peer.ClearInterval 3) r.2) /\
  Peer.step (PeerScenario.env 5100) PeerScenario.interrupted
    (Peer.ChannelMessage 40
       (Some (Peer.mkGameMessage Peer.HEARTBEAT "peer" 5090 7 None None None)))
  = (Peer.set_sequence 2 PeerScenario.interrupted, []) /\
  Peer.step (PeerScenario.env 7000) PeerScenario.resumed (Peer.HeartbeatTick 2)
  = (PeerScenario.resumed, []).
Proof.
  destruct (heartbeat_schedule (PeerScenario.env 1000)
              (Peer.run [(PeerScenario.env 500, Peer.Offer PeerScenario.sdp);
                         (PeerScenario.env 900, Peer.DataChannel 40 Peer.ch_open)]
                 Peer.init).1)
    as (Hopen & _).
  destruct (heartbeat_schedule (PeerScenario.env 3000) PeerScenario.host)
    as (_ & Htick & _ & Hbeat & Hack & _).
  destruct (heartbeat_schedule (PeerScenario.env 13000) PeerScenario.host)
    as (_ & _ & _ & _ & _ & Hlate & _).
  destruct (heartbeat_schedule (PeerScenario.env 5100) PeerScenario.interrupted)
    as (_ & _ & _ & _ & _ & _ & _ & Hdropped & _).
  destruct (heartbeat_schedule (PeerScenario.env 7000) PeerScenario.resumed)
    as (_ & _ & _ & _ & _ & _ & _ & _ & Hidle).
  assert (Peer.can_send PeerScenario.host) as Hsend.
  { split; [reflexivity|]. exists 2. split; reflexivity. }
  split; [apply (Hopen 40); [right; reflexivity|reflexivity]|].
  split; [apply (Htick 3); [reflexivity|exact Hsend|reflexivity|reflexivity|]|].
  { vm_compute. discriminate. }
  split; [apply (Hbeat 2); [reflexivity|exact Hsend|reflexivity|reflexivity]|].
  split; [apply (Hack 2); reflexivity|].
  split; [apply (Hlate 3); [reflexivity|lia|reflexivity]|].
  split.
  - apply (Hdropped 40); [reflexivity| |reflexivity].
    intros [Hconn _]. vm_compute in Hconn. discriminate.
  - apply (Hidle 2). vm_compute. discriminate.
Defined.

(** C2, as the spec words it, fails: the heartbeat does not last as long as the
    channel is open.  When the ICE connection of the guest is reported as
    disconnected and then as connected again, the session is connected and
    its channel is open, but it holds no heartbeat interval: the tick of the
    interval it had does nothing, at any time, so no heartbeat is sent and
    silence of the peer is never noticed; and a heartbeat that arrived in
    between was not answered. *)
Lemma heartbeat_lost_counterexample :
  Peer.can_send PeerScenario.guest /\
  Peer.heartbeatInterval PeerScenario.guest = Some 2 /\
  Peer.can_send PeerScenario.resumed /\
  Peer.channels PeerScenario.resumed !! 40 = Some Peer.ch_open /\
  Peer.heartbeatInterval PeerScenario.resumed = None /\
  (forall now id,
     Peer.step (PeerScenario.env now) PeerScenario.resumed (Peer.HeartbeatTick id)
     = (PeerScenario.resumed, [])) /\
  (Peer.step (PeerScenario.env 5100) PeerScenario.interrupted
     (Peer.ChannelMessage 40
        (Some (Peer.mkGameMessage Peer.HEARTBEAT "peer" 5090 7 None None None)))).2
  = [].
Proof.
  assert (forall s, s = PeerScenario.guest \/ s = PeerScenario.resumed ->
                    Peer.can_send s) as Hsend.
  { intros s [->| ->]; (split; [reflexivity|]); exists 40; split; reflexivity. }
  split; [apply Hsend; by left|]. split; [reflexivity|].
  split; [apply Hsend; by right|]. split; [reflexivity|]. split; [reflexivity|].
  split; [|reflexivity].
  intros now id.
  unfold Peer.step, Peer.handle, Trace.exec, Trace.bind, Trace.get.
  rewrite decide_False; [reflexivity|]. vm_compute. discriminate.
Qed.


(** * Further properties of the relay *)

(** ** The code and the registration of a new room *)

(** X1.  For every draw of [Math.random()], [createRoom]
    registers under the drawn id a room that has no players and is waiting,
    hands that room back, leaves the player index alone, and gives the room a
    code of at most six characters, each an uppercase letter or a digit. *)
Theorem createRoom_code_shape uuid random now rm :
  (random < two53)%N ->
  let r := Rooms.createRoom uuid random now rm in
  String.length (code r.2) <= 6 /\
  all_chars is_upper_alnum (code r.2) = true /\
  Rooms.getRoom uuid r.1 = Some r.2 /\
  r_id r.2 = uuid /\ players r.2 = JsMap.empty /\ status r.2 = waiting /\
  createdAt r.2 = now /\
  playerRooms r.1 = playerRooms rm.
Proof.
  intros Hr r. destruct (roomCode_at_most_6 random Hr) as [Hlen Hchars].
  subst r. unfold Rooms.createRoom, Rooms.getRoom. simpl.
  repeat split; try done. apply jsmap_get_set_eq.
Qed.

Lemma createRoom_code_shape_witness :
  String.length
    (code (Rooms.createRoom Scenario.room1 Scenario.draw 1000 Rooms.init).2) <= 6 /\
  Rooms.getRoom Scenario.room1
    (Rooms.createRoom Scenario.room1 Scenario.draw 1000 Rooms.init).1
  = Some (mkRoom Scenario.room1 "4XMVUE" JsMap.empty waiting 1000).
Proof.
  destruct (createRoom_code_shape Scenario.room1 Scenario.draw 1000 Rooms.init)
    as (Hlen & _ & Hget & _); [reflexivity|].
  split; [exact Hlen|exact Hget].
Defined.

(** ** The three lookups agree *)

(** X2.  In every registry the relay can reach, a room found by
    its code carries that code and is the room stored under its own id; a room
    found by id carries that id; and the room of a player is the room stored
    under the id that the player index gives for the player. *)
Theorem lookups_agree rm :
  Relay.reachable rm ->
  (forall c room,
     Rooms.getRoomByCode c rm = Some room ->
     code room = c /\ Rooms.getRoom (r_id room) rm = Some room) /\
  (forall roomId room,
     Rooms.getRoom roomId rm = Some room -> r_id room = roomId) /\
  (forall playerId room,
     Rooms.getPlayerRoom playerId rm = Some room ->
     playerRooms rm !! playerId = Some (r_id room) /\
     Rooms.getRoom (r_id room) rm = Some room).
Proof.
  intros Hok%reachable_registry_ok. split; [|split].
  - intros c room Hfind. split; [by apply getRoomByCode_Some in Hfind as [? _]|].
    by eapply getRoomByCode_getRoom.
  - intros roomId room Hget.
    by destruct (registry_ok_lookup _ _ _ Hok Hget) as [? _].
  - intros playerId room (roomId & Hpr & _ & Hget)%getPlayerRoom_Some.
    destruct (registry_ok_lookup _ _ _ Hok Hget) as [Hid _]. simpl in Hid.
    by subst roomId.
Qed.

Lemma lookups_agree_witness :
  Rooms.getRoom Scenario.room1 Scenario.paired
  = Some (mkRoom Scenario.room1 "4XMVUE"
            [(Scenario.playerX, mkPlayer Scenario.playerX 1 true);
             (Scenario.playerY, mkPlayer Scenario.playerY 2 false)] full 1000).
Proof.
  destruct (lookups_agree Scenario.paired) as (Hcode & _ & _).
  { apply reachable_run. constructor. }
  apply (Hcode "4XMVUE"
           (mkRoom Scenario.room1 "4XMVUE"
              [(Scenario.playerX, mkPlayer Scenario.playerX 1 true);
               (Scenario.playerY, mkPlayer Scenario.playerY 2 false)] full 1000)).
  vm_compute. reflexivity.
Defined.

(** ** Forwarding of offers, answers and candidates *)

Lemma find_other_player playerId (ps : JsMap.t Player) kv :
  find (fun kv => bool_decide (kv.1 ≠ playerId)) ps = Some kv ->
  kv ∈ ps /\ kv.1 <> playerId.
Proof.
  intros [Hin Hne]%find_some. apply bool_decide_eq_true in Hne.
  split; [by apply list_elem_of_In|done].
Qed.

Lemma getOtherPlayerInRoom_Some roomId playerId rm other :
  Rooms.getOtherPlayerInRoom roomId playerId rm = Some other ->
  exists room key,
    Rooms.getRoom roomId rm = Some room /\
    (key, other) ∈ players room /\ key <> playerId.
Proof.
  unfold Rooms.getOtherPlayerInRoom, Rooms.getRoom.
  destruct (JsMap.get roomId (rooms rm)) as [room|]; [|done].
  destruct (find _ _) as [[key p]|] eqn:Hfind; [|done].
  intros [= <-]. apply find_other_player in Hfind as [Hin Hne].
  by exists room, key.
Qed.

Lemma sendToSocket_length env socket message :
  length (Relay.sendToSocket env socket message) <= 1.
Proof. unfold Relay.sendToSocket. destruct (decide _); simpl; lia. Qed.

Lemma sendToSocket_elem_of env socket message sent :
  sent ∈ Relay.sendToSocket env socket message ->
  sent = Relay.Send socket message /\ Relay.readyState env socket = OPEN.
Proof.
  unfold Relay.sendToSocket. destruct (decide _) as [Hopen|]; [|by intros ?%elem_of_nil].
  by intros ->%list_elem_of_singleton.
Qed.

Lemma forward_length env playerId roomId message rm :
  length (Relay.forward env playerId roomId message rm) <= 1.
Proof.
  unfold Relay.forward. destruct (Rooms.getRoom _ _); [|simpl; lia].
  destruct (Rooms.getOtherPlayerInRoom _ _ _); [|simpl; lia].
  apply sendToSocket_length.
Qed.

Lemma forward_elem_of env playerId roomId message rm sent :
  sent ∈ Relay.forward env playerId roomId message rm ->
  exists room key other,
    Rooms.getRoom roomId rm = Some room /\
    (key, other) ∈ players room /\ key <> playerId /\
    Relay.readyState env (p_socket other) = OPEN /\
    sent = Relay.Send (p_socket other) message.
Proof.
  unfold Relay.forward. destruct (Rooms.getRoom roomId rm) eqn:Hget;
    [|by intros ?%elem_of_nil].
  destruct (Rooms.getOtherPlayerInRoom _ _ _) as [other|] eqn:Hother;
    [|by intros ?%elem_of_nil].
  intros [-> Hopen]%sendToSocket_elem_of.
  apply getOtherPlayerInRoom_Some in Hother as (room & key & Hroom & Hin & Hne).
  rewrite Hget in Hroom. by exists room, key, other.
Qed.

(** X3.  Whatever the relay sends for an offer, an
    answer or an ICE candidate that [playerId] addressed to the room [roomId]
    is one message at most; it carries the payload and the id of the sender,
    and goes to the open socket of a player who is stored in that room under
    an id other than the sender's: nothing is echoed to the sender, and
    nothing leaves the room. *)
Theorem forwarded_to_other_player env playerId roomId payload rm :
  let sent :=
    [Relay.handleOffer env playerId roomId payload rm;
     Relay.handleAnswer env playerId roomId payload rm;
     Relay.handleIceCandidate env playerId roomId payload rm] in
  Forall (fun out => length out <= 1) sent /\
  Forall
    (Forall (fun '(Relay.Send socket message) =>
       m_playerId message = Some playerId /\
       [m_offer message; m_answer message; m_candidate message]
         ∈ [[Some payload; None; None]; [None; Some payload; None];
            [None; None; Some payload]] /\
       exists room key other,
         Rooms.getRoom roomId rm = Some room /\
         (key, other) ∈ players room /\ key <> playerId /\
         p_socket other = socket /\ Relay.readyState env socket = OPEN))
    sent.
Proof.
  intros sent. subst sent. split.
  - repeat (apply Forall_cons_2; [apply forward_length|]). apply Forall_nil_2.
  - repeat (apply Forall_cons_2; [|try apply Forall_nil_2]).
    all: apply Forall_forall; intros [socket message] Hin.
    all: apply forward_elem_of in Hin
           as (room & key & other & Hget & Hin & Hne & Hopen & [= -> ->]).
    all: split; [done|]; split; [simpl; set_solver|].
    all: by exists room, key, other.
Qed.

(** X4.  In a room that holds [a] and [b], in this order,
    an offer (answer, candidate) from [a] is sent to [b], and one from anybody
    else, [b] or a client that is not in the room at all, is sent to [a]: the
    relay does not check that the sender belongs to the room it names. *)
Theorem signalling_in_a_pair env roomId payload rm room a pa b pb :
  Rooms.getRoom roomId rm = Some room ->
  players room = [(a, pa); (b, pb)] ->
  a <> b ->
  (forall message,
     Relay.forward env a roomId message rm
     = Relay.sendToSocket env (p_socket pb) message) /\
  (forall c message,
     c <> a ->
     Relay.forward env c roomId message rm
     = Relay.sendToSocket env (p_socket pa) message) /\
  Relay.handleOffer env a roomId payload rm
  = Relay.sendToSocket env (p_socket pb)
      (mkMsg "offer" None None (Some a) (Some payload) None None None None None None) /\
  Relay.handleAnswer env b roomId payload rm
  = Relay.sendToSocket env (p_socket pa)
      (mkMsg "answer" None None (Some b) None (Some payload) None None None None None).
Proof.
  intros Hget Hps Hab.
  assert (forall message,
    Relay.forward env a roomId message rm
    = Relay.sendToSocket env (p_socket pb) message) as Ha.
  { intros message. unfold Relay.forward, Rooms.getOtherPlayerInRoom.
    rewrite Hget. unfold Rooms.getRoom in Hget. rewrite Hget, Hps. simpl.
    rewrite bool_decide_eq_false_2 by (by intros ?).
    by rewrite bool_decide_eq_true_2 by (by intros ->). }
  assert (forall c message,
    c <> a ->
    Relay.forward env c roomId message rm
    = Relay.sendToSocket env (p_socket pa) message) as Hc.
  { intros c message Hca. unfold Relay.forward, Rooms.getOtherPlayerInRoom.
    rewrite Hget. unfold Rooms.getRoom in Hget. rewrite Hget, Hps. simpl.
    by rewrite bool_decide_eq_true_2 by (by intros ->). }
  split; [done|]. split; [done|]. split; [apply Ha|].
  apply Hc. by intros ->.
Qed.

Lemma signalling_in_a_pair_witness :
  Relay.handleOffer (Scenario.env Scenario.room2 Scenario.draw 3000)
    Scenario.playerX Scenario.room1 PeerScenario.sdp Scenario.paired
  = [Relay.Send 2
       (mkMsg "offer" None None (Some Scenario.playerX) (Some PeerScenario.sdp)
          None None None None None None)] /\
  Relay.forward (Scenario.env Scenario.room2 Scenario.draw 3000)
    Scenario.playerZ Scenario.room1 (msg0 "offer") Scenario.paired
  = [Relay.Send 1 (msg0 "offer")].
Proof.
  destruct (signalling_in_a_pair (Scenario.env Scenario.room2 Scenario.draw 3000)
              Scenario.room1 PeerScenario.sdp Scenario.paired
              (mkRoom Scenario.room1 "4XMVUE"
                 [(Scenario.playerX, mkPlayer Scenario.playerX 1 true);
                  (Scenario.playerY, mkPlayer Scenario.playerY 2 false)] full 1000)
              Scenario.playerX (mkPlayer Scenario.playerX 1 true)
              Scenario.playerY (mkPlayer Scenario.playerY 2 false))
    as (_ & Hother & Hoffer & _).
  - vm_compute. reflexivity.
  - reflexivity.
  - vm_compute. discriminate.
  - split; [exact Hoffer|].
    apply (Hother Scenario.playerZ). vm_compute. discriminate.
Defined.

(** ** What a request can change, and whom the relay writes to *)

Lemma Forall_sendToSocket env socket message :
  Forall (fun '(Relay.Send socket _) => Relay.readyState env socket = OPEN)
    (Relay.sendToSocket env socket message).
Proof.
  unfold Relay.sendToSocket. destruct (decide _); by repeat constructor.
Qed.

Lemma Forall_forward env playerId roomId message rm :
  Forall (fun '(Relay.Send socket _) => Relay.readyState env socket = OPEN)
    (Relay.forward env playerId roomId message rm).
Proof.
  unfold Relay.forward. destruct (Rooms.getRoom _ _); [|constructor].
  destruct (Rooms.getOtherPlayerInRoom _ _ _); [|constructor].
  apply Forall_sendToSocket.
Qed.

(** X5.  Whatever event the relay handles, in whatever
    registry, every message it sends goes to a socket whose state is OPEN. *)
Theorem writes_to_open_sockets env rm ev :
  Forall (fun '(Relay.Send socket _) => Relay.readyState env socket = OPEN)
    (Relay.step env rm ev).2.
Proof.
  destruct ev as [socket|socket playerId [message|]|socket playerId|]; simpl.
  - apply Forall_sendToSocket.
  - unfold Relay.handleMessage, Relay.handleCreateRoom, Relay.handleJoinRoom,
      Relay.handleOffer, Relay.handleAnswer, Relay.handleIceCandidate,
      Relay.sendError.
    repeat first
      [ apply Forall_sendToSocket | apply Forall_forward | apply Forall_nil_2
      | apply Forall_app_2
      | match goal with
        | |- context [let '(_, _) := ?x in _] => destruct x; simpl
        | |- context [if ?b then _ else _] => destruct b; simpl
        | |- context [match ?x with _ => _ end] => destruct x; simpl
        end ].
  - apply Forall_sendToSocket.
  - unfold Relay.onClose. destruct (Rooms.removePlayer _ _) as [rm1 [room|]];
      simpl; [|constructor].
    destruct (Rooms.getOtherPlayerInRoom _ _ _); [|constructor].
    apply Forall_sendToSocket.
  - constructor.
Qed.

(** X6.  Only create-room and join-room
    requests, closed sockets and the cleanup timer can change the registry: a
    new connection, a frame that does not parse, and a message of any other
    type, whatever its fields, leave it exactly as it was. *)
Theorem registry_untouched_by_signalling env rm socket playerId message :
  (Relay.step env rm (Relay.Connection socket)).1 = rm /\
  (Relay.step env rm (Relay.Message socket playerId None)).1 = rm /\
  (m_type message <> "create-room" -> m_type message <> "join-room" ->
   (Relay.step env rm (Relay.Message socket playerId (Some message))).1 = rm).
Proof.
  split; [done|]. split; [done|]. intros Hc Hj. simpl.
  unfold Relay.handleMessage.
  destruct (decide (m_type message = "create-room")); [done|].
  destruct (decide (m_type message = "join-room")); [done|].
  repeat match goal with
         | |- context [if ?b then _ else _] => destruct b; simpl
         | |- context [match ?x with _ => _ end] => destruct x; simpl
         end; done.
Qed.

Lemma registry_untouched_by_signalling_witness :
  (Relay.step (Scenario.env Scenario.room2 Scenario.draw 3000) Scenario.paired
     (Relay.Message 1 Scenario.playerX
        (Some (mkMsg "offer" None (Some Scenario.room1) None (Some PeerScenario.sdp)
                 None None None None None None)))).1
  = Scenario.paired.
Proof.
  apply (registry_untouched_by_signalling
           (Scenario.env Scenario.room2 Scenario.draw 3000) Scenario.paired 1
           Scenario.playerX); vm_compute; discriminate.
Defined.

(** X7.  The requests the relay refuses: a frame that
    does not parse, a message of an unknown type, a join-room without a room
    code or with an empty one or with a code that no room carries, and an
    offer, answer or candidate without a room id or without its payload.  Each
    is answered with one error message for the requester, with the text of the
    case, and the registry stays as it was. *)
Theorem bad_requests_are_refused env rm socket playerId message :
  let reply := Relay.step env rm (Relay.Message socket playerId (Some message)) in
  let refused text := reply = (rm, Relay.sendError env socket text) in
  Relay.step env rm (Relay.Message socket playerId None)
  = (rm, Relay.sendError env socket "Invalid message format") /\
  (m_type message ∉ ["create-room"; "join-room"; "offer"; "answer"; "ice-candidate"] ->
   refused ("Unknown message type: " +:+ m_type message)) /\
  (m_type message = "join-room" -> field_truthy (m_roomCode message) = false ->
   refused "Room code is required") /\
  (forall roomCode,
     m_type message = "join-room" -> m_roomCode message = Some roomCode ->
     truthy roomCode = true -> Rooms.getRoomByCode roomCode rm = None ->
     refused ("Room with code " +:+ roomCode +:+ " not found")) /\
  (m_type message = "offer" ->
   field_truthy (m_roomId message) && any_truthy (m_offer message) = false ->
   refused "Room ID and offer are required") /\
  (m_type message = "answer" ->
   field_truthy (m_roomId message) && any_truthy (m_answer message) = false ->
   refused "Room ID and answer are required") /\
  (m_type message = "ice-candidate" ->
   field_truthy (m_roomId message) && any_truthy (m_candidate message) = false ->
   refused "Room ID and candidate are required").
Proof.
  intros reply refused. subst reply refused. cbv beta. simpl.
  unfold Relay.handleMessage.
  split; [done|]. split; [|split; [|split; [|split; [|split]]]].
  - intros Hnot. rewrite !decide_False; [done|set_solver..].
  - intros -> Hcode. simpl.
    destruct (m_roomCode message) as [roomCode|]; [|done].
    simpl in Hcode. by rewrite Hcode.
  - intros roomCode -> -> Htruthy Hnone. simpl. rewrite Htruthy.
    unfold Relay.handleJoinRoom. by rewrite Hnone.
  - intros -> H. simpl.
    destruct (m_roomId message) as [roomId|], (m_offer message) as [offer|];
      simpl in H; try done.
    by rewrite H.
  - intros -> H. simpl.
    destruct (m_roomId message) as [roomId|], (m_answer message) as [answer|];
      simpl in H; try done.
    by rewrite H.
  - intros -> H. simpl.
    destruct (m_roomId message) as [roomId|], (m_candidate message) as [candidate|];
      simpl in H; try done.
    by rewrite H.
Qed.

Lemma bad_requests_are_refused_witness :
  Relay.step (Scenario.env Scenario.room2 Scenario.draw 3000) Scenario.paired
    (Relay.Message 3 Scenario.playerZ (Some (Scenario.join_room "NOROOM")))
  = (Scenario.paired,
     [Relay.Send 3 (Relay.error_message "Room with code NOROOM not found")]) /\
  Relay.step (Scenario.env Scenario.room2 Scenario.draw 3000) Scenario.paired
    (Relay.Message 3 Scenario.playerZ (Some (msg0 "leave-room")))
  = (Scenario.paired,
     [Relay.Send 3 (Relay.error_message "Unknown message type: leave-room")]) /\
  Relay.step (Scenario.env Scenario.room2 Scenario.draw 3000) Scenario.paired
    (Relay.Message 3 Scenario.playerZ (Some (msg0 "join-room")))
  = (Scenario.paired, [Relay.Send 3 (Relay.error_message "Room code is required")]) /\
  Relay.step (Scenario.env Scenario.room2 Scenario.draw 3000) Scenario.paired
    (Relay.Message 3 Scenario.playerZ (Some (msg0 "offer")))
  = (Scenario.paired,
     [Relay.Send 3 (Relay.error_message "Room ID and offer are required")]).
Proof.
  destruct (bad_requests_are_refused
              (Scenario.env Scenario.room2 Scenario.draw 3000) Scenario.paired 3
              Scenario.playerZ (Scenario.join_room "NOROOM"))
    as (_ & _ & _ & Hcode & _).
  destruct (bad_requests_are_refused
              (Scenario.env Scenario.room2 Scenario.draw 3000) Scenario.paired 3
              Scenario.playerZ (msg0 "leave-room"))
    as (_ & Hunknown & _).
  destruct (bad_requests_are_refused
              (Scenario.env Scenario.room2 Scenario.draw 3000) Scenario.paired 3
              Scenario.playerZ (msg0 "join-room"))
    as (_ & _ & Hmissing & _).
  destruct (bad_requests_are_refused
              (Scenario.env Scenario.room2 Scenario.draw 3000) Scenario.paired 3
              Scenario.playerZ (msg0 "offer"))
    as (_ & _ & _ & _ & Hoffer & _).
  split; [apply (Hcode "NOROOM"); vm_compute; reflexivity|].
  split; [apply Hunknown; apply (bool_decide_unpack _); vm_compute; exact I|].
  split; [apply Hmissing; reflexivity|].
  apply Hoffer; reflexivity.
Defined.

(** ** The sweep of expired rooms *)

Lemma cleanupLoop_get now maxAgeMs entries rm roomId :
  JsMap.get roomId (rooms (Rooms.cleanupLoop now maxAgeMs entries rm))
  = if existsb (fun e => bool_decide (e.1 = roomId) &&
                         (maxAgeMs <? now - createdAt e.2)%Z) entries
    then None else JsMap.get roomId (rooms rm).
Proof.
  revert rm. induction entries as [|[k r] rest IH]; intros rm; [done|].
  simpl. destruct (maxAgeMs <? now - createdAt r)%Z; rewrite IH; simpl.
  - destruct (decide (k = roomId)) as [->|Hne].
    + rewrite bool_decide_eq_true_2 by done. simpl.
      rewrite jsmap_get_remove_eq. by destruct (existsb _ _).
    + rewrite bool_decide_eq_false_2 by done. simpl.
      by rewrite jsmap_get_remove_ne.
  - by rewrite andb_false_r.
Qed.

Lemma foldl_delete_lookup (ps : list Player) (m : gmap string string) k :
  foldl (fun acc p => delete (p_id p) acc) m ps !! k
  = if bool_decide (k ∈ p_id <$> ps) then None else m !! k.
Proof.
  revert m. induction ps as [|p ps IH]; intros m; cbn [foldl].
  - by rewrite fmap_nil, bool_decide_eq_false_2 by (by intros ?%elem_of_nil).
  - rewrite IH, fmap_cons. destruct (decide (k = p_id p)) as [->|Hne].
    + rewrite (bool_decide_eq_true_2 (p_id p ∈ p_id p :: _)) by (by left).
      rewrite lookup_delete_eq. by destruct (bool_decide _).
    + rewrite lookup_delete_ne by done.
      destruct (decide (k ∈ p_id <$> ps)) as [Hin|Hnin].
      * rewrite !bool_decide_eq_true_2; [done|by right|done].
      * rewrite !bool_decide_eq_false_2; [done| |done].
        by intros [?|?]%elem_of_cons.
Qed.

Lemma cleanupLoop_playerRooms now maxAgeMs entries rm playerId :
  playerRooms (Rooms.cleanupLoop now maxAgeMs entries rm) !! playerId
  = if existsb (fun e => (maxAgeMs <? now - createdAt e.2)%Z &&
                         bool_decide (playerId ∈ p_id <$> JsMap.values (players e.2)))
         entries
    then None else playerRooms rm !! playerId.
Proof.
  revert rm. induction entries as [|[k r] rest IH]; intros rm; [done|].
  simpl. destruct (maxAgeMs <? now - createdAt r)%Z; rewrite IH; simpl; [|done].
  rewrite foldl_delete_lookup.
  destruct (bool_decide _); simpl; [|done]. by destruct (existsb _ _).
Qed.

(** X8.  In a registry the relay can reach, [cleanupOldRooms]
    deletes exactly the rooms created more than [maxAgeMs] before now and
    keeps every other room as it is; the player index only loses entries, and
    it loses the entry of every player held by a deleted room.  The timer that
    runs the sweep sends nothing: the players of an expired room are not
    told. *)
Theorem cleanup_sweep env now maxAgeMs rm :
  Relay.reachable rm ->
  let rm' := Rooms.cleanupOldRooms now maxAgeMs rm in
  (forall roomId,
     Rooms.getRoom roomId rm'
     = match Rooms.getRoom roomId rm with
       | Some room =>
           if (maxAgeMs <? now - createdAt room)%Z then None else Some room
       | None => None
       end) /\
  (forall playerId roomId,
     playerRooms rm' !! playerId = Some roomId ->
     playerRooms rm !! playerId = Some roomId) /\
  (forall roomId room player,
     Rooms.getRoom roomId rm = Some room ->
     (maxAgeMs < now - createdAt room)%Z ->
     player ∈ JsMap.values (players room) ->
     playerRooms rm' !! p_id player = None) /\
  Relay.step env rm Relay.CleanupTimer
  = (Rooms.cleanupOldRooms (Relay.Date_now env) 3600000 rm, []).
Proof.
  intros [Hnd _]%reachable_registry_ok rm'. subst rm'.
  unfold Rooms.cleanupOldRooms, Rooms.getRoom.
  split; [|split; [|split; [|done]]].
  - intros roomId. rewrite cleanupLoop_get.
    destruct (existsb _ _) eqn:Hex.
    + apply existsb_exists in Hex as ([k r] & Hin & [Hk Hold]%andb_true_iff).
      apply bool_decide_eq_true in Hk. simpl in Hk, Hold. subst k.
      apply list_elem_of_In in Hin.
      rewrite (jsmap_NoDup_get _ _ _ Hnd Hin). by rewrite Hold.
    + destruct (JsMap.get roomId (rooms rm)) as [room|] eqn:Hget; [|done].
      destruct (maxAgeMs <? now - createdAt room)%Z eqn:Hold; [|done].
      exfalso. apply not_true_iff_false in Hex. apply Hex.
      apply existsb_exists. exists (roomId, room). split.
      * by apply list_elem_of_In, jsmap_get_elem_of.
      * simpl. by rewrite bool_decide_eq_true_2.
  - intros playerId roomId. rewrite cleanupLoop_playerRooms.
    by destruct (existsb _ _).
  - intros roomId room player Hget Hold Hin. rewrite cleanupLoop_playerRooms.
    destruct (existsb _ _) eqn:Hex; [done|].
    exfalso. apply not_true_iff_false in Hex. apply Hex.
    apply existsb_exists. exists (roomId, room). split.
    + by apply list_elem_of_In, jsmap_get_elem_of.
    + simpl. apply andb_true_iff. split; [by apply Z.ltb_lt|].
      apply bool_decide_eq_true. by apply list_elem_of_fmap_2.
Qed.

Lemma cleanup_sweep_witness :
  Rooms.getRoom Scenario.room1
    (Rooms.cleanupOldRooms 3601001 3600000 Scenario.paired) = None /\
  playerRooms (Rooms.cleanupOldRooms 3601001 3600000 Scenario.paired)
    !! Scenario.playerY = None /\
  Rooms.getRoom Scenario.room1
    (Rooms.cleanupOldRooms 3600000 3600000 Scenario.paired)
  = Rooms.getRoom Scenario.room1 Scenario.paired.
Proof.
  destruct (cleanup_sweep (Scenario.env Scenario.room2 Scenario.draw 3601001)
              3601001 3600000 Scenario.paired) as (Hgone & _ & Hindex & _).
  { apply reachable_run. constructor. }
  destruct (cleanup_sweep (Scenario.env Scenario.room2 Scenario.draw 3600000)
              3600000 3600000 Scenario.paired) as (Hkept & _ & _ & _).
  { apply reachable_run. constructor. }
  split; [exact (Hgone Scenario.room1)|].
  split; [|exact (Hkept Scenario.room1)].
  apply (Hindex Scenario.room1
           (mkRoom Scenario.room1 "4XMVUE"
              [(Scenario.playerX, mkPlayer Scenario.playerX 1 true);
               (Scenario.playerY, mkPlayer Scenario.playerY 2 false)] full 1000)
           (mkPlayer Scenario.playerY 2 false)).
  - vm_compute. reflexivity.
  - reflexivity.
  - simpl. right. left.
Defined.

(** ** A closed socket *)

(** X9.  When the socket of [playerId] closes in a
    registry the relay can reach: a player that is in no room makes the relay
    send nothing and change nothing; for a player in a room, the first player
    left in that room, if there is one, is sent player-disconnected with the
    id of the player that left (when that socket is open), and nobody else is
    told. *)
Theorem close_notifies_remaining env rm socket playerId :
  Relay.reachable rm ->
  let r := Relay.step env rm (Relay.Close socket playerId) in
  (playerRooms rm !! playerId = None -> r = (rm, [])) /\
  (forall room,
     Rooms.getPlayerRoom playerId rm = Some room ->
     r.2 = match JsMap.remove playerId (players room) with
           | (_, other) :: _ =>
               Relay.sendToSocket env (p_socket other)
                 (Relay.player_message "player-disconnected" playerId)
           | [] => []
           end).
Proof.
  intros Hok%reachable_registry_ok r. subst r. simpl. unfold Relay.onClose.
  split.
  { intros Hnone. unfold Rooms.removePlayer. by rewrite Hnone. }
  intros room (roomId & Hpr & Htruthy & Hget)%getPlayerRoom_Some.
  destruct (registry_ok_lookup _ _ _ Hok Hget) as (Hid & _). simpl in Hid.
  unfold Rooms.removePlayer. rewrite Hpr, Htruthy, Hget. simpl.
  destruct (JsMap.remove playerId (players room)) as [|[k other] rest] eqn:Hrest;
    [done|].
  simpl. rewrite Hid. unfold Rooms.getOtherPlayerInRoom. simpl.
  rewrite jsmap_get_set_eq. simpl.
  assert (k <> playerId) as Hk.
  { assert ((k, other) ∈ JsMap.remove playerId (players room)) as Hin
      by (rewrite Hrest; left).
    by apply jsmap_elem_of_remove in Hin as [_ Hne]. }
  by rewrite bool_decide_eq_true_2.
Qed.

Lemma close_notifies_remaining_witness :
  (Relay.step (Scenario.env Scenario.room2 Scenario.draw 3000) Scenario.paired
     (Relay.Close 1 Scenario.playerX)).2
  = [Relay.Send 2 (Relay.player_message "player-disconnected" Scenario.playerX)] /\
  Relay.step (Scenario.env Scenario.room2 Scenario.draw 3000) Scenario.paired
    (Relay.Close 3 Scenario.playerZ)
  = (Scenario.paired, []).
Proof.
  destruct (close_notifies_remaining
              (Scenario.env Scenario.room2 Scenario.draw 3000) Scenario.paired 1
              Scenario.playerX) as [_ Hin].
  { apply reachable_run. constructor. }
  destruct (close_notifies_remaining
              (Scenario.env Scenario.room2 Scenario.draw 3000) Scenario.paired 3
              Scenario.playerZ) as [Hout _].
  { apply reachable_run. constructor. }
  split; [|apply Hout; vm_compute; reflexivity].
  apply (Hin (mkRoom Scenario.room1 "4XMVUE"
                [(Scenario.playerX, mkPlayer Scenario.playerX 1 true);
                 (Scenario.playerY, mkPlayer Scenario.playerY 2 false)] full 1000)).
  vm_compute. reflexivity.
Defined.

(** ** Creating a room and joining it *)

Lemma jsmap_set_set {V} k (v v' : V) m :
  JsMap.set k v (JsMap.set k v' m) = JsMap.set k v m.
Proof.
  induction m as [|[k0 v0] m IH]; simpl.
  - by rewrite decide_True.
  - destruct (decide (k0 = k)) as [->|Hne]; simpl.
    + by rewrite decide_True.
    + by rewrite decide_False, IH.
Qed.

Lemma find_values_set {V} (f : V -> bool) k v (m : JsMap.t V) :
  find f (JsMap.values m) = None -> f v = true ->
  find f (JsMap.values (JsMap.set k v m)) = Some v.
Proof.
  intros Hnone Hv. induction m as [|[k0 v0] m IH]; simpl.
  - by rewrite Hv.
  - simpl in Hnone. destruct (f v0) eqn:Hv0; [done|].
    destruct (decide (k0 = k)); simpl; [by rewrite Hv|].
    rewrite Hv0. by apply IH.
Qed.

(** X10.  X creates a room and gets a code that no room
    of the registry carries yet; Y, another player, then joins with that code.
    Then the room holds X as host and Y, in this order, and is full; the index
    gives that room for both; Y is sent room-joined with the id and the code
    of the room, and X is sent player-joined with the id of Y. *)
Theorem create_then_join_pairs env1 env2 rm sx sy X Y :
  let c := Rooms.roomCode (Relay.Math_random env1) in
  let roomId := Relay.uuidv4 env1 in
  Rooms.getRoomByCode c rm = None ->
  truthy c = true ->
  X <> Y ->
  Relay.readyState env2 sx = OPEN ->
  Relay.readyState env2 sy = OPEN ->
  let rm1 :=
    (Relay.step env1 rm (Relay.Message sx X (Some (msg0 "create-room")))).1 in
  let r :=
    Relay.step env2 rm1
      (Relay.Message sy Y
         (Some (mkMsg "join-room" (Some c) None None None None None None None
                  None None))) in
  let room :=
    mkRoom roomId c [(X, mkPlayer X sx true); (Y, mkPlayer Y sy false)] full
      (Relay.Date_now env1) in
  r.2 = [Relay.Send sy (Relay.room_message "room-joined" room);
         Relay.Send sx (Relay.player_message "player-joined" Y)] /\
  Rooms.getRoom roomId r.1 = Some room /\
  Rooms.getRoomByCode c r.1 = Some room /\
  playerRooms r.1 !! X = Some roomId /\
  playerRooms r.1 !! Y = Some roomId.
Proof.
  intros c roomId Hfresh Htruthy HXY Hsx Hsy rm1 r room.
  set (room0 := mkRoom roomId c JsMap.empty waiting (Relay.Date_now env1)).
  set (roomA := mkRoom roomId c [(X, mkPlayer X sx true)] waiting
                  (Relay.Date_now env1)).
  assert (rm1 = mkRoomManager (JsMap.set roomId roomA (rooms rm))
                  (<[X := roomId]> (playerRooms rm))) as Hrm1.
  { subst rm1. simpl. unfold Relay.handleMessage. simpl.
    unfold Relay.handleCreateRoom, Rooms.createRoom, Rooms.addPlayerToRoom.
    simpl. rewrite jsmap_get_set_eq. simpl. by rewrite jsmap_set_set. }
  assert (Rooms.getRoomByCode c rm1 = Some roomA) as Hfind.
  { rewrite Hrm1. unfold Rooms.getRoomByCode. simpl.
    apply find_values_set; [exact Hfresh|]. by apply bool_decide_eq_true_2. }
  assert (r = (mkRoomManager (JsMap.set roomId room (rooms rm))
                 (<[Y := roomId]> (<[X := roomId]> (playerRooms rm))),
               [Relay.Send sy (Relay.room_message "room-joined" room);
                Relay.Send sx (Relay.player_message "player-joined" Y)])) as Hr.
  { subst r. simpl. unfold Relay.handleMessage. simpl. fold c. rewrite Htruthy.
    unfold Relay.handleJoinRoom. rewrite Hfind. simpl.
    unfold Rooms.addPlayerToRoom. rewrite Hrm1. simpl.
    rewrite jsmap_get_set_eq. simpl.
    rewrite (decide_False (P := X = Y)) by done. simpl.
    rewrite jsmap_get_set_eq, jsmap_set_set. simpl.
    unfold Relay.sendToSocket. by rewrite !decide_True. }
  rewrite Hr. simpl. split; [done|]. unfold Rooms.getRoom. simpl.
  split; [apply jsmap_get_set_eq|]. split.
  - unfold Rooms.getRoomByCode. simpl.
    apply find_values_set; [exact Hfresh|]. by apply bool_decide_eq_true_2.
  - split; [|apply lookup_insert_eq].
    rewrite lookup_insert_ne by done. apply lookup_insert_eq.
Qed.

Lemma create_then_join_pairs_witness :
  (Relay.step (Scenario.env Scenario.room2 Scenario.draw 2000)
     (Relay.step (Scenario.env Scenario.room1 Scenario.draw 1000) Rooms.init
        (Relay.Message 1 Scenario.playerX (Some (msg0 "create-room")))).1
     (Relay.Message 2 Scenario.playerY
        (Some (mkMsg "join-room" (Some "4XMVUE") None None None None None None
                 None None None)))).2
  = [Relay.Send 2
       (Relay.room_message "room-joined"
          (mkRoom Scenario.room1 "4XMVUE"
             [(Scenario.playerX, mkPlayer Scenario.playerX 1 true);
              (Scenario.playerY, mkPlayer Scenario.playerY 2 false)] full 1000));
     Relay.Send 1 (Relay.player_message "player-joined" Scenario.playerY)].
Proof.
  apply (create_then_join_pairs (Scenario.env Scenario.room1 Scenario.draw 1000)
           (Scenario.env Scenario.room2 Scenario.draw 2000) Rooms.init 1 2
           Scenario.playerX Scenario.playerY).
  - reflexivity.
  - reflexivity.
  - vm_compute. discriminate.
  - reflexivity.
  - reflexivity.
Defined.

(** * Further properties of the control-plane client *)

(** ** Registering and removing listeners *)

Lemma remove_first_count callback (listeners : list Client.Callback) :
  length (List.filter (fun cb => bool_decide (cb = callback))
            (Client.remove_first callback listeners))
  = pred (length (List.filter (fun cb => bool_decide (cb = callback)) listeners)).
Proof.
  induction listeners as [|cb rest IH]; [done|]. simpl.
  destruct (decide (cb = callback)) as [->|Hne].
  - by rewrite bool_decide_eq_true_2.
  - rewrite bool_decide_eq_false_2 by done. simpl.
    by rewrite bool_decide_eq_false_2.
Qed.

Lemma remove_first_other callback callback' (listeners : list Client.Callback) :
  callback' <> callback ->
  List.filter (fun cb => bool_decide (cb = callback'))
    (Client.remove_first callback listeners)
  = List.filter (fun cb => bool_decide (cb = callback')) listeners.
Proof.
  intros Hne. induction listeners as [|cb rest IH]; [done|]. simpl.
  destruct (decide (cb = callback)) as [->|Hcb].
  - by rewrite bool_decide_eq_false_2 by done.
  - simpl. by rewrite IH.
Qed.

(** X11.  [off(event, callback)] takes away one
    registration of the callback for the event, if there is one, and no
    other: registrations of other callbacks, and for other events, stay; for
    an event that has no listener list the client is left as it is; and [off]
    after [on] gives back the number of registrations from before. *)
Theorem off_removes_one_registration event callback s :
  let s' := (Trace.exec (Client.off event callback) s).1 in
  Client.registrations event callback s'
  = pred (Client.registrations event callback s) /\
  (forall event' callback',
     event' <> event \/ callback' <> callback ->
     Client.registrations event' callback' s'
     = Client.registrations event' callback' s) /\
  (Client.eventListeners s !! event = None ->
   Trace.exec (Client.off event callback) s = (s, [])) /\
  Client.registrations event callback
    (Trace.exec (Client.off event callback)
       (Trace.exec (Client.on event callback) s).1).1
  = Client.registrations event callback s.
Proof.
  assert (forall s0,
    Client.registrations event callback
      (Trace.exec (Client.off event callback) s0).1
    = pred (Client.registrations event callback s0)) as Hoff.
  { intros s0.
    unfold Client.registrations, Client.off, Trace.exec, Trace.bind, Trace.get.
    destruct (Client.eventListeners s0 !! event) as [listeners|] eqn:HL;
      simpl; [|by rewrite HL].
    rewrite lookup_insert_eq. simpl. apply remove_first_count. }
  intros s'. subst s'. split; [apply Hoff|]. split; [|split].
  - intros event' callback' Hne.
    unfold Client.registrations, Client.off, Trace.exec, Trace.bind, Trace.get.
    destruct (Client.eventListeners s !! event) as [listeners|] eqn:HL;
      simpl; [|done].
    destruct (decide (event' = event)) as [->|Hev].
    + rewrite lookup_insert_eq, HL. simpl. destruct Hne as [?|Hcb]; [done|].
      by rewrite remove_first_other.
    + by rewrite lookup_insert_ne.
  - intros HL. unfold Client.off, Trace.exec, Trace.bind, Trace.get.
    by rewrite HL.
  - by rewrite Hoff, registrations_on.
Qed.

Lemma off_removes_one_registration_witness :
  Client.registrations "offer" 8
    (Trace.exec (Client.off "offer" 7)
       (Trace.exec (Client.on "offer" 8) Client.init).1).1
  = 1.
Proof.
  destruct (off_removes_one_registration "offer" 7
              (Trace.exec (Client.on "offer" 8) Client.init).1)
    as (_ & Hother & _).
  rewrite (Hother "offer" 8); [reflexivity|].
  right. discriminate.
Defined.

(** ** What the client sends *)

Lemma send_closed message s :
  (forall ws, Client.socket s = Some ws -> Client.socket_state s ws <> Some OPEN) ->
  Client.send message s = (tt, s, []).
Proof.
  intros Hclosed. unfold Client.send, Trace.bind, Trace.get.
  destruct (Client.socket s) as [ws|] eqn:Hsock; [|done].
  by rewrite decide_False by (by apply Hclosed).
Qed.

Lemma send_open message s ws :
  Client.socket s = Some ws -> Client.socket_state s ws = Some OPEN ->
  Client.send message s = (tt, s, [Client.WsSend ws message]).
Proof.
  intros Hsock Hopen. unfold Client.send, Trace.bind, Trace.get.
  by rewrite Hsock, decide_True.
Qed.

(** X12.  While the client has no socket, or its
    socket is not open, each of [createRoom], [joinRoom], [sendOffer],
    [sendAnswer] and [sendIceCandidate] sends nothing and leaves the client as
    it is: the request is dropped, not queued.  The last three do the same,
    whatever the socket, while the client has no room id. *)
Theorem requests_need_an_open_socket valid_url s code payload ev :
  ev ∈ [Client.CallCreateRoom; Client.CallJoinRoom code;
        Client.CallSendOffer payload; Client.CallSendAnswer payload;
        Client.CallSendIceCandidate payload] ->
  ((forall ws, Client.socket s = Some ws ->
               Client.socket_state s ws <> Some OPEN) ->
   Client.step valid_url s ev = (s, [])) /\
  (field_truthy (Client.roomId s) = false ->
   ev <> Client.CallCreateRoom -> ev <> Client.CallJoinRoom code ->
   Client.step valid_url s ev = (s, [])).
Proof.
  intros Hev. split.
  - intros Hclosed.
    assert (forall message, Client.send message s = (tt, s, [])) as Hsend
      by (intros; by apply send_closed).
    repeat (apply elem_of_cons in Hev as [->|Hev]); [..|by apply elem_of_nil in Hev].
    all: unfold Client.step, Client.handle, Trace.exec, Trace.bind at 1,
           Trace.get at 1, Client.createRoom, Client.joinRoom, Client.sendOffer,
           Client.sendAnswer, Client.sendIceCandidate;
         unfold Trace.bind, Trace.get;
         try destruct (negb (field_truthy (Client.roomId s))); try done;
         by rewrite Hsend.
  - intros Hroom Hc Hj.
    repeat (apply elem_of_cons in Hev as [->|Hev]); [done|done|..|by apply elem_of_nil in Hev].
    all: unfold Client.step, Client.handle, Trace.exec, Trace.bind at 1,
           Trace.get at 1, Client.sendOffer, Client.sendAnswer,
           Client.sendIceCandidate;
         unfold Trace.bind, Trace.get; by rewrite Hroom.
Qed.

Lemma requests_need_an_open_socket_witness :
  Client.step ClientScenario.valid_url Client.init (Client.CallJoinRoom "4XMVUE")
  = (Client.init, []) /\
  Client.step ClientScenario.valid_url ClientScenario.connected
    (Client.CallSendOffer PeerScenario.sdp)
  = (ClientScenario.connected, []).
Proof.
  destruct (requests_need_an_open_socket ClientScenario.valid_url Client.init
              "4XMVUE" PeerScenario.sdp (Client.CallJoinRoom "4XMVUE"))
    as [Hclosed _].
  { right. left. }
  destruct (requests_need_an_open_socket ClientScenario.valid_url
              ClientScenario.connected "4XMVUE" PeerScenario.sdp
              (Client.CallSendOffer PeerScenario.sdp))
    as [_ Hroom].
  { right. right. left. }
  split.
  - apply Hclosed. intros ws Hws. vm_compute in Hws. discriminate.
  - apply Hroom; [reflexivity|discriminate|discriminate].
Defined.

(** X13.  With an open socket each request is
    written to that socket, once, and the client stays as it is: create-room
    without fields, join-room with the code given, and, once the client has a
    room id, offer, answer and ice-candidate with that room id and the
    payload. *)
Theorem requests_on_an_open_socket valid_url s ws code payload :
  Client.socket s = Some ws ->
  Client.socket_state s ws = Some OPEN ->
  let sent ev message :=
    Client.step valid_url s ev = (s, [Client.WsSend ws message]) in
  sent Client.CallCreateRoom (msg0 "create-room") /\
  sent (Client.CallJoinRoom code)
    (mkMsg "join-room" (Some code) None None None None None None None None None) /\
  (field_truthy (Client.roomId s) = true ->
   sent (Client.CallSendOffer payload)
     (mkMsg "offer" None (Client.roomId s) None (Some payload) None None None
        None None None) /\
   sent (Client.CallSendAnswer payload)
     (mkMsg "answer" None (Client.roomId s) None None (Some payload) None None
        None None None) /\
   sent (Client.CallSendIceCandidate payload)
     (mkMsg "ice-candidate" None (Client.roomId s) None None None (Some payload)
        None None None None)).
Proof.
  intros Hsock Hopen sent. subst sent. cbv beta.
  pose proof (fun message => send_open message s ws Hsock Hopen) as Hsend.
  split; [|split].
  - unfold Client.step, Client.handle, Trace.exec, Trace.bind, Trace.get,
      Client.createRoom. by rewrite Hsend.
  - unfold Client.step, Client.handle, Trace.exec, Trace.bind, Trace.get,
      Client.joinRoom. by rewrite Hsend.
  - intros Hroom.
    unfold Client.step, Client.handle, Trace.exec, Client.sendOffer,
      Client.sendAnswer, Client.sendIceCandidate, Trace.bind, Trace.get.
    rewrite Hroom. simpl. by rewrite !Hsend.
Qed.

Lemma requests_on_an_open_socket_witness :
  Client.step ClientScenario.valid_url ClientScenario.connected
    (Client.CallJoinRoom "4XMVUE")
  = (ClientScenario.connected,
     [Client.WsSend 2
        (mkMsg "join-room" (Some "4XMVUE") None None None None None None None
           None None)]).
Proof.
  destruct (requests_on_an_open_socket ClientScenario.valid_url
              ClientScenario.connected 2 "4XMVUE" PeerScenario.sdp)
    as (_ & Hjoin & _); [reflexivity|reflexivity|exact Hjoin].
Defined.

(** ** What the client remembers from a message *)

Lemma step_message valid_url s ws so message :
  Client.sockets s !! ws = Some so -> Client.ws_readyState so = OPEN ->
  (Client.step valid_url s (Client.WsMessage ws (Some message))).1
  = store_ids message s.
Proof.
  intros Hso Hopen.
  pose proof (exec_handleMessage message s) as Hexec.
  unfold Client.step, Client.handle, Trace.exec, Trace.bind at 1, Trace.get at 1.
  rewrite Hso, decide_True by done. unfold Client.onmessage.
  unfold Trace.exec in Hexec.
  destruct (Client.handleMessage message s) as [[u s1] t1].
  by injection Hexec as -> _.
Qed.

(** X14.  From a message that arrives on an open socket
    the client takes the player id, the room id and the room code that are
    present and not empty, and keeps what it had for the others: no message
    erases an id.  Nothing else of the client changes, and a frame that does
    not parse changes nothing at all.  A room id learnt this way is the one
    that the next offer carries. *)
Theorem message_ids_are_kept valid_url s ws so message :
  Client.sockets s !! ws = Some so ->
  Client.ws_readyState so = OPEN ->
  let s' := (Client.step valid_url s (Client.WsMessage ws (Some message))).1 in
  Client.playerId s'
  = (if field_truthy (m_playerId message) then m_playerId message
     else Client.playerId s) /\
  Client.roomId s'
  = (if field_truthy (m_roomId message) then m_roomId message
     else Client.roomId s) /\
  Client.roomCode s'
  = (if field_truthy (m_roomCode message) then m_roomCode message
     else Client.roomCode s) /\
  (Client.socket s', Client.eventListeners s', Client.reconnectAttempts s',
   Client.reconnectTimeout s', Client.sockets s', Client.timers s',
   Client.promises s')
  = (Client.socket s, Client.eventListeners s, Client.reconnectAttempts s,
     Client.reconnectTimeout s, Client.sockets s, Client.timers s,
     Client.promises s) /\
  Client.step valid_url s (Client.WsMessage ws None) = (s, []) /\
  (forall offer,
     Client.socket s = Some ws ->
     field_truthy (m_roomId message) = true ->
     Client.step valid_url s' (Client.CallSendOffer offer)
     = (s', [Client.WsSend ws
               (mkMsg "offer" None (m_roomId message) None (Some offer) None None
                  None None None None)])).
Proof.
  intros Hso Hopen s'. subst s'. rewrite (step_message _ _ _ _ _ Hso Hopen).
  assert (Client.step valid_url s (Client.WsMessage ws None) = (s, [])) as Hnone.
  { unfold Client.step, Client.handle, Trace.exec, Trace.bind, Trace.get.
    by rewrite Hso, decide_True by done. }
  assert (forall offer,
    Client.socket s = Some ws ->
    field_truthy (m_roomId message) = true ->
    Client.step valid_url (store_ids message s) (Client.CallSendOffer offer)
    = (store_ids message s,
       [Client.WsSend ws
          (mkMsg "offer" None (m_roomId message) None (Some offer) None None
             None None None None)])) as Hoffer.
  { intros offer Hsock Hroom.
    assert (Client.socket (store_ids message s) = Some ws /\
            Client.socket_state (store_ids message s) ws = Some OPEN /\
            Client.roomId (store_ids message s) = m_roomId message)
      as (Hsock' & Hopen' & Hroom').
    { unfold store_ids, Client.socket_state. rewrite Hroom.
      destruct (field_truthy (m_playerId message)),
               (field_truthy (m_roomCode message)); simpl;
        rewrite Hso; simpl; by rewrite Hopen. }
    unfold Client.step, Client.handle, Trace.exec, Client.sendOffer,
      Trace.bind, Trace.get.
    rewrite Hroom', Hroom. simpl.
    by rewrite (send_open _ _ _ Hsock' Hopen'). }
  unfold store_ids in *.
  destruct (field_truthy (m_playerId message)),
           (field_truthy (m_roomId message)),
           (field_truthy (m_roomCode message)); by repeat split.
Qed.

Lemma message_ids_are_kept_witness :
  Client.playerId
    (Client.step ClientScenario.valid_url ClientScenario.connected
       (Client.WsMessage 2
          (Some (mkMsg "room-created" (Some "4XMVUE") (Some Scenario.room1) None
                   None None None None None None None)))).1
  = Some Scenario.playerX /\
  Client.step ClientScenario.valid_url
    (Client.step ClientScenario.valid_url ClientScenario.connected
       (Client.WsMessage 2
          (Some (mkMsg "room-created" (Some "4XMVUE") (Some Scenario.room1) None
                   None None None None None None None)))).1
    (Client.CallSendOffer PeerScenario.sdp)
  = ((Client.step ClientScenario.valid_url ClientScenario.connected
        (Client.WsMessage 2
           (Some (mkMsg "room-created" (Some "4XMVUE") (Some Scenario.room1) None
                    None None None None None None None)))).1,
     [Client.WsSend 2
        (mkMsg "offer" None (Some Scenario.room1) None (Some PeerScenario.sdp)
           None None None None None None)]).
Proof.
  destruct (message_ids_are_kept ClientScenario.valid_url ClientScenario.connected
              2 (Client.mkSocket OPEN ClientScenario.url 1 3)
              (mkMsg "room-created" (Some "4XMVUE") (Some Scenario.room1) None
                 None None None None None None None))
    as (Hplayer & _ & _ & _ & _ & Hoffer).
  - vm_compute. reflexivity.
  - reflexivity.
  - split; [exact Hplayer|]. apply Hoffer; reflexivity.
Defined.

(** ** Disconnecting *)

Lemma close_without_socket valid_url s ws wasClean reason code :
  Client.socket s = None ->
  exists s' t,
    Client.step valid_url s (Client.WsClosed ws wasClean reason code) = (s', t) /\
    (t = [] \/ t = [Client.Thrown "TypeError"]) /\
    Client.socket s' = None /\
    Client.timers s' = Client.timers s /\
    Client.promises s' = Client.promises s /\
    Client.reconnectTimeout s' = Client.reconnectTimeout s /\
    Client.reconnectAttempts s' = Client.reconnectAttempts s.
Proof.
  intros Hsock.
  destruct (Client.sockets s !! ws) as [so|] eqn:Hso;
    [destruct (decide (Client.ws_readyState so = CLOSED)) eqn:Hdec|].
  all: client_eval; do 2 eexists; (split; [reflexivity|]).
  all: split; [by auto|done].
Qed.

(** X15.  [disconnect()] closes the socket of the client
    and forgets it, and clears a pending reconnect timer, which then never
    fires; the ids and the listeners stay.  When the close event of the old
    socket arrives afterwards its handler does not get past reading
    [this.socket!.readyState]: no listener is called, no timer is set, no
    socket is created and no promise is settled, so the client does not
    reconnect. *)
Theorem disconnect_is_final valid_url s :
  let r := Client.step valid_url s Client.CallDisconnect in
  Client.socket r.1 = None /\
  (forall ws, Client.socket s = Some ws -> In (Client.WsClose ws) r.2) /\
  (forall t,
     Client.reconnectTimeout s = Some t -> t <> 0 ->
     Client.reconnectTimeout r.1 = None /\ Client.timers r.1 !! t = None /\
     In (Client.ClearTimeout t) r.2 /\
     Client.step valid_url r.1 (Client.TimerFired t) = (r.1, [])) /\
  (Client.playerId r.1, Client.roomId r.1, Client.roomCode r.1,
   Client.eventListeners r.1, Client.promises r.1)
  = (Client.playerId s, Client.roomId s, Client.roomCode s,
     Client.eventListeners s, Client.promises s) /\
  (forall ws wasClean reason code,
     let r' := Client.step valid_url r.1
                 (Client.WsClosed ws wasClean reason code) in
     (r'.2 = [] \/ r'.2 = [Client.Thrown "TypeError"]) /\
     Client.socket r'.1 = None /\
     Client.timers r'.1 = Client.timers r.1 /\
     Client.promises r'.1 = Client.promises r.1).
Proof.
  intros r.
  assert (exists s' t,
    Client.step valid_url s Client.CallDisconnect = (s', t) /\
    Client.socket s' = None /\
    (forall ws, Client.socket s = Some ws -> In (Client.WsClose ws) t) /\
    (forall t0,
       Client.reconnectTimeout s = Some t0 -> t0 <> 0 ->
       Client.reconnectTimeout s' = None /\ Client.timers s' !! t0 = None /\
       In (Client.ClearTimeout t0) t) /\
    (Client.playerId s', Client.roomId s', Client.roomCode s',
     Client.eventListeners s', Client.promises s')
    = (Client.playerId s, Client.roomId s, Client.roomCode s,
       Client.eventListeners s, Client.promises s))
    as (s' & t & Hstep & Hsock & Hclose & Htimer & Hkept).
  { unfold Client.step, Client.handle, Client.disconnect.
    destruct (Client.socket s) as [ws|] eqn:Hs;
      [destruct (Client.sockets s !! ws) as [[st u p t0]|] eqn:Hso; [destruct st|]|];
      (destruct (Client.reconnectTimeout s) as [[|t1]|] eqn:Ht).
    all: client_eval; do 2 eexists; (split; [reflexivity|]).
    all: split; [done|]; split; [|split; [|done]].
    all: try (intros ws0 [= <-]; by left).
    all: try done.
    all: intros tm [= <-] Hne; try done.
    all: client_simpl.
    all: split; [done|]; split; [by rewrite lookup_delete_eq|].
    all: simpl; auto 6. }
  subst r. rewrite Hstep. cbn [fst snd]. split; [done|]. split; [done|].
  split; [|split; [done|]].
  - intros t0 Ht0 Hne. destruct (Htimer t0 Ht0 Hne) as (Hrt & Hgone & Hclear).
    repeat split; try done.
    unfold Client.step, Client.handle, Trace.exec, Trace.bind, Trace.get.
    by rewrite Hgone.
  - intros ws wasClean reason code.
    destruct (close_without_socket valid_url s' ws wasClean reason code Hsock)
      as (s2 & t2 & Hstep2 & Ht2 & Hs2 & Htm & Hpr & _).
    rewrite Hstep2. by cbn [fst snd].
Qed.

Lemma disconnect_is_final_witness :
  Client.socket
    (Client.step ClientScenario.valid_url ClientScenario.connected
       Client.CallDisconnect).1 = None /\
  In (Client.WsClose 2)
    (Client.step ClientScenario.valid_url ClientScenario.connected
       Client.CallDisconnect).2 /\
  (Client.step ClientScenario.valid_url
     (Client.step ClientScenario.valid_url ClientScenario.connected
        Client.CallDisconnect).1
     (Client.WsClosed 2 true "" 1000)).2 = [Client.Thrown "TypeError"].
Proof.
  destruct (disconnect_is_final ClientScenario.valid_url ClientScenario.connected)
    as (Hsock & Hclose & _ & _ & _).
  split; [exact Hsock|]. split; [apply Hclose; reflexivity|].
  vm_compute. reflexivity.
Defined.

(** ** A retry that succeeds *)

Lemma written_app t1 t2 : written (t1 ++ t2) = written t1 ++ written t2.
Proof. apply List.filter_app. Qed.

Lemma written_invoked event message callbacks :
  written (map (fun cb => Client.Invoked event cb message) callbacks) = [].
Proof. by induction callbacks. Qed.

Lemma omap_invoked {B} (f : Client.Effect -> option B) event message callbacks :
  (forall cb, f (Client.Invoked event cb message) = None) ->
  omap f (map (fun cb => Client.Invoked event cb message) callbacks) = [].
Proof.
  intros Hf. induction callbacks as [|cb rest IH]; [done|].
  change (omap f (map (fun cb => Client.Invoked event cb message) (cb :: rest)))
    with (match f (Client.Invoked event cb message) with
          | Some y =>
              y :: omap f (map (fun cb => Client.Invoked event cb message) rest)
          | None => omap f (map (fun cb => Client.Invoked event cb message) rest)
          end).
  by rewrite Hf.
Qed.

(** The reconnect timer expires: [connect] creates the socket of the retry and
    the promise whose [then] announces the reconnection. *)
Lemma retry_connects valid_url url t s :
  Client.timers s !! t = Some (Client.ReconnectTimer url) ->
  valid_url url = true ->
  exists s1 t1,
    Client.step valid_url s (Client.TimerFired t) = (s1, t1) /\
    Client.emitted t1 = [] /\ Client.resolved t1 = [] /\ written t1 = [] /\
    Client.socket s1 = Some (S (Client.fresh s)) /\
    Client.sockets s1 !! S (Client.fresh s)
    = Some (Client.mkSocket CONNECTING url (Client.fresh s) (S (S (Client.fresh s)))) /\
    Client.promises s1 !! Client.fresh s
    = Some (Client.mkPromise Client.Pending Client.Reconnected) /\
    Client.roomCode s1 = Client.roomCode s /\
    Client.eventListeners s1 = Client.eventListeners s.
Proof.
  intros Ht Hvalid.
  destruct (Client.socket s) as [old|] eqn:Hsock.
  1: destruct (Client.sockets s !! old) as [[st u p0 t0]|] eqn:Hold; [destruct st|].
  all: client_eval; do 2 eexists; (split; [reflexivity|]).
  all: client_simpl; rewrite !lookup_insert_eq; by repeat split.
Qed.

(** The socket of a retry opens. *)
Lemma retry_opens valid_url s ws so :
  Client.socket s = Some ws ->
  Client.sockets s !! ws = Some so ->
  Client.ws_readyState so = CONNECTING ->
  Client.promises s !! Client.ws_promise so
  = Some (Client.mkPromise Client.Pending Client.Reconnected) ->
  exists s1 t1,
    Client.step valid_url s (Client.WsOpened ws) = (s1, t1) /\
    Client.emitted t1 = [("reconnected", msg0 "reconnected")] /\
    Client.resolved t1 = [Client.ws_promise so] /\
    written t1
    = match Client.roomCode s with
      | Some code =>
          if truthy code
          then [Client.WsSend ws
                  (mkMsg "join-room" (Some code) None None None None None None
                     None None None)]
          else []
      | None => []
      end /\
    Client.reconnectAttempts s1 = 0%Z /\
    Client.socket s1 = Some ws /\
    Client.socket_state s1 ws = Some OPEN.
Proof.
  intros Hsock Hso Hst Hp.
  destruct (decide (Client.ws_readyState so = CONNECTING)) eqn:Hdec; [|done].
  destruct (Client.eventListeners s !! "reconnected") as [cbs|] eqn:HL;
    destruct (Client.roomCode s) as [code|] eqn:Hcode;
    try destruct (truthy code) eqn:Htruthy.
  all: client_eval; rewrite ?lookup_insert_eq; client_eval;
       rewrite ?lookup_insert_eq; client_eval;
       rewrite ?decide_True by done; client_eval.
  all: do 2 eexists; (split; [reflexivity|]).
  all: unfold written; client_simpl;
       rewrite ?List.filter_app, ?written_invoked, ?omap_app, ?omap_invoked by done;
       client_simpl.
  all: repeat split; try done.
  all: by rewrite lookup_insert_eq.
Qed.

(** X16.  When the timer of a retry expires and the socket
    that the retry creates opens, the client emits reconnected, once, resolves
    the promise of the retry, sets the count of retries back to zero, and, if
    it remembers a room code, asks on the new socket to join that room again;
    without a room code it writes nothing. *)
Theorem reconnection_rejoins valid_url url t s :
  Client.timers s !! t = Some (Client.ReconnectTimer url) ->
  valid_url url = true ->
  let ws := S (Client.fresh s) in
  let r := Client.run valid_url [Client.TimerFired t; Client.WsOpened ws] s in
  Client.emitted r.2 = [("reconnected", msg0 "reconnected")] /\
  Client.resolved r.2 = [Client.fresh s] /\
  written r.2
  = match Client.roomCode s with
    | Some code =>
        if truthy code
        then [Client.WsSend ws
                (mkMsg "join-room" (Some code) None None None None None None
                   None None None)]
        else []
    | None => []
    end /\
  Client.reconnectAttempts r.1 = 0%Z /\
  Client.socket r.1 = Some ws /\
  Client.socket_state r.1 ws = Some OPEN.
Proof.
  intros Ht Hvalid ws r.
  destruct (retry_connects valid_url url t s Ht Hvalid)
    as (s1 & t1 & Hstep1 & He1 & Hr1 & Hw1 & Hsock & Hso & Hp & Hcode & _).
  destruct (retry_opens valid_url s1 ws _ Hsock Hso eq_refl Hp)
    as (s2 & t2 & Hstep2 & He2 & Hr2 & Hw2 & Hattempts & Hsock2 & Hopen).
  subst r. rewrite !client_run_cons, Hstep1. cbn [fst snd]. rewrite Hstep2.
  cbn [Client.run fst snd]. rewrite app_nil_r.
  unfold Client.emitted, Client.resolved in *.
  rewrite !omap_app, written_app, He1, He2, Hr1, Hr2, Hw1, Hw2, Hcode.
  by repeat split.
Qed.

Lemma reconnection_rejoins_witness :
  written
    (Client.run ClientScenario.valid_url [Client.TimerFired 4; Client.WsOpened 6]
       (Client.run ClientScenario.valid_url
          [Client.WsMessage 2
             (Some (mkMsg "room-created" (Some "4XMVUE") (Some Scenario.room1) None
                      None None None None None None None));
           Client.WsClosed 2 false "" 1006]
          ClientScenario.connected).1).2
  = [Client.WsSend 6
       (mkMsg "join-room" (Some "4XMVUE") None None None None None None None
          None None)].
Proof.
  destruct (reconnection_rejoins ClientScenario.valid_url ClientScenario.url 4
              (Client.run ClientScenario.valid_url
                 [Client.WsMessage 2
                    (Some (mkMsg "room-created" (Some "4XMVUE")
                             (Some Scenario.room1) None None None None None None
                             None None));
                  Client.WsClosed 2 false "" 1006]
                 ClientScenario.connected).1)
    as (_ & _ & Hwritten & _).
  - vm_compute. reflexivity.
  - reflexivity.
  - exact Hwritten.
Defined.

(** * Further properties of the peer session *)

(** ** Sending on the data channel *)

(** X17.  [sendMessage] returns true exactly when the session
    is connected, the channel of its role is open and [channel.send] does not
    throw; it then writes the message to that channel, once.  In every other
    case it returns false and writes nothing.  It never changes the session. *)
Theorem sendMessage_guard env message s :
  exists sent : bool,
    Peer.sendMessage env message s
    = (sent, s,
       if sent then
         match Peer.active_channel s with
         | Some channel => [Peer.ChannelSend channel message]
         | None => []
         end
       else []) /\
    (sent = true <-> Peer.can_send s /\ Peer.send_throws env = false) /\
    Peer.step env s (Peer.CallSendMessage message)
    = (s, (Peer.sendMessage env message s).2).
Proof.
  destruct (sendMessage_run env message s) as (sent & Hrun & Hiff).
  exists sent. split; [done|]. split; [done|].
  unfold Peer.step, Peer.handle, Trace.exec, Trace.bind, Trace.get, Trace.ret.
  rewrite Hrun. simpl. by rewrite app_nil_r.
Qed.

(** X18.  [sendPositionUpdate] and
    [sendPlayerAction] take the next sequence number whether or not the
    message can be sent: the counter moves on even when the call returns
    false.  What the call returns and writes is what [sendMessage] returns
    and writes for the message stamped with the id of the player (or unknown),
    the time, the number taken, and the position, or the action and its
    data. *)
Theorem updates_use_up_sequence_numbers env s x y action data :
  let s1 := Peer.set_sequence (Peer.js_incr (Peer.sequence s)) s in
  let position :=
    Peer.mkGameMessage Peer.POSITION_UPDATE (Peer.playerId_or_unknown env)
      (Peer.Date_now env) (Peer.sequence s) (Some (x, y)) None None in
  let act :=
    Peer.mkGameMessage Peer.PLAYER_ACTION (Peer.playerId_or_unknown env)
      (Peer.Date_now env) (Peer.sequence s) None (Some action) (Some data) in
  Peer.sendPositionUpdate env x y s
  = ((Peer.sendMessage env position s).1.1, s1, (Peer.sendMessage env position s).2) /\
  Peer.sendPlayerAction env action data s
  = ((Peer.sendMessage env act s).1.1, s1, (Peer.sendMessage env act s).2) /\
  (Peer.step env s (Peer.CallSendPositionUpdate x y)).1 = s1 /\
  (Peer.step env s (Peer.CallSendPlayerAction action data)).1 = s1.
Proof.
  intros s1 position act.
  assert (forall message,
    Peer.sendMessage env message s1
    = ((Peer.sendMessage env message s).1.1, s1, (Peer.sendMessage env message s).2))
    as Hsame.
  { intros message.
    unfold Peer.sendMessage, Peer.channel_state, Trace.bind, Trace.get, Trace.ret,
      Trace.tell. subst s1. simpl.
    destruct (Peer.isConnected s); simpl; [|done].
    destruct (if Peer.isHost s then Peer.dataChannel s
              else Peer.remoteDataChannel s); [|done].
    destruct (decide _); [|done]. by destruct (Peer.send_throws env). }
  assert (Peer.sendPositionUpdate env x y s
          = ((Peer.sendMessage env position s).1.1, s1,
             (Peer.sendMessage env position s).2)) as Hpos.
  { unfold Peer.sendPositionUpdate, Peer.next_sequence, Trace.bind, Trace.get,
      Trace.modify, Trace.ret. fold s1. fold position. by rewrite Hsame. }
  assert (Peer.sendPlayerAction env action data s
          = ((Peer.sendMessage env act s).1.1, s1,
             (Peer.sendMessage env act s).2)) as Hact.
  { unfold Peer.sendPlayerAction, Peer.next_sequence, Trace.bind, Trace.get,
      Trace.modify, Trace.ret. fold s1. fold act. by rewrite Hsame. }
  split; [done|]. split; [done|].
  unfold Peer.step, Peer.handle, Trace.exec, Trace.bind at 1 2 3 4,
    Trace.get at 1 2, Trace.ret.
  by rewrite Hpos, Hact.
Qed.

(** ** Messages that arrive on the data channel *)

Lemma notified_map message (listeners : list nat) :
  notified (map (fun listener => Peer.Notify listener message) listeners)
  = map (fun listener => (listener, message)) listeners.
Proof.
  induction listeners as [|l rest IH]; [done|].
  change (notified (map (fun listener => Peer.Notify listener message) (l :: rest)))
    with ((l, message) ::
          notified (map (fun listener => Peer.Notify listener message) rest)).
  by rewrite IH.
Qed.

(** X19.  A message that arrives on an open
    channel and is neither a heartbeat nor a heartbeat-ack is handed to every
    registered listener, in the order of registration, and the session stays
    as it is; a heartbeat or a heartbeat-ack is never handed to a listener,
    whatever the state of the session; and a frame that does not parse is
    dropped. *)
Theorem game_messages_reach_listeners env s channel message :
  Peer.channels s !! channel = Some Peer.ch_open ->
  let r := Peer.step env s (Peer.ChannelMessage channel (Some message)) in
  (Peer.g_type message <> Peer.HEARTBEAT ->
   Peer.g_type message <> Peer.HEARTBEAT_ACK ->
   r = (s, map (fun listener => Peer.Notify listener message)
             (Peer.messageListeners s))) /\
  (Peer.g_type message = Peer.HEARTBEAT \/ Peer.g_type message = Peer.HEARTBEAT_ACK ->
   notified r.2 = []) /\
  Peer.step env s (Peer.ChannelMessage channel None) = (s, []).
Proof.
  intros Hopen r. subst r.
  assert (forall data,
    Peer.step env s (Peer.ChannelMessage channel data)
    = Trace.exec (Peer.channel_onmessage env data) s) as Hstep.
  { intros data. unfold Peer.step, Peer.handle. rewrite exec_bind.
    unfold Trace.get. rewrite Hopen. by destruct (Trace.exec _ _). }
  rewrite !Hstep. unfold Peer.channel_onmessage. split; [|split; [|done]].
  - intros Hb Ha. rewrite !decide_False by done.
    by unfold Peer.notifyMessageListeners, Trace.exec, Trace.bind, Trace.get,
         Trace.tell.
  - intros [Hb|Ha].
    + rewrite decide_True by done.
      unfold Peer.next_sequence, Trace.exec, Trace.bind, Trace.get, Trace.modify,
        Trace.ret.
      destruct (sendMessage_run env
                  (Peer.mkGameMessage Peer.HEARTBEAT_ACK (Peer.playerId_or_unknown env)
                     (Peer.Date_now env) (Peer.sequence s) None None None)
                  (Peer.set_sequence (Peer.js_incr (Peer.sequence s)) s))
        as (sent & Hrun & _).
      rewrite Hrun. destruct sent; [|done].
      by destruct (Peer.active_channel _).
    + rewrite decide_False by (rewrite Ha; done).
      by rewrite decide_True by done.
Qed.

Lemma game_messages_reach_listeners_witness :
  Peer.step (PeerScenario.env 3000)
    (Peer.step (PeerScenario.env 2000) PeerScenario.host (Peer.CallOnMessage 7)).1
    (Peer.ChannelMessage 2
       (Some (Peer.mkGameMessage Peer.POSITION_UPDATE "peer" 2990 7 (Some (3, 4)%Z)
                None None)))
  = ((Peer.step (PeerScenario.env 2000) PeerScenario.host (Peer.CallOnMessage 7)).1,
     [Peer.Notify 7
        (Peer.mkGameMessage Peer.POSITION_UPDATE "peer" 2990 7 (Some (3, 4)%Z)
           None None)]).
Proof.
  apply (game_messages_reach_listeners (PeerScenario.env 3000)
           (Peer.step (PeerScenario.env 2000) PeerScenario.host
              (Peer.CallOnMessage 7)).1 2
           (Peer.mkGameMessage Peer.POSITION_UPDATE "peer" 2990 7 (Some (3, 4)%Z)
              None None)).
  - reflexivity.
  - discriminate.
  - discriminate.
Defined.

(** ** Message listeners *)

Lemma peer_remove_first_notin callback (listeners : list nat) :
  callback ∉ listeners -> Peer.remove_first callback listeners = listeners.
Proof.
  induction listeners as [|cb rest IH]; [done|]. simpl.
  intros Hnin. rewrite decide_False by (intros ->; apply Hnin; left).
  rewrite IH; [done|]. intros Hin. apply Hnin. by right.
Qed.

Lemma peer_remove_first_app callback (listeners : list nat) :
  callback ∉ listeners ->
  Peer.remove_first callback (listeners ++ [callback]) = listeners.
Proof.
  induction listeners as [|cb rest IH]; simpl.
  - intros _. by rewrite decide_True.
  - intros Hnin. rewrite decide_False by (intros ->; apply Hnin; left).
    rewrite IH; [done|]. intros Hin. apply Hnin. by right.
Qed.

Lemma peer_remove_first_NoDup callback (listeners : list nat) :
  NoDup listeners -> callback ∉ Peer.remove_first callback listeners.
Proof.
  induction listeners as [|cb rest IH]; simpl; [by intros _ ?%elem_of_nil|].
  intros [Hnin Hnd]%NoDup_cons. destruct (decide (cb = callback)) as [->|Hne].
  - done.
  - intros [?|Hin]%elem_of_cons; [done|]. by apply IH.
Qed.

Lemma peer_remove_first_split callback (before after : list nat) :
  callback ∉ before ->
  Peer.remove_first callback (before ++ callback :: after) = before ++ after.
Proof.
  induction before as [|cb rest IH]; simpl.
  - intros _. by rewrite decide_True.
  - intros Hnin. rewrite decide_False by (intros ->; apply Hnin; left).
    rewrite IH; [done|]. intros Hin. apply Hnin. by right.
Qed.

(** X20.  [onMessage] adds the listener after the
    ones that are registered; [offMessage] takes out its earliest
    registration and keeps the others, later registrations of the same
    listener included, in their order; neither writes anything or touches the
    rest of the session.  For a listener that was not registered, [offMessage] changes nothing, and
    [onMessage] followed by [offMessage] gives back the session as it was;
    and once a listener that was registered only once is taken out, it is no
    longer among the listeners that a message is handed to. *)
Theorem message_listener_round_trip env s callback :
  let on := Peer.step env s (Peer.CallOnMessage callback) in
  let off := Peer.step env s (Peer.CallOffMessage callback) in
  on = (Peer.set_messageListeners (Peer.messageListeners s ++ [callback]) s, []) /\
  off.2 = [] /\
  (forall before after,
     Peer.messageListeners s = before ++ callback :: after ->
     callback ∉ before ->
     off = (Peer.set_messageListeners (before ++ after) s, [])) /\
  (callback ∉ Peer.messageListeners s ->
   off = (s, []) /\
   Peer.step env on.1 (Peer.CallOffMessage callback) = (s, [])) /\
  (NoDup (Peer.messageListeners s) ->
   callback ∉ Peer.messageListeners off.1).
Proof.
  intros on off. subst on off.
  unfold Peer.step, Peer.handle, Trace.exec, Trace.bind, Trace.get, Trace.modify.
  simpl. split; [done|]. split; [done|]. split; [|split].
  - intros before after -> Hnin. by rewrite peer_remove_first_split.
  - intros Hnin. rewrite peer_remove_first_notin, peer_remove_first_app by done.
    by destruct s.
  - apply peer_remove_first_NoDup.
Qed.

Lemma message_listener_round_trip_witness :
  Peer.step (PeerScenario.env 2000)
    (Peer.step (PeerScenario.env 2000) PeerScenario.host (Peer.CallOnMessage 7)).1
    (Peer.CallOffMessage 7)
  = (PeerScenario.host, []) /\
  (let s := (Peer.run [(PeerScenario.env 2000, Peer.CallOnMessage 7);
                       (PeerScenario.env 2000, Peer.CallOnMessage 8);
                       (PeerScenario.env 2000, Peer.CallOnMessage 7)]
               PeerScenario.host).1 in
   Peer.messageListeners s = [7; 8; 7] /\
   Peer.step (PeerScenario.env 2000) s (Peer.CallOffMessage 7)
   = (Peer.set_messageListeners [8; 7] s, [])).
Proof.
  split.
  - destruct (message_listener_round_trip (PeerScenario.env 2000)
                PeerScenario.host 7) as (_ & _ & _ & Hfresh & _).
    apply Hfresh. apply (bool_decide_unpack _). vm_compute. exact I.
  - intros s. split; [reflexivity|].
    destruct (message_listener_round_trip (PeerScenario.env 2000) s 7)
      as (_ & _ & Hfirst & _).
    apply (Hfirst [] [8; 7]); [reflexivity|]. apply not_elem_of_nil.
Defined.

(** ** Closing the session *)

Lemma negotiation_app t1 t2 : negotiation (t1 ++ t2) = negotiation t1 ++ negotiation t2.
Proof. apply List.filter_app. Qed.

Lemma stopHeartbeat_negotiation s : negotiation (Peer.stopHeartbeat s).2 = [].
Proof.
  destruct s as [pc dc rdc host conn ls seq hi ht ack rec chs ice f].
  by destruct hi as [[|id1]|], ht as [[|id2]|].
Qed.

(** What [closePeerConnection] does to the runtime: it closes the data channel
    and the peer connection that the session has, and takes no step of a
    negotiation. *)
Lemma closePeerConnection_effects s :
  exists s' t,
    Peer.closePeerConnection s = (tt, s', t) /\
    negotiation t = [] /\
    (forall pc, Peer.peerConnection s = Some pc -> In (Peer.PcClose pc) t) /\
    (forall ch, Peer.dataChannel s = Some ch -> In (Peer.ChannelClose ch) t) /\
    (forall id, Peer.heartbeatInterval s = Some id -> id <> 0 ->
                In (Peer.ClearInterval id) t).
Proof.
  destruct s as [pc dc rdc host conn ls seq hi ht ack rec chs ice f].
  pose proof (stopHeartbeat_negotiation
                (Peer.mkState pc dc rdc host conn ls seq hi ht ack rec chs ice f))
    as Hneg.
  destruct (stopHeartbeat_run
              (Peer.mkState pc dc rdc host conn ls seq hi ht ack rec chs ice f))
    as (hi' & ht' & t0 & Hstop & _ & _ & Hclear).
  cbn -[Peer.stopHeartbeat] in Hstop, Hclear. rewrite Hstop in Hneg.
  cbn [snd] in Hneg.
  unfold Peer.closePeerConnection. unfold Trace.bind at 1. rewrite Hstop.
  destruct dc as [ch|]; [destruct (chs !! ch) as [[]|] eqn:Hch|];
    destruct pc as [pc|].
  all: unfold_peer; peer_simpl; rewrite ?Hch; peer_simpl.
  all: do 2 eexists; (split; [reflexivity|]).
  all: rewrite ?negotiation_app, Hneg.
  all: split; [reflexivity|].
  all: split; [intros ? [= <-] || (intros ? [=])|].
  all: try (apply in_or_app; right; simpl; auto 6).
  all: split; [intros ? [= <-] || (intros ? [=])|].
  all: try (apply in_or_app; right; simpl; auto 6).
  all: intros id Hid Hne; apply in_or_app; left; by apply Hclear.
Qed.

(** X21.  [disconnect()] leaves the session without
    peer connection and channels and not connected: the peer connection and
    the data channel it had are closed, a running heartbeat interval is
    cleared, and no step of a negotiation is taken.  The role, the listeners,
    the sequence counter and the relay flag stay.  Afterwards [sendMessage]
    returns false and writes nothing. *)
Theorem disconnect_closes_session env s :
  let r := Peer.step env s Peer.CallDisconnect in
  (Peer.peerConnection r.1, Peer.dataChannel r.1, Peer.remoteDataChannel r.1,
   Peer.isConnected r.1) = (None, None, None, false) /\
  (Peer.isHost r.1, Peer.messageListeners r.1, Peer.sequence r.1,
   Peer.reconnecting r.1, Peer.lastHeartbeatAck r.1)
  = (Peer.isHost s, Peer.messageListeners s, Peer.sequence s, Peer.reconnecting s,
     Peer.lastHeartbeatAck s) /\
  negotiation r.2 = [] /\
  (forall pc, Peer.peerConnection s = Some pc -> In (Peer.PcClose pc) r.2) /\
  (forall ch, Peer.dataChannel s = Some ch -> In (Peer.ChannelClose ch) r.2) /\
  (forall id, Peer.heartbeatInterval s = Some id -> id <> 0 ->
              Peer.heartbeatInterval r.1 = None /\ In (Peer.ClearInterval id) r.2) /\
  (forall message,
     Peer.sendMessage env message r.1 = (false, r.1, [])).
Proof.
  intros r.
  destruct (closePeerConnection_run s)
    as (hi & ht & chs & ice & t & Hrun & _ & Hhi).
  destruct (closePeerConnection_effects s)
    as (s' & t' & Hrun' & Hneg & Hpc & Hch & Hclear).
  rewrite Hrun in Hrun'. injection Hrun' as <- <-.
  assert (Peer.step env s Peer.CallDisconnect
          = (Peer.mkState None None None (Peer.isHost s) false
               (Peer.messageListeners s) (Peer.sequence s) hi ht
               (Peer.lastHeartbeatAck s) (Peer.reconnecting s) chs ice
               (Peer.fresh s), t)) as Hstep.
  { unfold Peer.step, Peer.handle. rewrite exec_bind. unfold Trace.get.
    unfold Trace.exec. by rewrite Hrun. }
  subst r. rewrite Hstep. cbn [fst snd].
  split; [done|]. split; [done|]. split; [done|]. split; [done|]. split; [done|].
  split.
  - intros id Hid Hne. split; [|by apply Hclear].
    destruct Hhi as [?|Hzero]; [done|]. congruence.
  - intros message.
    destruct (sendMessage_run env message
                (Peer.mkState None None None (Peer.isHost s) false
                   (Peer.messageListeners s) (Peer.sequence s) hi ht
                   (Peer.lastHeartbeatAck s) (Peer.reconnecting s) chs ice
                   (Peer.fresh s)))
      as (sent & Hsend & Hiff).
    destruct sent; [|done]. by destruct Hiff as [[[? _] _] _].
Qed.

Lemma disconnect_closes_session_witness :
  Peer.heartbeatInterval
    (Peer.step (PeerScenario.env 5000) PeerScenario.host Peer.CallDisconnect).1 = None /\
  In (Peer.ClearInterval 3)
    (Peer.step (PeerScenario.env 5000) PeerScenario.host Peer.CallDisconnect).2 /\
  In (Peer.PcClose 1)
    (Peer.step (PeerScenario.env 5000) PeerScenario.host Peer.CallDisconnect).2 /\
  In (Peer.ChannelClose 2)
    (Peer.step (PeerScenario.env 5000) PeerScenario.host Peer.CallDisconnect).2.
Proof.
  destruct (disconnect_closes_session (PeerScenario.env 5000) PeerScenario.host)
    as (_ & _ & _ & Hpc & Hch & Hbeat & _).
  destruct (Hbeat 3) as [Hnone Hclear]; [reflexivity|lia|].
  split; [exact Hnone|]. split; [exact Hclear|].
  split; [apply Hpc; reflexivity|apply Hch; reflexivity].
Defined.

(** ** The relay connection and the peer connection *)

Lemma peer_run_cons env ev evs s :
  Peer.run ((env, ev) :: evs) s
  = ((Peer.run evs (Peer.step env s ev).1).1,
     (Peer.step env s ev).2 ++ (Peer.run evs (Peer.step env s ev).1).2).
Proof.
  simpl. destruct (Peer.step env s ev) as [s1 t1]. simpl.
  by destruct (Peer.run evs s1) as [s2 t2].
Qed.

(** [handleDisconnection] while the client is reconnecting to the relay. *)
Lemma handleDisconnection_deferred env s :
  Peer.reconnecting s = true ->
  exists hi ht t,
    Peer.handleDisconnection env s
    = (tt, Peer.mkState (Peer.peerConnection s) (Peer.dataChannel s)
             (Peer.remoteDataChannel s) (Peer.isHost s) false
             (Peer.messageListeners s) (Peer.js_incr (Peer.sequence s)) hi ht
             (Peer.lastHeartbeatAck s) true (Peer.channels s)
             (Peer.iceConnectionState s) (Peer.fresh s), t) /\
    List.filter Peer.initiates t = [].
Proof.
  destruct s as [pc dc rdc host conn ls seq hi ht ack rec chs ice f].
  simpl. intros ->.
  destruct (stopHeartbeat_run
              (Peer.mkState pc dc rdc host false ls seq hi ht ack true chs ice f))
    as (hi1 & ht1 & t0 & Hstop & Ht0 & _).
  cbn -[Peer.stopHeartbeat] in Hstop.
  exists hi1, ht1,
    ([] ++ t0 ++ [] ++
     map (fun listener =>
            Peer.Notify listener (Peer.system_message env seq "disconnected")) ls ++
     [] ++ []).
  split.
  { unfold Peer.handleDisconnection.
    run_step. eapply bind_run; [apply Hstop|].
    run_step. run_step. run_step. reflexivity. }
  by rewrite !List.filter_app, Ht0, filter_initiates_notify.
Qed.

(** X22.  When the client has reconnected to the
    relay, a session that is connected and in the offerer's role replaces its
    peer connection and starts a new offer; any other session only clears its
    flag.  A disconnection that is handled while the client is reconnecting to
    the relay starts no negotiation, and none is started when the client has
    reconnected either, since the session is no longer connected then: the
    peer connection it had stays in place. *)
Theorem relay_outage_and_restart env1 env2 env3 s :
  let r := Peer.step env1 s Peer.Reconnected in
  let outage :=
    Peer.run [(env1, Peer.Reconnecting); (env2, Peer.PlayerDisconnected);
              (env3, Peer.Reconnected)] s in
  (Peer.isConnected s = true -> Peer.isHost s = true ->
   Peer.peerConnection r.1 = Some (Peer.fresh s) /\
   Peer.dataChannel r.1 = Some (S (Peer.fresh s)) /\
   Peer.isConnected r.1 = false /\ Peer.reconnecting r.1 = false /\
   List.filter Peer.initiates r.2
   = [Peer.NewRTCPeerConnection (Peer.fresh s); Peer.PcCreateOffer (Peer.fresh s)]) /\
  (Peer.isConnected s && Peer.isHost s = false ->
   r = (Peer.set_reconnecting false s, [])) /\
  List.filter Peer.initiates outage.2 = [] /\
  Peer.peerConnection outage.1 = Peer.peerConnection s /\
  Peer.isConnected outage.1 = false /\
  Peer.reconnecting outage.1 = false.
Proof.
  intros r outage.
  assert (forall s0,
    Peer.isConnected s0 && Peer.isHost s0 = false ->
    Peer.step env3 s0 Peer.Reconnected = (Peer.set_reconnecting false s0, [])) as Hquiet.
  { intros s0 H. eapply step_run.
    - unfold Peer.handle, Peer.on_reconnected.
      run_step. run_step. run_step. cbn [Peer.isConnected Peer.set_reconnecting].
      destruct (Peer.isConnected s0); [|done]. simpl in H.
      by apply restartConnection_answerer.
    - done. }
  split; [|split].
  - intros Hconn Hhost.
    destruct (restartConnection_offerer (Peer.set_reconnecting false s) Hhost)
      as (s' & t & Hrun & _ & Hc & Hpc & Hdc & _ & _ & Hrec & _ & _ & Ht).
    assert (Peer.step env1 s Peer.Reconnected = (s', t)) as Hstep.
    { eapply step_run.
      - unfold Peer.handle, Peer.on_reconnected.
        run_step. run_step. run_step. cbn [Peer.isConnected Peer.set_reconnecting].
        rewrite Hconn. exact Hrun.
      - done. }
    subst r. rewrite Hstep. by cbn [fst snd].
  - intros H. subst r. eapply step_run.
    + unfold Peer.handle, Peer.on_reconnected.
      run_step. run_step. run_step. cbn [Peer.isConnected Peer.set_reconnecting].
      destruct (Peer.isConnected s); [|done]. simpl in H.
      by apply restartConnection_answerer.
    + done.
  - destruct (handleDisconnection_deferred env2 (Peer.set_reconnecting true s) eq_refl)
      as (hi & ht & t & Hrun & Ht).
    cbn [Peer.set_reconnecting Peer.peerConnection Peer.dataChannel
         Peer.remoteDataChannel Peer.isHost Peer.messageListeners Peer.sequence
         Peer.lastHeartbeatAck Peer.channels Peer.iceConnectionState Peer.fresh]
      in Hrun.
    assert (Peer.step env1 s Peer.Reconnecting = (Peer.set_reconnecting true s, []))
      as Hstep1 by done.
    assert (Peer.step env2 (Peer.set_reconnecting true s) Peer.PlayerDisconnected
            = (Peer.mkState (Peer.peerConnection s) (Peer.dataChannel s)
                 (Peer.remoteDataChannel s) (Peer.isHost s) false
                 (Peer.messageListeners s) (Peer.js_incr (Peer.sequence s)) hi ht
                 (Peer.lastHeartbeatAck s) true (Peer.channels s)
                 (Peer.iceConnectionState s) (Peer.fresh s), t)) as Hstep2.
    { unfold Peer.step, Peer.handle, Peer.on_player_disconnected.
      rewrite exec_bind. unfold Trace.get. unfold Trace.exec. by rewrite Hrun. }
    subst outage. rewrite !peer_run_cons, Hstep1. cbn [fst snd].
    rewrite Hstep2. cbn [fst snd]. rewrite Hquiet by done.
    cbn [fst snd Peer.run app]. rewrite app_nil_r. by rewrite Ht.
Qed.

Lemma relay_outage_and_restart_witness :
  List.filter Peer.initiates
    (Peer.step (PeerScenario.env 5000) PeerScenario.host Peer.Reconnected).2
  = [Peer.NewRTCPeerConnection 4; Peer.PcCreateOffer 4] /\
  Peer.step (PeerScenario.env 5000) PeerScenario.guest Peer.Reconnected
  = (Peer.set_reconnecting false PeerScenario.guest, []).
Proof.
  destruct (relay_outage_and_restart (PeerScenario.env 5000) (PeerScenario.env 5000)
              (PeerScenario.env 5000) PeerScenario.host) as (Hhost & _).
  destruct (relay_outage_and_restart (PeerScenario.env 5000) (PeerScenario.env 5000)
              (PeerScenario.env 5000) PeerScenario.guest) as (_ & Hguest & _).
  split; [apply Hhost; reflexivity|apply Hguest; reflexivity].
Defined.

(** ** A channel that opens after an outage of the relay *)

Lemma notified_app t1 t2 : notified (t1 ++ t2) = notified t1 ++ notified t2.
Proof. apply omap_app. Qed.

Lemma stopHeartbeat_notified s : notified (Peer.stopHeartbeat s).2 = [].
Proof.
  destruct s as [pc dc rdc host conn ls seq hi ht ack rec chs ice f].
  by destruct hi as [[|id1]|], ht as [[|id2]|].
Qed.

(** X23.  When a channel of the session
    opens, the session is connected, the channel is open and the relay flag is
    cleared.  If the flag was set, every listener is handed, once and in the
    order of registration, a system message that says reconnected and carries
    the next sequence number, and the event game:reconnected is dispatched to
    the window; if it was not set, no listener is called and the counter
    stays. *)
Theorem reopened_channel_announces_reconnection env s channel :
  Peer.channels s !! channel = Some Peer.ch_connecting \/
  Peer.channels s !! channel = Some Peer.ch_open ->
  let r := Peer.step env s (Peer.ChannelOpened channel) in
  Peer.isConnected r.1 = true /\ Peer.reconnecting r.1 = false /\
  Peer.channels r.1 !! channel = Some Peer.ch_open /\
  Peer.messageListeners r.1 = Peer.messageListeners s /\
  (Peer.reconnecting s = true ->
   notified r.2
   = map (fun listener =>
            (listener, Peer.system_message env (Peer.sequence s) "reconnected"))
       (Peer.messageListeners s) /\
   In (Peer.DispatchEvent "game:reconnected") r.2 /\
   Peer.sequence r.1 = Peer.js_incr (Peer.sequence s)) /\
  (Peer.reconnecting s = false ->
   notified r.2 = [] /\ Peer.sequence r.1 = Peer.sequence s).
Proof.
  intros Hch r.
  destruct s as [pc dc rdc host conn ls seq hi ht ack rec chs ice f].
  cbn in Hch.
  pose proof (stopHeartbeat_notified
                (Peer.mkState pc dc rdc host true ls seq hi ht ack rec
                   (<[channel := Peer.ch_open]> chs) ice f)) as Hquiet.
  destruct (stopHeartbeat_run
              (Peer.mkState pc dc rdc host true ls seq hi ht ack rec
                 (<[channel := Peer.ch_open]> chs) ice f))
    as (hi1 & ht1 & t0 & Hstop & _).
  cbn -[Peer.stopHeartbeat insert] in Hstop. rewrite Hstop in Hquiet.
  cbn [snd] in Hquiet.
  assert (exists s' t,
    Peer.step env (Peer.mkState pc dc rdc host conn ls seq hi ht ack rec chs ice f)
      (Peer.ChannelOpened channel) = (s', t) /\
    Peer.isConnected s' = true /\ Peer.reconnecting s' = false /\
    Peer.channels s' !! channel = Some Peer.ch_open /\
    Peer.messageListeners s' = ls /\
    Peer.sequence s' = (if rec then Peer.js_incr seq else seq) /\
    t = (t0 ++ [Peer.SetInterval f 2000]) ++
        (if rec then
           map (fun listener =>
                  Peer.Notify listener (Peer.system_message env seq "reconnected"))
             ls ++ [Peer.DispatchEvent "game:reconnected"]
         else []))
    as (s' & t & Hstep & Hconn & Hrec & Hopen & Hls & Hseq & Ht).
  { destruct rec; destruct Hch as [Hch|Hch].
    all: do 2 eexists; split;
      [ eapply step_run;
        [ unfold Peer.handle; run_step; cbn [Peer.channels]; rewrite Hch;
          run_step; unfold Peer.channel_onopen; run_step; eapply bind_run;
          [ unfold Peer.startHeartbeat; eapply bind_run; [apply Hstop|];
            reflexivity
          | reflexivity ]
        | reflexivity ]
      | ].
    all: cbn -[insert Peer.js_incr Peer.system_message].
    all: rewrite lookup_insert_eq, ?app_nil_r; by repeat split. }
  subst r. rewrite Hstep. cbn [fst snd]. subst t.
  rewrite !notified_app, Hquiet.
  change (notified [Peer.SetInterval f 2000]) with (@nil (nat * Peer.GameMessage)).
  cbn [app Peer.reconnecting Peer.sequence
    Peer.messageListeners Peer.fresh].
  split; [done|]. split; [done|]. split; [done|]. split; [done|]. split.
  - intros ->. rewrite notified_app, notified_map.
    change (notified [Peer.DispatchEvent "game:reconnected"])
      with (@nil (nat * Peer.GameMessage)).
    split; [by rewrite app_nil_r|].
    split; [|done]. apply in_or_app. right. apply in_or_app. right. by left.
  - by intros ->.
Qed.

Lemma reopened_channel_announces_reconnection_witness :
  notified
    (Peer.step (PeerScenario.env 9000)
       (Peer.run [(PeerScenario.env 500, Peer.CallOnMessage 7);
                  (PeerScenario.env 600, Peer.PlayerJoined);
                  (PeerScenario.env 700, Peer.Reconnecting)] Peer.init).1
       (Peer.ChannelOpened 2)).2
  = [(7, Peer.system_message (PeerScenario.env 9000) 0 "reconnected")] /\
  notified
    (Peer.step (PeerScenario.env 9000)
       (Peer.run [(PeerScenario.env 400, Peer.CallOnMessage 7);
                  (PeerScenario.env 500, Peer.Reconnecting);
                  (PeerScenario.env 600, Peer.Offer PeerScenario.sdp);
                  (PeerScenario.env 900, Peer.DataChannel 40 Peer.ch_open)]
          Peer.init).1
       (Peer.ChannelOpened 40)).2
  = [(7, Peer.system_message (PeerScenario.env 9000) 0 "reconnected")].
Proof.
  split.
  - destruct (reopened_channel_announces_reconnection (PeerScenario.env 9000)
                (Peer.run [(PeerScenario.env 500, Peer.CallOnMessage 7);
                           (PeerScenario.env 600, Peer.PlayerJoined);
                           (PeerScenario.env 700, Peer.Reconnecting)] Peer.init).1 2)
      as (_ & _ & _ & _ & Hset & _); [left; reflexivity|].
    destruct Hset as (Hnotified & _); [reflexivity|exact Hnotified].
  - destruct (reopened_channel_announces_reconnection (PeerScenario.env 9000)
                (Peer.run [(PeerScenario.env 400, Peer.CallOnMessage 7);
                           (PeerScenario.env 500, Peer.Reconnecting);
                           (PeerScenario.env 600, Peer.Offer PeerScenario.sdp);
                           (PeerScenario.env 900, Peer.DataChannel 40 Peer.ch_open)]
                   Peer.init).1 40)
      as (_ & _ & _ & _ & Hset & _); [right; reflexivity|].
    destruct Hset as (Hnotified & _); [reflexivity|exact Hnotified].
Defined.

(** ** The two sides of a negotiation *)

(** [createPeerConnection]: the old connection is closed, the new one gets the
    next identity, and only the offerer creates a data channel. *)
Lemma createPeerConnection_run s :
  exists s' t,
    Peer.createPeerConnection s = (tt, s', t) /\
    Peer.isHost s' = Peer.isHost s /\
    Peer.isConnected s' = false /\
    Peer.peerConnection s' = Some (Peer.fresh s) /\
    Peer.dataChannel s'
    = (if Peer.isHost s then Some (S (Peer.fresh s)) else None) /\
    Peer.remoteDataChannel s' = None /\
    Peer.messageListeners s' = Peer.messageListeners s /\
    Peer.sequence s' = Peer.sequence s /\
    negotiation t
    = Peer.NewRTCPeerConnection (Peer.fresh s) ::
      (if Peer.isHost s
       then [Peer.CreateDataChannel (Peer.fresh s) (S (Peer.fresh s))] else []).
Proof.
  destruct (closePeerConnection_run s)
    as (hi & ht & chs & ice & t0 & Hrun & _ & _).
  destruct (closePeerConnection_effects s) as (s0 & t0' & Hrun' & Hneg & _).
  rewrite Hrun in Hrun'. injection Hrun' as <- <-.
  destruct s as [pc dc rdc host conn ls seq hi0 ht0 ack rec chs0 ice0 f].
  cbn -[Peer.closePeerConnection] in Hrun. cbn [Peer.isHost Peer.fresh
    Peer.messageListeners Peer.sequence].
  destruct host.
  all: do 2 eexists; split;
    [ unfold Peer.createPeerConnection; eapply bind_run; [apply Hrun|];
      reflexivity | ].
  all: cbn -[insert]. all: rewrite negotiation_app, Hneg.
  all: by repeat split.
Qed.

(** What else [createPeerConnection] does: it uses up one identity for the
    connection and, on the offerer, one for the data channel, and it closes
    the connection and the data channel that the session had. *)
Lemma createPeerConnection_closes s s' t :
  Peer.createPeerConnection s = (tt, s', t) ->
  Peer.fresh s' = (if Peer.isHost s then S (S (Peer.fresh s)) else S (Peer.fresh s)) /\
  (forall pc, Peer.peerConnection s = Some pc -> In (Peer.PcClose pc) t) /\
  (forall ch, Peer.dataChannel s = Some ch -> In (Peer.ChannelClose ch) t).
Proof.
  destruct (closePeerConnection_run s)
    as (hi & ht & chs & ice & t0 & Hrun & _ & _).
  destruct (closePeerConnection_effects s)
    as (s0 & t0' & Hrun' & _ & Hpc & Hdc & _).
  rewrite Hrun in Hrun'. injection Hrun' as <- <-.
  destruct s as [pc dc rdc host conn ls seq hi0 ht0 ack rec chs0 ice0 f].
  cbn -[Peer.closePeerConnection] in Hrun.
  cbn [Peer.isHost Peer.fresh Peer.peerConnection Peer.dataChannel] in *.
  assert (exists s1 t1,
    Peer.createPeerConnection
      (Peer.mkState pc dc rdc host conn ls seq hi0 ht0 ack rec chs0 ice0 f)
    = (tt, s1, t0 ++ t1) /\
    Peer.fresh s1 = (if host then S (S f) else S f)) as (s1 & t1 & Hcreate & Hf).
  { destruct host.
    all: do 2 eexists; split;
      [ unfold Peer.createPeerConnection; eapply bind_run; [apply Hrun|];
        reflexivity | reflexivity ]. }
  rewrite Hcreate. intros [= <- <-]. split; [exact Hf|].
  split; intros x Hx; apply in_or_app; left; auto.
Qed.

(** A message that says player-joined calls a listener registered for it
    twice per registration. *)
Lemma player_joined_invocations c callback message :
  m_type message = "player-joined" ->
  Client.invocations "player-joined" callback
    (Trace.exec (Client.handleMessage message) c).2
  = 2 * Client.registrations "player-joined" callback c.
Proof.
  intros Htype. rewrite <- Htype.
  rewrite exec_handleMessage. cbn [snd].
  rewrite !invocations_app, !invocations_branch, invocations_emit_trace.
  rewrite decide_True by done. rewrite Htype.
  generalize (Client.registrations "player-joined" callback c). intros n.
  cbv -[Nat.add Nat.mul]. lia.
Qed.

Lemma peer_run_app evs1 evs2 s :
  Peer.run (evs1 ++ evs2) s
  = ((Peer.run evs2 (Peer.run evs1 s).1).1,
     (Peer.run evs1 s).2 ++ (Peer.run evs2 (Peer.run evs1 s).1).2).
Proof.
  revert s. induction evs1 as [|[env ev] evs1 IH]; intros s.
  - simpl. by destruct (Peer.run evs2 s).
  - rewrite <- app_comm_cons, !peer_run_cons, IH. cbn [fst snd].
    by rewrite app_assoc.
Qed.

(** X24.  The offerer's side of a negotiation.  The relay's message
    that a player has joined calls the listener that the session registered
    once with the client twice, so the session builds its peer connection
    twice: each time it takes the offerer's role, closes the connection and
    the data channel it had, makes a new connection with a data channel and
    asks it for an offer; the first connection is closed by the second call.
    When the offer of the second connection is there it is set as local
    description of that connection, then sent to the relay; and the answer
    that comes back is set as its remote description.  The session takes no
    other step of a negotiation, and ends not yet connected, with the second
    peer connection and data channel. *)
Theorem offer_flow c callback message env1 env2 env3 env4 s offer answer :
  m_type message = "player-joined" ->
  Client.registrations "player-joined" callback c = 1 ->
  let calls := Client.invocations "player-joined" callback
                 (Trace.exec (Client.handleMessage message) c).2 in
  let r := Peer.run (replicate calls (env1, Peer.PlayerJoined) ++
                     [(env2, Peer.OfferCreated offer);
                      (env3, Peer.LocalOfferSet offer);
                      (env4, Peer.Answer answer)]) s in
  let first := Peer.fresh s in
  let pc := S (S first) in
  calls = 2 /\
  negotiation r.2
  = [Peer.NewRTCPeerConnection first; Peer.CreateDataChannel first (S first);
     Peer.PcCreateOffer first;
     Peer.NewRTCPeerConnection pc; Peer.CreateDataChannel pc (S pc);
     Peer.PcCreateOffer pc; Peer.PcSetLocalDescription pc offer;
     Peer.SignalingSendOffer offer; Peer.PcSetRemoteDescription pc answer] /\
  In (Peer.PcClose first) r.2 /\ In (Peer.ChannelClose (S first)) r.2 /\
  Peer.isHost r.1 = true /\ Peer.isConnected r.1 = false /\
  Peer.peerConnection r.1 = Some pc /\ Peer.dataChannel r.1 = Some (S pc) /\
  Peer.messageListeners r.1 = Peer.messageListeners s /\
  Peer.sequence r.1 = Peer.sequence s.
Proof.
  intros Htype Hreg calls r first pc.
  assert (calls = 2) as Hcalls.
  { subst calls. rewrite player_joined_invocations, Hreg; done. }
  split; [exact Hcalls|]. subst r. rewrite Hcalls. clear calls Hcalls.
  cbn [replicate app].
  destruct (createPeerConnection_run (Peer.set_isHost true s))
    as (s1 & t1 & Hrun & Hhost & Hconn & Hpc & Hdc & _ & Hls & Hseq & Hneg).
  destruct (createPeerConnection_closes _ _ _ Hrun) as (Hfresh & _).
  cbn [Peer.set_isHost Peer.isHost Peer.fresh Peer.messageListeners Peer.sequence]
    in Hhost, Hpc, Hdc, Hls, Hseq, Hneg, Hfresh.
  fold first in Hpc, Hdc, Hneg, Hfresh.
  assert (Peer.step env1 s Peer.PlayerJoined
          = (s1, t1 ++ [Peer.PcCreateOffer first])) as Hstep1.
  { eapply step_run.
    - unfold Peer.handle, Peer.on_player_joined. run_step. run_step.
      eapply bind_run; [apply Hrun|]. unfold Peer.createOffer. run_step.
      rewrite Hpc. reflexivity.
    - done. }
  destruct (createPeerConnection_run (Peer.set_isHost true s1))
    as (s2 & t2 & Hrun2 & Hhost2 & Hconn2 & Hpc2 & Hdc2 & _ & Hls2 & Hseq2 & Hneg2).
  destruct (createPeerConnection_closes _ _ _ Hrun2) as (_ & Hclose & Hchannel).
  cbn [Peer.set_isHost Peer.isHost Peer.fresh Peer.messageListeners Peer.sequence
         Peer.peerConnection Peer.dataChannel]
    in Hhost2, Hpc2, Hdc2, Hls2, Hseq2, Hneg2, Hclose, Hchannel.
  fold pc in Hfresh. rewrite Hfresh in Hpc2, Hdc2, Hneg2.
  rewrite Hls in Hls2. rewrite Hseq in Hseq2.
  specialize (Hclose _ Hpc). specialize (Hchannel _ Hdc).
  assert (Peer.step env1 s1 Peer.PlayerJoined
          = (s2, t2 ++ [Peer.PcCreateOffer pc])) as Hstep1'.
  { eapply step_run.
    - unfold Peer.handle, Peer.on_player_joined. run_step. run_step.
      eapply bind_run; [apply Hrun2|]. unfold Peer.createOffer. run_step.
      rewrite Hpc2. reflexivity.
    - done. }
  assert (Peer.step env2 s2 (Peer.OfferCreated offer)
          = (s2, [Peer.PcSetLocalDescription pc offer])) as Hstep2.
  { eapply step_run.
    - unfold Peer.handle, Peer.createOffer_1. run_step. run_step.
      rewrite Hpc2. reflexivity.
    - done. }
  assert (Peer.step env3 s2 (Peer.LocalOfferSet offer)
          = (s2, [Peer.SignalingSendOffer offer])) as Hstep3 by done.
  assert (Peer.step env4 s2 (Peer.Answer answer)
          = (s2, [Peer.PcSetRemoteDescription pc answer])) as Hstep4.
  { eapply step_run.
    - unfold Peer.handle, Peer.handleAnswer. run_step. run_step.
      rewrite Hpc2. reflexivity.
    - done. }
  rewrite !peer_run_cons, Hstep1. cbn [fst snd]. rewrite Hstep1'. cbn [fst snd].
  rewrite Hstep2. cbn [fst snd]. rewrite Hstep3. cbn [fst snd]. rewrite Hstep4.
  cbn [fst snd Peer.run]. rewrite !negotiation_app, Hneg, Hneg2.
  split; [done|].
  split; [apply in_or_app; right; apply in_or_app; left; apply in_or_app; by left|].
  split; [apply in_or_app; right; apply in_or_app; left; apply in_or_app; by left|].
  by repeat split.
Qed.

Lemma offer_flow_witness :
  let c := (Trace.exec (Client.on "player-joined" 1) Client.init).1 in
  let r := Peer.run [(PeerScenario.env 600, Peer.PlayerJoined);
                     (PeerScenario.env 600, Peer.PlayerJoined);
                     (PeerScenario.env 700, Peer.OfferCreated PeerScenario.sdp);
                     (PeerScenario.env 800, Peer.LocalOfferSet PeerScenario.sdp);
                     (PeerScenario.env 900, Peer.Answer PeerScenario.sdp)]
             Peer.init in
  Client.invocations "player-joined" 1
    (Trace.exec (Client.handleMessage (msg0 "player-joined")) c).2 = 2 /\
  negotiation r.2
  = [Peer.NewRTCPeerConnection 1; Peer.CreateDataChannel 1 2;
     Peer.PcCreateOffer 1;
     Peer.NewRTCPeerConnection 3; Peer.CreateDataChannel 3 4;
     Peer.PcCreateOffer 3; Peer.PcSetLocalDescription 3 PeerScenario.sdp;
     Peer.SignalingSendOffer PeerScenario.sdp;
     Peer.PcSetRemoteDescription 3 PeerScenario.sdp] /\
  In (Peer.PcClose 1) r.2 /\ In (Peer.ChannelClose 2) r.2 /\
  Peer.peerConnection r.1 = Some 3 /\ Peer.dataChannel r.1 = Some 4.
Proof.
  intros c r.
  destruct (offer_flow c 1 (msg0 "player-joined")
              (PeerScenario.env 600) (PeerScenario.env 700) (PeerScenario.env 800)
              (PeerScenario.env 900) Peer.init PeerScenario.sdp PeerScenario.sdp)
    as (Hcalls & Hneg & Hclose & Hchannel & _ & _ & Hpc & Hdc & _);
    [reflexivity|reflexivity|].
  rewrite Hcalls in Hneg, Hclose, Hchannel, Hpc, Hdc.
  split; [exact Hcalls|]. split; [exact Hneg|]. split; [exact Hclose|].
  split; [exact Hchannel|]. split; [exact Hpc|exact Hdc].
Defined.

(** X25.  The answerer's side.  When an offer has arrived, the
    session takes the answerer's role, replaces its peer connection, creates no
    data channel, and sets the offer as remote description; then it asks for
    an answer, sets it as local description, and sends it to the relay.  It
    creates no offer of its own. *)
Theorem answer_flow env1 env2 env3 env4 s offer answer :
  let r := Peer.run [(env1, Peer.Offer offer); (env2, Peer.RemoteOfferSet);
                     (env3, Peer.AnswerCreated answer);
                     (env4, Peer.LocalAnswerSet answer)] s in
  let pc := Peer.fresh s in
  negotiation r.2
  = [Peer.NewRTCPeerConnection pc; Peer.PcSetRemoteDescription pc offer;
     Peer.PcCreateAnswer pc; Peer.PcSetLocalDescription pc answer;
     Peer.SignalingSendAnswer answer] /\
  Peer.isHost r.1 = false /\ Peer.isConnected r.1 = false /\
  Peer.peerConnection r.1 = Some pc /\ Peer.dataChannel r.1 = None /\
  Peer.messageListeners r.1 = Peer.messageListeners s /\
  Peer.sequence r.1 = Peer.sequence s.
Proof.
  intros r pc.
  destruct (createPeerConnection_run (Peer.set_isHost false s))
    as (s1 & t1 & Hrun & Hhost & Hconn & Hpc & Hdc & _ & Hls & Hseq & Hneg).
  cbn [Peer.set_isHost Peer.isHost Peer.fresh Peer.messageListeners Peer.sequence]
    in Hhost, Hpc, Hdc, Hls, Hseq, Hneg.
  assert (Peer.step env1 s (Peer.Offer offer)
          = (s1, t1 ++ [Peer.PcSetRemoteDescription pc offer])) as Hstep1.
  { eapply step_run.
    - unfold Peer.handle, Peer.on_offer. run_step. run_step.
      eapply bind_run; [apply Hrun|]. unfold Peer.handleOffer. run_step.
      rewrite Hpc. reflexivity.
    - done. }
  assert (Peer.step env2 s1 Peer.RemoteOfferSet
          = (s1, [Peer.PcCreateAnswer pc])) as Hstep2.
  { eapply step_run.
    - unfold Peer.handle, Peer.handleOffer_1. run_step. run_step.
      rewrite Hpc. reflexivity.
    - done. }
  assert (Peer.step env3 s1 (Peer.AnswerCreated answer)
          = (s1, [Peer.PcSetLocalDescription pc answer])) as Hstep3.
  { eapply step_run.
    - unfold Peer.handle, Peer.handleOffer_2. run_step. run_step.
      rewrite Hpc. reflexivity.
    - done. }
  assert (Peer.step env4 s1 (Peer.LocalAnswerSet answer)
          = (s1, [Peer.SignalingSendAnswer answer])) as Hstep4 by done.
  subst r. rewrite !peer_run_cons, Hstep1. cbn [fst snd].
  rewrite Hstep2. cbn [fst snd]. rewrite Hstep3. cbn [fst snd]. rewrite Hstep4.
  cbn [fst snd Peer.run]. rewrite !negotiation_app, Hneg.
  by repeat split.
Qed.

(** * Further properties of the room registry *)

(** X26.  In a registry the relay can reach,
    [getPlayersInRoom] lists at most two players, at most one of them with the
    host flag, and lists nobody for an id that no room has; and a player that
    [getOtherPlayerInRoom] finds for some player of a room is one of the
    players listed for that room. *)
Theorem players_in_room rm roomId :
  Relay.reachable rm ->
  length (Rooms.getPlayersInRoom roomId rm) <= 2 /\
  length (List.filter isHost (Rooms.getPlayersInRoom roomId rm)) <= 1 /\
  (Rooms.getRoom roomId rm = None -> Rooms.getPlayersInRoom roomId rm = []) /\
  (forall playerId other,
     Rooms.getOtherPlayerInRoom roomId playerId rm = Some other ->
     other ∈ Rooms.getPlayersInRoom roomId rm).
Proof.
  intros Hok%reachable_registry_ok.
  unfold Rooms.getPlayersInRoom, Rooms.getRoom.
  destruct (JsMap.get roomId (rooms rm)) as [room|] eqn:Hget.
  - destruct (registry_ok_lookup _ _ _ Hok Hget) as (_ & Hsize & Hhosts & _).
    simpl in Hsize, Hhosts. unfold JsMap.size in Hsize. unfold hosts in Hhosts.
    split; [unfold JsMap.values; by rewrite length_fmap|].
    split; [done|]. split; [done|].
    intros playerId other (room' & key & Hget' & Hin & _)%getOtherPlayerInRoom_Some.
    unfold Rooms.getRoom in Hget'. rewrite Hget in Hget'. injection Hget' as <-.
    apply list_elem_of_fmap. by exists (key, other).
  - simpl. split; [lia|]. split; [lia|]. split; [done|].
    intros playerId other (room' & key & Hget' & _)%getOtherPlayerInRoom_Some.
    unfold Rooms.getRoom in Hget'. by rewrite Hget in Hget'.
Qed.

Lemma players_in_room_witness :
  length (Rooms.getPlayersInRoom Scenario.room1 Scenario.paired) <= 2 /\
  Rooms.getPlayersInRoom Scenario.room2 Scenario.paired = [].
Proof.
  destruct (players_in_room Scenario.paired Scenario.room1) as (Hlen & _).
  { apply reachable_run. constructor. }
  destruct (players_in_room Scenario.paired Scenario.room2) as (_ & _ & Hnone & _).
  { apply reachable_run. constructor. }
  split; [exact Hlen|]. apply Hnone. reflexivity.
Defined.

(** X27.  [addPlayerToRoom] refuses, and changes
    nothing, when no room has the id or when the room already holds two
    players.  Otherwise it returns true: the room then holds the player under
    the player's id, the index gives the room for the player, the room holds
    at most one player more than before, and no other room and no other entry
    of the index has changed. *)
Theorem addPlayerToRoom_outcomes roomId player rm :
  let r := Rooms.addPlayerToRoom roomId player rm in
  (Rooms.getRoom roomId rm = None -> r = (rm, false)) /\
  (forall room,
     Rooms.getRoom roomId rm = Some room -> 2 <= JsMap.size (players room) ->
     r = (rm, false)) /\
  (forall room,
     Rooms.getRoom roomId rm = Some room -> JsMap.size (players room) < 2 ->
     r.2 = true /\
     (exists room',
        Rooms.getRoom roomId r.1 = Some room' /\
        JsMap.get (p_id player) (players room') = Some player /\
        JsMap.size (players room') <= S (JsMap.size (players room)) /\
        (r_id room', code room', createdAt room')
        = (r_id room, code room, createdAt room)) /\
     playerRooms r.1 !! p_id player = Some roomId /\
     (forall other, other <> roomId ->
                    Rooms.getRoom other r.1 = Rooms.getRoom other rm) /\
     (forall other, other <> p_id player ->
                    playerRooms r.1 !! other = playerRooms rm !! other)).
Proof.
  intros r. subst r. unfold Rooms.addPlayerToRoom, Rooms.getRoom.
  split; [by intros ->|]. split.
  - intros room -> Hfull. by rewrite (proj2 (Nat.leb_le _ _) Hfull).
  - intros room -> Hroom.
    rewrite (proj2 (Nat.leb_gt _ _) Hroom). simpl. split; [done|]. split.
    + eexists. split; [apply jsmap_get_set_eq|].
      destruct (_ =? 2); simpl; (split; [apply jsmap_get_set_eq|]);
        (split; [apply jsmap_size_set_le|done]).
    + split; [apply lookup_insert_eq|]. split.
      * intros other Hne. by apply jsmap_get_set_ne.
      * intros other Hne. by apply lookup_insert_ne.
Qed.

Lemma addPlayerToRoom_outcomes_witness :
  Rooms.addPlayerToRoom Scenario.room1 (mkPlayer Scenario.playerZ 3 false)
    Scenario.paired = (Scenario.paired, false) /\
  Rooms.addPlayerToRoom Scenario.room2 (mkPlayer Scenario.playerZ 3 false)
    Scenario.paired = (Scenario.paired, false) /\
  playerRooms
    (Rooms.addPlayerToRoom Scenario.room1 (mkPlayer Scenario.playerY 2 false)
       (Rooms.removePlayer Scenario.playerY Scenario.paired).1).1
    !! Scenario.playerY = Some Scenario.room1.
Proof.
  destruct (addPlayerToRoom_outcomes Scenario.room1 (mkPlayer Scenario.playerZ 3 false)
              Scenario.paired) as (_ & Hfull & _).
  destruct (addPlayerToRoom_outcomes Scenario.room2 (mkPlayer Scenario.playerZ 3 false)
              Scenario.paired) as (Hnone & _).
  destruct (addPlayerToRoom_outcomes Scenario.room1 (mkPlayer Scenario.playerY 2 false)
              (Rooms.removePlayer Scenario.playerY Scenario.paired).1)
    as (_ & _ & Hadd).
  split; [|split; [apply Hnone; reflexivity|]].
  - apply (Hfull (mkRoom Scenario.room1 "4XMVUE"
                    [(Scenario.playerX, mkPlayer Scenario.playerX 1 true);
                     (Scenario.playerY, mkPlayer Scenario.playerY 2 false)] full 1000)).
    + vm_compute. reflexivity.
    + vm_compute. lia.
  - edestruct Hadd as (_ & _ & Hindex & _); [vm_compute; reflexivity| |exact Hindex].
    vm_compute. lia.
Defined.

(** X28.  [removePlayer] touches one room and one entry of
    the index only: every room other than the one the index gives for the
    player is left as it is, even if it holds the player, and the index is
    left as it is for every other player. *)
Theorem removePlayer_frame playerId rm :
  let rm' := (Rooms.removePlayer playerId rm).1 in
  (forall roomId,
     playerRooms rm !! playerId <> Some roomId ->
     Rooms.getRoom roomId rm' = Rooms.getRoom roomId rm) /\
  (forall other,
     other <> playerId -> playerRooms rm' !! other = playerRooms rm !! other).
Proof.
  intros rm'. subst rm'. unfold Rooms.removePlayer, Rooms.getRoom.
  destruct (playerRooms rm !! playerId) as [roomId|] eqn:Hpr; [|done].
  destruct (negb (truthy roomId)); [done|].
  destruct (JsMap.get roomId (rooms rm)) as [room|] eqn:Hget; simpl.
  - destruct (_ =? 0); simpl.
    + split.
      * intros other Hne. apply jsmap_get_remove_ne. by intros ->.
      * intros other Hne. by apply lookup_delete_ne.
    + split.
      * intros other Hne. apply jsmap_get_set_ne. by intros ->.
      * intros other Hne. by apply lookup_delete_ne.
  - split; [done|]. intros other Hne. by apply lookup_delete_ne.
Qed.

Lemma removePlayer_frame_witness :
  playerRooms (Rooms.removePlayer Scenario.playerY Scenario.paired).1
    !! Scenario.playerX
  = Some Scenario.room1.
Proof.
  destruct (removePlayer_frame Scenario.playerY Scenario.paired) as [_ Hindex].
  rewrite Hindex; [reflexivity|]. vm_compute. discriminate.
Defined.
